(** * inginious_fs_s3: the S3 cache manager and provider, embedded in Rocq

    The development follows [src/inginious_fs_s3/__init__.py]:
    - [Path]: the functions of [os.path] (posixpath) the code calls;
    - [Disk]: the part of the local disk the cache manager touches;
    - [LRU]: [cachetools.Cache] and [cachetools.LRUCache] (cachetools 2.x,
      the version required by [setup.py]);
    - [S3CacheManager]: [S3CacheManager] and its [CustomLRUCache];
    - [S3FSProvider]: [S3FSProvider] over a model of the bucket. *)

From Stdlib Require Import ZArith List String Ascii Bool Lia Sorted.
From stdpp Require Import base option list gmap strings.

Local Open Scope Z_scope.
Local Open Scope string_scope.

(** ** Paths: [str] methods and [os.path] *)

Module Path.

Definition slash : ascii := "/"%char.

Definition is_slash (a : ascii) : bool := Ascii.eqb a slash.

Definition chars (s : string) : list ascii := list_ascii_of_string s.
Definition str (l : list ascii) : string := string_of_list_ascii l.

(** [s.endswith("/")] *)
Definition endswith_slash (s : string) : bool :=
  match rev (chars s) with
  | a :: _ => is_slash a
  | [] => false
  end.

(** [s.startswith("/")] *)
Definition startswith_slash (s : string) : bool :=
  match s with
  | String a _ => is_slash a
  | EmptyString => false
  end.

(** [s[:-1]] *)
Definition drop_last (s : string) : string :=
  str (removelast (chars s)).

(** [head.rstrip("/")] on the reversed characters *)
Fixpoint lstrip_slash (l : list ascii) : list ascii :=
  match l with
  | a :: l' => if is_slash a then lstrip_slash l' else l
  | [] => []
  end.

(** Drops the reversed tail component: everything up to the last "/" *)
Fixpoint drop_tail (l : list ascii) : list ascii :=
  match l with
  | a :: l' => if is_slash a then l else drop_tail l'
  | [] => []
  end.

(** [os.path.split(p)[0]] of posixpath:
    [i = p.rfind("/") + 1; head = p[:i];
     if head and head != "/" * len(head): head = head.rstrip("/")] *)
Definition split_head (p : string) : string :=
  let head := drop_tail (rev (chars p)) in
  if forallb is_slash head then str (rev head)
  else str (rev (lstrip_slash head)).

(** [os.path.split(p)[1]]: what follows the last "/" *)
Fixpoint take_tail (l : list ascii) : list ascii :=
  match l with
  | a :: l' => if is_slash a then [] else a :: take_tail l'
  | [] => []
  end.

Definition split_tail (p : string) : string :=
  str (rev (take_tail (rev (chars p)))).

(** [os.path.join(a, b)] of posixpath, for two components *)
Definition join (a b : string) : string :=
  if startswith_slash b then b
  else if (String.eqb a "" || endswith_slash a)%bool then a ++ b
  else a ++ "/" ++ b.

(** [k.startswith(p)] *)
Definition startswith (p k : string) : bool := String.prefix p k.

(** [k[len(p):]] *)
Definition drop_prefix (p k : string) : string :=
  str (drop (String.length p) (chars k)).

End Path.

(** ** Exceptions and the state-and-exception monad

    A Python exception leaves the mutations done so far in place, so a
    computation returns its outcome together with the state it reached.
    [OutOfFuel] stands for a loop or recursion that has not finished within
    the fuel given. *)

Inductive exn : Type :=
| KeyError (key : string)
| ValueError
| OSError
| TypeError
| ClientError
| ParamValidationError
| BotoCoreError
| NotFoundException.

Inductive result (A : Type) : Type :=
| Ret (a : A)
| Raise (e : exn)
| OutOfFuel.
Arguments Ret {A} a.
Arguments Raise {A} e.
Arguments OutOfFuel {A}.

Definition M (S A : Type) : Type := S -> result A * S.

Definition ret {S A} (a : A) : M S A := fun s => (Ret a, s).
Definition raise {S A} (e : exn) : M S A := fun s => (Raise e, s).
Definition timeout {S A} : M S A := fun s => (OutOfFuel, s).
Definition bind {S A B} (m : M S A) (k : A -> M S B) : M S B :=
  fun s => match m s with
           | (Ret a, s') => k a s'
           | (Raise e, s') => (Raise e, s')
           | (OutOfFuel, s') => (OutOfFuel, s')
           end.
Definition gets {S A} (f : S -> A) : M S A := fun s => (Ret (f s), s).
Definition modify {S} (f : S -> S) : M S unit := fun s => (Ret tt, f s).

(** [try: m except E: h] for the exceptions selected by [sel] *)
Definition try_except {S A} (m : M S A) (sel : exn -> bool) (h : M S A) : M S A :=
  fun s => match m s with
           | (Raise e, s') => if sel e then h s' else (Raise e, s')
           | r => r
           end.

(** Runs a computation on a component of the state *)
Definition zoom {S T A} (proj : S -> T) (upd : T -> S -> S) (m : M T A) : M S A :=
  fun s => let '(r, t') := m (proj s) in (r, upd t' s).

Notation "'let*' x ':=' m 'in' k" := (bind m (fun x => k))
  (at level 10, x name, m at level 100, k at level 200).
Notation "'do*' m 'in' k" := (bind m (fun _ => k))
  (at level 10, m at level 100, k at level 200).

Definition is_ClientError (e : exn) : bool :=
  match e with ClientError => true | _ => false end.
Definition any_exn (e : exn) : bool := true.

Definition bytes : Type := list Byte.byte.

(** [len(content)] *)
Definition len (content : bytes) : Z := Z.of_nat (length content).

(** ** The local disk

    Files and directories are kept under their normalized path (repeated
    and trailing "/" removed). A path stands for one file: "." and ".."
    components are not interpreted and links are not followed, so that the
    properties of the disk are stated for paths without such components.
    Every failing system call is an [OSError]. *)

Module Disk.

Record t : Type := mk { files : gmap string bytes; dirs : gset string }.

Fixpoint squeeze (l : list ascii) : list ascii :=
  match l with
  | a :: l' =>
      if Path.is_slash a then
        match l' with
        | b :: _ => if Path.is_slash b then squeeze l' else a :: squeeze l'
        | [] => [a]
        end
      else a :: squeeze l'
  | [] => []
  end.

Definition norm (p : string) : string :=
  match squeeze (Path.chars p) with
  | [a] => Path.str [a]
  | l => Path.str (if Path.endswith_slash (Path.str l) then removelast l else l)
  end.

(** The path and its ancestors, deepest first *)
Fixpoint chain (n : nat) (p : string) : list string :=
  match n with
  | O => []
  | S n' =>
      if String.eqb p "" then []
      else p :: (let h := Path.split_head p in
                 if String.eqb h p then [] else chain n' h)
  end.

Definition isfile (p : string) (d : t) : bool := bool_decide (is_Some (files d !! norm p)).
Definition isdir (p : string) (d : t) : bool := bool_decide (norm p ∈ dirs d).

(** [os.makedirs(p, exist_ok=True)] *)
Definition makedirs (p : string) : M t unit := fun d =>
  let q := norm p in
  let comps := chain (S (String.length q)) q in
  if String.eqb q "" then (Raise OSError, d)
  else if existsb (fun c => isfile c d) comps then (Raise OSError, d)
  else (Ret tt, mk (files d) (list_to_set comps ∪ dirs d)).

(** [open(p, 'wb').write(content)] *)
Definition write (p : string) (content : bytes) : M t unit := fun d =>
  if (Path.endswith_slash p || isdir p d || negb (isdir (Path.split_head (norm p)) d))%bool
  then (Raise OSError, d)
  else (Ret tt, mk (<[norm p := content]> (files d)) (dirs d)).

(** [open(p, 'wb')]: creates the file, or empties it *)
Definition open_wb (p : string) : M t unit := write p [].

(** [.write(content)] on the descriptor that [open(p, 'wb')] gave, and its
    closing: the file written is the one that was opened, which is at [p]
    unless it has been unlinked since; the bytes written to an unlinked file
    are lost *)
Definition write_fd (p : string) (content : bytes) : M t unit := fun d =>
  if isfile p d then (Ret tt, mk (<[norm p := content]> (files d)) (dirs d))
  else (Ret tt, d).

(** [os.listdir(p)]: the names of the entries whose parent directory is [p] *)
Definition listdir (p : string) : M t (list string) := fun d =>
  if isdir p d then
    (Ret (map Path.split_tail
            (filter (fun c => Path.split_head c = norm p ∧ c ≠ norm p)
               (elements (dom (files d)) ++ elements (dirs d))%list)), d)
  else (Raise OSError, d).

(** [shutil.copyfile(src, dest)] *)
Definition copyfile (src dest : string) : M t unit := fun d =>
  match files d !! norm src with
  | Some content =>
      if Path.endswith_slash src then (Raise OSError, d) else write dest content d
  | None => (Raise OSError, d)
  end.

(** [open(p, 'rb')], then [.read()] on the descriptor *)
Definition read (p : string) : M t bytes := fun d =>
  match files d !! norm p with
  | Some content =>
      if Path.endswith_slash p then (Raise OSError, d) else (Ret content, d)
  | None => (Raise OSError, d)
  end.

(** [os.unlink(p)]: removes a file; fails on a directory or a missing file *)
Definition unlink (p : string) : M t unit := fun d =>
  if (isfile p d && negb (Path.endswith_slash p))%bool
  then (Ret tt, mk (delete (norm p) (files d)) (dirs d))
  else (Raise OSError, d).

(** [if os.path.exists(p): shutil.rmtree(p)] then [os.makedirs(p)] *)
Definition wipe (p : string) : M t unit := fun d =>
  let q := norm p in
  let under (c : string) := (String.eqb c q || Path.startswith (q ++ "/") c)%bool in
  if isfile p d then (Raise OSError, d)
  else makedirs p (mk (filter (fun kv => under kv.1 = false) (files d))
                     (filter (fun c => under c = false) (dirs d))).

Definition empty : t := mk ∅ ∅.

End Disk.

(** ** cachetools: [Cache] and [LRUCache]

    The value stored under a key is the tuple
    [(timestamp, disk_path, weight)]; [getsizeof] is
    [CustomLRUCache._computeFileSize], the third component. *)

Record entry : Type := Entry { timestamp : Z; disk_path : string; weight : Z }.

Module LRU.

Record t : Type := mk {
  data : gmap string entry;     (* Cache.__data *)
  sizes : gmap string Z;        (* Cache.__size *)
  currsize : Z;                 (* Cache.__currsize *)
  maxsize : Z;                  (* Cache.__maxsize *)
  order : list string           (* LRUCache.__order, least recently used first *)
}.

Definition set_order (o : list string) (c : t) : t :=
  mk (data c) (sizes c) (currsize c) (maxsize c) o.

(** [LRUCache.__init__]: an empty cache *)
Definition empty (maxsize : Z) : t := mk ∅ ∅ 0 maxsize [].

(** [Cache.__contains__] *)
Definition contains (key : string) (c : t) : bool :=
  bool_decide (is_Some (data c !! key)).

(** [Cache.__getitem__]; the default [__missing__] raises [KeyError] *)
Definition Cache_getitem (key : string) : M t entry := fun c =>
  match data c !! key with
  | Some v => (Ret v, c)
  | None => (Raise (KeyError key), c)
  end.

(** [Cache.__delitem__] *)
Definition Cache_delitem (key : string) : M t unit := fun c =>
  match sizes c !! key with
  | None => (Raise (KeyError key), c)
  | Some size =>
      let c1 := mk (data c) (delete key (sizes c)) (currsize c) (maxsize c) (order c) in
      match data c !! key with
      | None => (Raise (KeyError key), c1)
      | Some _ =>
          (Ret tt, mk (delete key (data c)) (delete key (sizes c))
                      (currsize c - size) (maxsize c) (order c))
      end
  end.

Definition remove (key : string) (o : list string) : list string :=
  filter (fun k => k ≠ key) o.

(** [LRUCache.__update]: [move_to_end], or append when the key is new *)
Definition update (key : string) : M t unit :=
  modify (fun c => set_order (remove key (order c) ++ [key])%list c).

(** [LRUCache.__getitem__] *)
Definition LRUCache_getitem (key : string) : M t entry :=
  let* value := Cache_getitem key in
  do* update key in
  ret value.

(** [LRUCache.__delitem__] *)
Definition LRUCache_delitem (key : string) : M t unit :=
  do* Cache_delitem key in
  fun c => if bool_decide (key ∈ order c)
           then (Ret tt, set_order (remove key (order c)) c)
           else (Raise (KeyError key), c).

(** The least recently used key: [next(iter(self.__order))] *)
Definition first_key : M t string := fun c =>
  match order c with
  | key :: _ => (Ret key, c)
  | [] => (Raise (KeyError "CustomLRUCache is empty"), c)
  end.

End LRU.

(** ** [S3CacheManager] and its [CustomLRUCache] *)

Module S3CacheManager.

Record t : Type := mk {
  _cache_data : LRU.t;
  disk : Disk.t;
  _cache_path : string
}.

Definition lru {A} (m : M LRU.t A) : M t A :=
  zoom _cache_data (fun c s => mk c (disk s) (_cache_path s)) m.
Definition os {A} (m : M Disk.t A) : M t A :=
  zoom disk (fun d s => mk (_cache_data s) d (_cache_path s)) m.

Module CustomLRUCache.

(** [CustomLRUCache.__init__] *)
Definition __init__ (maxsize : Z) : LRU.t := LRU.empty maxsize.

(** [CustomLRUCache._computeFileSize], the [getsizeof] of the cache *)
Definition _computeFileSize (v : entry) : Z := weight v.

(** The loop shared by [__getitem__] and [__setitem__]:
    [while cur_path != "": cur_path = os.path.split(cur_path)[0]; ...] *)
Fixpoint up_parents (fuel : nat) (cur_path : string) : M LRU.t unit :=
  if String.eqb cur_path "" then ret tt
  else match fuel with
       | O => timeout
       | S fuel' =>
           let cur_path := Path.split_head cur_path in
           let* present := gets (LRU.contains (cur_path ++ "/")) in
           do* (if present : bool then LRU.update (cur_path ++ "/") else ret tt) in
           up_parents fuel' cur_path
       end.

Definition strip_slash (path : string) : string :=
  if Path.endswith_slash path then Path.drop_last path else path.

(** [CustomLRUCache.__getitem__] *)
Definition __getitem__ (fuel : nat) (path : string) : M LRU.t entry :=
  let* val := LRU.LRUCache_getitem path in
  do* up_parents fuel (strip_slash path) in
  ret val.

(** [CustomLRUCache.__delitem__] *)
Fixpoint __delitem__ (fuel : nat) (path : string) : M t unit :=
  match fuel with
  | O => timeout
  | S fuel' =>
      let* e := lru (__getitem__ fuel path) in
      do* (if negb (Path.endswith_slash path) then os (Disk.unlink (disk_path e))
           else let* l := os (Disk.listdir (disk_path e)) in
                if Nat.eqb (length l) 0 then os (Disk.unlink (disk_path e))
                else ret tt) in
      let path := strip_slash path in
      let sub := Path.split_head path in
      let* present := gets (fun s => LRU.contains (sub ++ "/") (_cache_data s)) in
      do* (if (negb (String.eqb sub "") && present)%bool
           then __delitem__ fuel' (sub ++ "/") else ret tt) in
      lru (LRU.LRUCache_delitem path)
  end.

(** [MutableMapping.pop(key)] as [Cache] inherits it *)
Definition pop (fuel : nat) (key : string) : M t entry :=
  let* present := gets (fun s => LRU.contains key (_cache_data s)) in
  if present : bool then
    let* value := lru (__getitem__ fuel key) in
    do* __delitem__ fuel key in
    ret value
  else raise (KeyError key).

(** [LRUCache.popitem] *)
Definition popitem (fuel : nat) : M t (string * entry) :=
  let* key := lru LRU.first_key in
  let* value := pop fuel key in
  ret (key, value).

(** [while self.__currsize + size > maxsize: self.popitem()] *)
Fixpoint evict (fuel : nat) (size : Z) : M t unit :=
  fun s =>
    if LRU.currsize (_cache_data s) + size >? LRU.maxsize (_cache_data s) then
      match fuel with
      | O => (OutOfFuel, s)
      | S fuel' => (do* popitem fuel' in evict fuel' size) s
      end
    else (Ret tt, s).

(** [Cache.__setitem__] *)
Definition Cache_setitem (fuel : nat) (key : string) (value : entry) : M t unit :=
  let* maxsize := gets (fun s => LRU.maxsize (_cache_data s)) in
  let size := _computeFileSize value in
  if size >? maxsize then raise ValueError
  else
    let* old := gets (fun s => (LRU.data (_cache_data s) !! key : option entry)) in
    let* oldsize := gets (fun s => (LRU.sizes (_cache_data s) !! key : option Z)) in
    do* (match old, oldsize with
         | None, _ => evict fuel size
         | Some _, Some sz => if (sz <? size)%Z then evict fuel size else ret tt
         | Some _, None => raise (KeyError key)
         end) in
    let* old := gets (fun s => (LRU.data (_cache_data s) !! key : option entry)) in
    let* oldsize := gets (fun s => (LRU.sizes (_cache_data s) !! key : option Z)) in
    let* diffsize := (match old, oldsize with
                      | None, _ => ret size
                      | Some _, Some sz => ret (size - sz)
                      | Some _, None => raise (KeyError key)
                      end) in
    lru (modify (fun c =>
           LRU.mk (<[key := value]> (LRU.data c)) (<[key := size]> (LRU.sizes c))
                  (LRU.currsize c + diffsize) (LRU.maxsize c) (LRU.order c))).

(** [LRUCache.__setitem__] *)
Definition LRUCache_setitem (fuel : nat) (key : string) (value : entry) : M t unit :=
  do* Cache_setitem fuel key value in
  lru (LRU.update key).

(** [CustomLRUCache.__setitem__] *)
Definition __setitem__ (fuel : nat) (path : string) (key : entry) : M t unit :=
  do* LRUCache_setitem fuel path key in
  lru (up_parents fuel (strip_slash path)).

End CustomLRUCache.

Import CustomLRUCache.

(** [S3CacheManager.__init__] *)
Definition __init__ (cache_path : string) (max_size : Z) : M Disk.t t :=
  do* Disk.wipe cache_path in
  fun d => (Ret (mk (CustomLRUCache.__init__ max_size) d cache_path), d).

(** [S3CacheManager.get] *)
Definition get (fuel : nat) (path : string) (cur_timestamp : Z) : M t (option string) :=
  let* present := gets (fun s => LRU.contains path (_cache_data s)) in
  if present : bool then
    let* entry := lru (__getitem__ fuel path) in
    if timestamp entry >=? cur_timestamp then ret (Some (disk_path entry))
    else ret None
  else ret None.

(** [S3CacheManager.put_file] *)
Definition put_file (fuel : nat) (path : string) (cur_timestamp : Z)
    (content : bytes) : M t unit :=
  let* cache_path := gets _cache_path in
  let disk_path := Path.join cache_path path in
  do* os (Disk.makedirs (Path.split_head disk_path)) in
  do* os (Disk.write disk_path content) in
  __setitem__ fuel path (Entry cur_timestamp disk_path (len content)).

(** [S3CacheManager.put_folder] *)
Definition put_folder (fuel : nat) (path : string) (cur_timestamp : Z) : M t unit :=
  let* cache_path := gets _cache_path in
  let disk_path := Path.join cache_path path in
  do* os (Disk.makedirs (Path.split_head disk_path)) in
  __setitem__ fuel path (Entry cur_timestamp disk_path 0).

(** [S3CacheManager.invalidate] *)
Fixpoint invalidate (fuel : nat) (path : string) : M t unit :=
  match fuel with
  | O => timeout
  | S fuel' =>
      let* present := gets (fun s => LRU.contains path (_cache_data s)) in
      if present : bool then __delitem__ fuel path
      else
        let path := strip_slash path in
        let sub := Path.split_head path in
        if negb (String.eqb sub "") then invalidate fuel' (sub ++ "/")
        else ret tt
  end.

End S3CacheManager.

(** ** The bucket

    The boto3 client is outside the repository. The bucket is the objects
    under their keys, together with what the store does with each request:
    it serves it, it answers with an error, which the client raises as
    [ClientError], or no answer arrives, which the client raises as a
    [BotoCoreError] of another kind. Before a request that names an object
    is sent, the client validates its parameters: an empty key is a
    [ParamValidationError]. A request for a missing object is answered with
    an error. Listings give the keys in byte order, each key once. *)

Module S3.

Inductive op : Type := Head | Get | Upload | PutObject | Delete | List | ListV2.

Record object : Type := Object { last_modified : Z; body : bytes }.

Inductive answer : Type := served | error_response | no_response.

Record t : Type := mk {
  objects : list (string * object);
  answers : op -> string -> answer
}.

(** The store does not serve the request *)
Definition refused (b : t) (o : op) (key : string) : bool :=
  match answers b o key with
  | served => false
  | _ => true
  end.

(** The requests that name one object by its key *)
Definition names_object (o : op) : bool :=
  match o with
  | List | ListV2 => false
  | _ => true
  end.

(** A request of the client: the validation of the key, then the answer of
    the store *)
Definition request (o : op) (key : string) : M t unit := fun b =>
  if (names_object o && String.eqb key "")%bool then (Raise ParamValidationError, b)
  else match answers b o key with
       | served => (Ret tt, b)
       | error_response => (Raise ClientError, b)
       | no_response => (Raise BotoCoreError, b)
       end.

Fixpoint find (key : string) (l : list (string * object)) : option object :=
  match l with
  | (k, o) :: l' => if String.eqb k key then Some o else find key l'
  | [] => None
  end.

Fixpoint store (key : string) (o : object) (l : list (string * object))
    : list (string * object) :=
  match l with
  | (k, o') :: l' => if String.eqb k key then (k, o) :: l' else (k, o') :: store key o l'
  | [] => [(key, o)]
  end.

Definition erase (key : string) (l : list (string * object)) : list (string * object) :=
  filter (fun ko => ko.1 ≠ key) l.

(** The objects in the byte order of their keys, each key once, with the
    object that [find] gives *)
Fixpoint place (ko : string * object) (l : list (string * object))
    : list (string * object) :=
  match l with
  | ko' :: l' =>
      match String.compare ko.1 ko'.1 with
      | Lt => ko :: l
      | Eq => ko :: l'
      | Gt => ko' :: place ko l'
      end
  | [] => [ko]
  end.

Definition in_key_order (l : list (string * object)) : list (string * object) :=
  fold_right place [] l.

(** [Object(key).load()]: the metadata request *)
Definition load (key : string) : M t Z :=
  do* request Head key in
  fun b => match find key (objects b) with
           | Some o => (Ret (last_modified o), b)
           | None => (Raise ClientError, b)
           end.

(** [Object(key).get()["Body"].read()] *)
Definition get (key : string) : M t bytes :=
  do* request Get key in
  fun b => match find key (objects b) with
           | Some o => (Ret (body o), b)
           | None => (Raise ClientError, b)
           end.

(** [upload_fileobj(fileobj, key)], stamped with the store's time [now] *)
Definition upload_fileobj (now : Z) (content : bytes) (key : string) : M t unit :=
  do* request Upload key in
  modify (fun b => mk (store key (Object now content) (objects b)) (answers b)).

(** [put_object(Key=key)]: an empty object *)
Definition put_object (now : Z) (key : string) : M t unit :=
  do* request PutObject key in
  modify (fun b => mk (store key (Object now []) (objects b)) (answers b)).

(** [Object(key).delete()]; deleting a missing key is not an error *)
Definition delete (key : string) : M t unit :=
  do* request Delete key in
  modify (fun b => mk (erase key (objects b)) (answers b)).

(** [objects.filter(Prefix=p, Marker=p).all()]: the keys that extend [p] *)
Definition filter_all (p : string) : M t (list (string * Z)) :=
  do* request List p in
  gets (fun b =>
    map (fun ko => (ko.1, last_modified ko.2))
      (filter (fun ko => Path.startswith p ko.1 = true ∧ ko.1 ≠ p)
         (in_key_order (objects b)))).

(** The common prefix of a key below [p] with delimiter "/" *)
Fixpoint upto_slash (l : list ascii) : option (list ascii) :=
  match l with
  | a :: l' => if Path.is_slash a then Some [a]
               else match upto_slash l' with Some r => Some (a :: r) | None => None end
  | [] => None
  end.

Fixpoint dedup_adjacent (l : list string) : list string :=
  match l with
  | a :: l' => match l' with
               | b :: _ => if String.eqb a b then dedup_adjacent l' else a :: dedup_adjacent l'
               | [] => [a]
               end
  | [] => []
  end.

(** [list_objects_v2(Prefix=p, Delimiter="/").get("CommonPrefixes", [])] *)
Definition common_prefixes (p : string) : M t (list string) :=
  do* request ListV2 p in
  gets (fun b =>
    dedup_adjacent
      (omap (fun ko : string * object =>
               if Path.startswith p ko.1 then
                 match upto_slash (Path.chars (Path.drop_prefix p ko.1)) with
                 | Some r => Some (p ++ Path.str r)
                 | None => None
                 end
               else None) (in_key_order (objects b)))).

(** [e.response['Error']['Code']] of the [ClientError] that
    [Object(key).load()] raises: the code [refusal] of the store's answer
    when it answers with an error, and "404" when the object is missing *)
Definition load_error_code (refusal : string) (key : string) (b : t) : string :=
  match answers b Head key with
  | error_response => refusal
  | _ => "404"
  end.

End S3.

(** [for x in l: body(x)] *)
Fixpoint for_each {S A} (l : list A) (body : A -> M S unit) : M S unit :=
  match l with
  | [] => ret tt
  | x :: l' => do* body x in for_each l' body
  end.

(** ** [S3FSProvider] *)

Module S3FSProvider.

(** What the provider asks of its collaborators, in the order asked *)
Inductive call : Type :=
| Remote (o : S3.op) (key : string)
| Invalidate (key : string).

Record world : Type := mk {
  _cache : S3CacheManager.t;
  _bucket : S3.t;
  clock : nat -> Z;          (* the successive readings of datetime.now() *)
  reads : nat;
  log : list call
}.

Definition cachem {A} (m : M S3CacheManager.t A) : M world A :=
  zoom _cache (fun c w => mk c (_bucket w) (clock w) (reads w) (log w)) m.
Definition local {A} (m : M Disk.t A) : M world A := cachem (S3CacheManager.os m).

Definition record (c : call) : M world unit :=
  modify (fun w => mk (_cache w) (_bucket w) (clock w) (reads w) (log w ++ [c])%list).

Definition s3 {A} (o : S3.op) (key : string) (m : M S3.t A) : M world A :=
  do* record (Remote o key) in
  zoom _bucket (fun b w => mk (_cache w) b (clock w) (reads w) (log w)) m.

(** [datetime.now()] *)
Definition now : M world Z := fun w =>
  (Ret (clock w (reads w)), mk (_cache w) (_bucket w) (clock w) (S (reads w)) (log w)).

Definition server_time : M world Z := gets (fun w => clock w (reads w)).

(** [s.split("/")] *)
Fixpoint split_chars (cur : list ascii) (l : list ascii) : list string :=
  match l with
  | a :: l' => if Path.is_slash a then Path.str (rev cur) :: split_chars [] l'
               else split_chars (a :: cur) l'
  | [] => [Path.str (rev cur)]
  end.
Definition split_slash (s : string) : list string := split_chars [] (Path.chars s).

Fixpoint join_slash (l : list string) : string :=
  match l with
  | [] => ""
  | [a] => a
  | a :: l' => a ++ "/" ++ join_slash l'
  end.

(** [os.path.relpath(path, base)] for a key [path] that extends [base],
    where [base] is empty or ends with "/" *)
Definition relpath (path base : string) : string :=
  match filter (fun c => c ≠ "") (split_slash (Path.drop_prefix base path)) with
  | [] => "."
  | l => join_slash l
  end.

(** [S3FSProvider._compute_relpath] *)
Definition _compute_relpath (path base : string) : string :=
  let out := relpath path base in
  if (Path.endswith_slash path && negb (Path.endswith_slash out)
      && negb (String.eqb out ""))%bool
  then out ++ "/" else out.

(** [S3FSProvider.__init__]: the prefix the instance keeps *)
Definition __init__ (prefix : string) : string :=
  let prefix := if Path.endswith_slash prefix then prefix else prefix ++ "/" in
  if String.eqb prefix "/" then "" else prefix.

(** The lazily loaded [obj.last_modified]; [meta] is what the object has
    loaded so far *)
Definition obj_last_modified (key : string) (meta : option Z) : M world (Z * option Z) :=
  match meta with
  | Some t => ret (t, meta)
  | None => let* t := s3 S3.Head key (S3.load key) in ret (t, Some t)
  end.

(** [open(p, 'rb')]: the descriptor is the path of the file opened *)
Definition open_rb (p : option string) : M world string :=
  match p with
  | None => raise TypeError
  | Some p => do* local (Disk.read p) in ret p
  end.

(** The prefixes [parts] of [_put_file], shortest first *)
Fixpoint cumulate (acc : string) (parts : list string) : list string :=
  match parts with
  | [] => []
  | a :: l => (acc ++ a ++ "/") :: cumulate (acc ++ a ++ "/") l
  end.

(** [all_folders.add(f)]; the set is kept in insertion order *)
Definition add (f : string) (all_folders : list string) : list string :=
  if bool_decide (f ∈ all_folders) then all_folders else (all_folders ++ [f])%list.

(** [while f != "": f = os.path.split(f)[0]; all_folders.add(f)] *)
Fixpoint add_parents (fuel : nat) (f : string) (all_folders : list string)
    : result (list string) :=
  if String.eqb f "" then Ret all_folders
  else match fuel with
       | O => OutOfFuel
       | S fuel' => let f := Path.split_head f in add_parents fuel' f (add f all_folders)
       end.

Section WithCheckpath.

(** [FileSystemProvider._checkpath] belongs to INGInious, not to this
    repository: it is a parameter, [false] when it raises. *)
Variable _checkpath : string -> bool.

Definition checkpath (path : string) : M world unit :=
  if _checkpath path then ret tt else raise NotFoundException.

(** [S3FSProvider.from_subfolder] *)
Definition from_subfolder (self subfolder : string) : M world string :=
  do* checkpath subfolder in ret (__init__ (self ++ subfolder)).

(** [S3FSProvider._put_file] *)
Definition _put_file (fullpath : string) (content : bytes) : M world unit :=
  try_except
    (let* t := server_time in
     do* s3 S3.Upload fullpath (S3.upload_fileobj t content fullpath) in
     let parts := cumulate "" (removelast (split_slash fullpath)) in
     for_each (rev parts) (fun key => s3 S3.PutObject key (S3.put_object t key)))
    is_ClientError (raise NotFoundException).

(** [S3FSProvider.put] *)
Definition put (self filepath : string) (content : bytes) : M world unit :=
  do* checkpath filepath in
  let fullpath := self ++ filepath in
  if Path.endswith_slash fullpath then raise NotFoundException
  else _put_file fullpath content.

(** [S3FSProvider.get_fd] *)
Definition get_fd (fuel : nat) (self filepath : string) (timestamp : option Z)
    : M world string :=
  do* checkpath filepath in
  let fullpath := self ++ filepath in
  if Path.endswith_slash fullpath then raise NotFoundException
  else
    try_except
      (let* needed := (match timestamp with
                       | Some t => ret (t, None)
                       | None => obj_last_modified fullpath None
                       end) in
       let needed_time := needed.1 in
       let* local_path := cachem (S3CacheManager.get fuel fullpath needed_time) in
       match local_path with
       | None =>
           let* fd := s3 S3.Get fullpath (S3.get fullpath) in
           let* lm := obj_last_modified fullpath needed.2 in
           do* cachem (S3CacheManager.put_file fuel fullpath lm.1 fd) in
           let* again := cachem (S3CacheManager.get fuel fullpath needed_time) in
           open_rb again
       | Some p => open_rb (Some p)
       end)
      is_ClientError (raise NotFoundException).

(** [S3FSProvider.get] *)
Definition get (fuel : nat) (self filepath : string) (timestamp : option Z)
    : M world bytes :=
  let* fd := get_fd fuel self filepath timestamp in
  local (Disk.read fd).

(** [S3FSProvider.list] *)
Definition list (self : string) (folders files recursive : bool)
    : M world (list string) :=
  let* objects :=
    (if recursive then
       let* objects := s3 S3.List self (S3.filter_all self) in
       ret (map (fun f => _compute_relpath f.1 self) objects)
     else
       let* objects := s3 S3.ListV2 self (S3.common_prefixes self) in
       ret (map (fun f => _compute_relpath f self) objects)) in
  ret (flat_map (fun f =>
         ((if (Path.endswith_slash f && folders)%bool then [f] else []) ++
          (if (negb (Path.endswith_slash f) && files)%bool then [f] else []))%list)
       objects).

(** [S3FSProvider.delete] *)
Fixpoint delete (fuel : nat) (self : string) (filepath : option string)
    : M world unit :=
  match fuel with
  | O => timeout
  | S fuel' =>
      let filepath := default "" filepath in
      do* checkpath filepath in
      let fullpath := self ++ filepath in
      do* (if Path.endswith_slash fullpath then
             let* subfolder := from_subfolder self filepath in
             let* l := list subfolder false true true in
             for_each l (fun f => delete fuel' subfolder (Some f))
           else ret tt) in
      try_except
        (do* record (Invalidate fullpath) in
         do* cachem (S3CacheManager.invalidate fuel fullpath) in
         s3 S3.Delete fullpath (S3.delete fullpath))
        is_ClientError (raise NotFoundException)
  end.

(** [S3FSProvider.get_last_modification_time] *)
Definition get_last_modification_time (self filepath : string) : M world Z :=
  do* checkpath filepath in
  let fullpath := self ++ filepath in
  if Path.endswith_slash fullpath then raise NotFoundException
  else try_except
         (let* lm := obj_last_modified fullpath None in ret lm.1)
         is_ClientError (raise NotFoundException).

(** [S3FSProvider._recursive_overwrite] *)
Fixpoint _recursive_overwrite (fuel : nat) (src dest : string) : M Disk.t unit :=
  match fuel with
  | O => timeout
  | S fuel' =>
      let* srcdir := gets (Disk.isdir src) in
      if srcdir : bool then
        let* destdir := gets (Disk.isdir dest) in
        do* (if destdir : bool then ret tt else Disk.makedirs dest) in
        let* files := Disk.listdir src in
        for_each files (fun f =>
          _recursive_overwrite fuel' (Path.join src f) (Path.join dest f))
      else Disk.copyfile src dest
  end.

(** [S3FSProvider.copy_from]; in [open(dest, 'wb').write(self.get(...))]
    the destination is opened before the object is read. [all_folders] is
    a set, which Python walks in an order of its own: here it is walked in
    the order of insertion. *)
Definition copy_from (fuel : nat) (self : string) (src : option string)
    (dest_disk : string) : M world unit :=
  let src := default "" src in
  do* checkpath src in
  let fullpath := self ++ src in
  if (negb (String.eqb fullpath "") && negb (Path.endswith_slash fullpath))%bool then
    do* local (Disk.open_wb dest_disk) in
    let* content := get fuel self src None in
    local (Disk.write_fd dest_disk content)
  else
    let* last_modified := now in
    do* try_except
          (let* _ := obj_last_modified fullpath None in ret tt)
          any_exn (ret tt) in
    let* folder := cachem (S3CacheManager.get fuel fullpath last_modified) in
    let* start_timestamp := now in
    match folder with
    | Some folder => local (_recursive_overwrite fuel folder dest_disk)
    | None =>
        let* objects := s3 S3.List fullpath (S3.filter_all fullpath) in
        let objects :=
          map (fun f : string * Z => (_compute_relpath f.1 fullpath, f.2))
              (filter (fun f : string * Z => Path.endswith_slash f.1 = false) objects) in
        let* all_folders :=
          (fix loop (objects : Datatypes.list (string * Z))
               (all_folders : Datatypes.list string)
             : M world (Datatypes.list string) :=
             match objects with
             | [] => ret all_folders
             | (f, tmsp) :: rest =>
                 let dest_file_path := Path.join dest_disk f in
                 do* local (Disk.makedirs (Path.split_head dest_file_path)) in
                 do* local (Disk.open_wb dest_file_path) in
                 let* content := get fuel self (src ++ f) (Some tmsp) in
                 do* local (Disk.write_fd dest_file_path content) in
                 let* all_folders := (fun w => (add_parents fuel f all_folders, w)) in
                 loop rest all_folders
             end) objects [""] in
        for_each all_folders (fun f =>
          let f := if String.eqb f "" then f else f ++ "/" in
          cachem (S3CacheManager.put_folder fuel (fullpath ++ f) start_timestamp))
    end.

(** The code of the error with which the store answers a request that it
    refuses *)
Variable refusal_code : string.

(** [S3FSProvider.exists]; the handler reads the code of the error that
    [load] has just raised *)
Definition exists_ (self : string) (path : option string) : M world bool :=
  let path := match path with
              | None => self
              | Some path => self ++ path
              end in
  try_except
    (do* s3 S3.Head path (S3.load path) in ret true)
    is_ClientError
    (let* code := gets (fun w => S3.load_error_code refusal_code path (_bucket w)) in
     if String.eqb code "404" then ret false else ret true).

(** [S3FSProvider.ensure_exists] *)
Definition ensure_exists (self : string) : M world unit :=
  let* present := exists_ self None in
  if present : bool then ret tt
  else let* t := server_time in
       s3 S3.PutObject self (S3.put_object t self).

(** [S3FSProvider.move] *)
Definition move (fuel : nat) (self src dest : string) : M world unit :=
  do* checkpath src in
  do* checkpath dest in
  let fullsrc := self ++ src in
  if (Path.endswith_slash fullsrc || String.eqb fullsrc "")%bool then
    let* src_folder := from_subfolder self src in
    let* dest_folder := from_subfolder self dest in
    let* listed := from_subfolder self src in
    let* files := list listed true true true in
    do* for_each files (fun f =>
          if negb (Path.endswith_slash f) then
            let* content := get fuel src_folder f None in
            put dest_folder f content
          else ret tt) in
    delete fuel src_folder None
  else
    let* content := get fuel self src None in
    do* put self dest content in
    delete fuel self (Some src).

(** [S3FSProvider.copy_to]; the local disk is the one of the cache manager *)
Fixpoint copy_to (fuel : nat) (self src_disk : string) (dest : option string)
    : M world unit :=
  match fuel with
  | O => timeout
  | S fuel' =>
      let dest := default "" dest in
      let* srcdir := local (gets (Disk.isdir src_disk)) in
      if srcdir : bool then
        let dest := if (negb (String.eqb dest "") && negb (Path.endswith_slash dest))%bool
                    then dest ++ "/" else dest in
        let* files := local (Disk.listdir src_disk) in
        for_each files (fun f =>
          copy_to fuel' self (Path.join src_disk f) (Some (dest ++ f)))
      else if (String.eqb dest "" || Path.endswith_slash dest)%bool
           then raise NotFoundException
           else let* fileobj := local (Disk.read src_disk) in
                _put_file (self ++ dest) fileobj
  end.

(** The variables of a call of [distribute] that the nested function
    [generator] reads: it reads them when its body runs, not when it is
    defined *)
Record frame : Type := Frame { fullpath : string; f : string }.

(** The body of [generator], run in the frame [fr] *)
Definition generator (fr : frame) : M world bytes :=
  let complete_filepath := fullpath fr ++ f fr in
  s3 S3.Get complete_filepath (S3.get complete_filepath).

(** [zipstream.ZipFile]: [write_iter] keeps the name and the iterable, here
    a generator of the frame [closure] that has not started yet *)
Record ZipFile : Type := Zip { paths_to_write : Datatypes.list string; closure : frame }.

(** The tuples [distribute] returns *)
Inductive distributed : Type :=
| invalid
| local_zip (mime : string) (iterator : ZipFile)
| url (key : string).

(** [for f in filelist: ... zip.write_iter(f, generator())]: each turn
    assigns the variable [f] of the frame and appends one entry *)
Definition write_all (fullpath : string) (filelist : Datatypes.list string) : ZipFile :=
  fold_left (fun zip f => Zip (paths_to_write zip ++ [f])%list (Frame fullpath f))
            filelist (Zip [] (Frame fullpath "")).

(** [S3FSProvider.distribute] *)
Definition distribute (self filepath : string) (allow_folders : bool)
    : M world distributed :=
  do* checkpath filepath in
  let fullpath := self ++ filepath in
  if Path.endswith_slash fullpath then
    if negb allow_folders then ret invalid
    else
      let* subfolder := from_subfolder self filepath in
      let* filelist := list subfolder false true true in
      ret (local_zip "application/zip" (write_all fullpath filelist))
  else ret (url fullpath).

(** Reading the iterator that [distribute] returned: the generator of
    each entry runs then, in the frame as the loop left it *)
Fixpoint read_entries (fr : frame) (names : Datatypes.list string)
    : M world (Datatypes.list (string * bytes)) :=
  match names with
  | [] => ret []
  | name :: names' =>
      let* content := generator fr in
      let* rest := read_entries fr names' in
      ret ((name, content) :: rest)
  end.

Definition read_zip (zip : ZipFile) : M world (Datatypes.list (string * bytes)) :=
  read_entries (closure zip) (paths_to_write zip).

End WithCheckpath.

End S3FSProvider.


(** * Notions used to state the properties *)

(** The keys the walk of [up_parents] looks up, the nearest directory first *)
Fixpoint parents (fuel : nat) (cur_path : string) : list string :=
  if String.eqb cur_path "" then []
  else match fuel with
       | O => []
       | S fuel' =>
           let cur_path := Path.split_head cur_path in
           (cur_path ++ "/") :: parents fuel' cur_path
       end.

Definition ancestors (path : string) : list string :=
  let cur_path := S3CacheManager.CustomLRUCache.strip_slash path in
  parents (String.length cur_path) cur_path.

(** What [LRUCache.__update] does to the order *)
Definition touch_order (key : string) (o : list string) : list string :=
  (LRU.remove key o ++ [key])%list.

Definition touch (c : LRU.t) (key : string) : LRU.t :=
  if LRU.contains key c then LRU.set_order (touch_order key (LRU.order c)) c else c.

(** The ancestors of [path] that have an entry in the cache *)
Definition present_ancestors (c : LRU.t) (path : string) : list string :=
  filter (fun k => LRU.contains k c = true) (ancestors path).

(** A key on which the walk to the root ends *)
Definition relative (path : string) : Prop :=
  Path.startswith_slash (S3CacheManager.CustomLRUCache.strip_slash path) = false.

(** The entries [path] and its cached ancestors, nearest first, moved to
    the most recently used end of the order *)
Definition touched (path : string) (c : LRU.t) : LRU.t :=
  let ks := path :: present_ancestors c path in
  LRU.set_order (filter (fun k => k ∉ ks) (LRU.order c) ++ ks)%list c.

Definition with_cache (c : LRU.t) (s : S3CacheManager.t) : S3CacheManager.t :=
  S3CacheManager.mk c (S3CacheManager.disk s) (S3CacheManager._cache_path s).

(** The calls of the cache manager's interface *)
Inductive op : Type :=
| Get (path : string) (cur_timestamp : Z)
| PutFile (path : string) (cur_timestamp : Z) (content : bytes)
| PutFolder (path : string) (cur_timestamp : Z)
| Invalidate (path : string).

Definition is_insertion (o : op) : bool :=
  match o with PutFile _ _ _ | PutFolder _ _ => true | _ => false end.

Definition op_path (o : op) : string :=
  match o with
  | Get path _ | PutFile path _ _ | PutFolder path _ | Invalidate path => path
  end.

(** The state a call leaves, whether it returns or raises *)
Definition run_op (fuel : nat) (o : op) (s : S3CacheManager.t) : S3CacheManager.t :=
  match o with
  | Get path ts => (S3CacheManager.get fuel path ts s).2
  | PutFile path ts content => (S3CacheManager.put_file fuel path ts content s).2
  | PutFolder path ts => (S3CacheManager.put_folder fuel path ts s).2
  | Invalidate path => (S3CacheManager.invalidate fuel path s).2
  end.

Definition run_ops (fuel : nat) (l : list op) (s : S3CacheManager.t) : S3CacheManager.t :=
  fold_left (fun s o => run_op fuel o s) l s.

Definition is_Ret {A} (r : result A) : bool :=
  match r with Ret _ => true | _ => false end.

(** Whether a call returns *)
Definition returns (fuel : nat) (o : op) (s : S3CacheManager.t) : bool :=
  match o with
  | Get path ts => is_Ret (S3CacheManager.get fuel path ts s).1
  | PutFile path ts content => is_Ret (S3CacheManager.put_file fuel path ts content s).1
  | PutFolder path ts => is_Ret (S3CacheManager.put_folder fuel path ts s).1
  | Invalidate path => is_Ret (S3CacheManager.invalidate fuel path s).1
  end.


(** The key and the tuple that an insertion gives to the cache, in a cache
    manager of directory [cache_path]: the timestamp, the location in the
    cache directory and the number of bytes of the content for [put_file];
    the same with 0 for [put_folder] *)
Definition inserts (cache_path : string) (o : op) : option (string * entry) :=
  match o with
  | PutFile path ts content =>
      Some (path, Entry ts (Path.join cache_path path) (Z.of_nat (length content)))
  | PutFolder path ts => Some (path, Entry ts (Path.join cache_path path) 0)
  | _ => None
  end.

(** [S3CacheManager("cache", max_size)] on an empty disk *)
Definition fresh (max_size : Z) : S3CacheManager.t :=
  S3CacheManager.mk (S3CacheManager.CustomLRUCache.__init__ max_size)
                    (Disk.mk ∅ {["cache"]}) "cache".

Definition zeros (n : nat) : bytes := repeat Byte.x00 n.

Definition cached (key : string) (s : S3CacheManager.t) : bool :=
  LRU.contains key (S3CacheManager._cache_data s).

(** A property of the state that a computation keeps whatever its outcome *)
Definition preserves {S A} (I : S -> Prop) (m : M S A) : Prop :=
  forall s, I s -> I (m s).2.

(** ** Concrete states *)

(** The file a/b/c.txt and the markers a/b/ and a/ *)
Definition nested : S3CacheManager.t :=
  run_ops 20 [PutFile "a/b/c.txt" 5 (zeros 10); PutFolder "a/b/" 7; PutFolder "a/" 7]
    (fresh 100).

(** The same, and a file z.txt stored after them *)
Definition nested_then_z : S3CacheManager.t :=
  run_op 20 (PutFile "z.txt" 6 (zeros 10)) nested.

(** Entries under keys that start with "/" *)
Definition rooted : LRU.t :=
  LRU.mk (list_to_map [("/a/", Entry 7 "/a/" 0); ("/a/b/", Entry 7 "/a/b/" 0);
                       ("/a/b/c.txt", Entry 5 "/a/b/c.txt" 10)])
         (list_to_map [("/a/", 0); ("/a/b/", 0); ("/a/b/c.txt", 10)])
         10 100 ["/a/b/c.txt"; "/a/b/"; "/a/"].

(** As [nested], with a second file a/b/d.txt in the directory *)
Definition nested_with_sibling : S3CacheManager.t :=
  run_ops 20 [PutFile "a/b/c.txt" 5 (zeros 10); PutFile "a/b/d.txt" 5 (zeros 10);
              PutFolder "a/b/" 7; PutFolder "a/" 7] (fresh 100).

(** The marker a/ over one cached file a/x.txt *)
Definition marker_over_file : S3CacheManager.t :=
  run_ops 20 [PutFile "a/x.txt" 5 (zeros 10); PutFolder "a/" 7] (fresh 100).

(** The marker a/ over an empty directory *)
Definition marker_alone : S3CacheManager.t :=
  run_ops 20 [PutFolder "a/" 7] (fresh 100).

(** A bucket with a directory d/ of two files, one in a subdirectory *)
Definition two_files : S3.t :=
  S3.mk [("d/", S3.Object 1 []); ("d/f.txt", S3.Object 3 (zeros 4));
         ("d/s/g.txt", S3.Object 4 (zeros 5))] (fun _ _ => S3.served).

(** A provider's world at start, with the clock [clock] *)
Definition start (clock : nat -> Z) (bucket : S3.t) (max_size : Z) : S3FSProvider.world :=
  S3FSProvider.mk (fresh max_size) bucket clock 0 [].

(** A clock that advances by one at each reading, and one that stands still *)
Definition ticking (n : nat) : Z := 10 + Z.of_nat n.
Definition standing (n : nat) : Z := 10.

(** The calls to the bucket that list objects or get one *)
Definition is_list_or_get (c : S3FSProvider.call) : bool :=
  match c with
  | S3FSProvider.Remote S3.List _ | S3FSProvider.Remote S3.ListV2 _
  | S3FSProvider.Remote S3.Get _ => true
  | _ => false
  end.

Definition lists_or_gets (w : S3FSProvider.world) : list S3FSProvider.call :=
  List.filter is_list_or_get (S3FSProvider.log w).

(** Forgets the calls recorded so far *)
Definition clear_log (w : S3FSProvider.world) : S3FSProvider.world :=
  S3FSProvider.mk (S3FSProvider._cache w) (S3FSProvider._bucket w) (S3FSProvider.clock w)
              (S3FSProvider.reads w) [].

(** A path check for the concrete runs: it accepts the paths that do not
    start with "/" *)
Definition no_leading_slash (path : string) : bool :=
  negb (Path.startswith_slash path).

(** The world after a first [copy_from] of d/ into out, its log cleared *)
Definition after_first_copy (clock : nat -> Z) : S3FSProvider.world :=
  clear_log (S3FSProvider.copy_from no_leading_slash 20 "" (Some "d/") "out"
               (start clock two_files 100)).2.

Definition entry_of (key : string) (s : S3CacheManager.t) : option entry :=
  LRU.data (S3CacheManager._cache_data s) !! key.

(** A computation that returns or raises an exception of [sel], and does
    not run out of fuel *)
Definition raises_only {S A} (sel : exn -> bool) (m : M S A) : Prop :=
  forall s, match (m s).1 with
            | Ret _ => True
            | Raise e => sel e = true
            | OutOfFuel => False
            end.

Definition is_NotFound (e : exn) : bool :=
  match e with NotFoundException => true | _ => false end.







Definition is_invalidate (c : S3FSProvider.call) : bool :=
  match c with S3FSProvider.Invalidate _ => true | _ => false end.

Definition is_get (c : S3FSProvider.call) : bool :=
  match c with S3FSProvider.Remote S3.Get _ => true | _ => false end.

(** The world after a first read of d/f.txt, its log cleared *)
Definition cached_file : S3FSProvider.world :=
  clear_log (S3FSProvider.get_fd no_leading_slash 20 "" "d/f.txt" None
               (start ticking two_files 100)).2.

(** The bucket [two_files] when the store refuses the calls [o] *)
Definition refusing (o : S3.op) : S3.t :=
  S3.mk (S3.objects two_files)
        (fun o' _ => match o, o' with
                     | S3.Delete, S3.Delete | S3.List, S3.List => S3.error_response
                     | _, _ => S3.served
                     end).

Definition with_bucket (b : S3.t) (w : S3FSProvider.world) : S3FSProvider.world :=
  S3FSProvider.mk (S3FSProvider._cache w) b (S3FSProvider.clock w) (S3FSProvider.reads w)
              (S3FSProvider.log w).

(** A computation on the cache that changes nothing but the order *)
Definition order_only {A} (m : M LRU.t A) : Prop :=
  forall c, exists o, (m c).2 = LRU.set_order o c.

Definition sum_weights (m : gmap string entry) : Z :=
  map_fold (fun (_ : string) (e : entry) (acc : Z) => weight e + acc) 0 m.

Definition sum_file_weights (m : gmap string entry) : Z :=
  map_fold (fun (k : string) (e : entry) (acc : Z) =>
              if Path.endswith_slash k then acc else weight e + acc) 0 m.

(** The bookkeeping of [Cache] agrees with the entries, no weight is
    negative, a marker weighs nothing, and the sum is within [max_size] *)
Definition bounded (max_size : Z) (c : LRU.t) : Prop :=
  LRU.sizes c = weight <$> LRU.data c /\
  LRU.currsize c = sum_weights (LRU.data c) /\
  (forall k e, LRU.data c !! k = Some e ->
     0 <= weight e /\ (Path.endswith_slash k = true -> weight e = 0)) /\
  LRU.currsize c <= max_size /\
  LRU.maxsize c = max_size.

(** The last step of [Cache.__setitem__] *)
Definition stored (key : string) (value : entry) (c : LRU.t) : LRU.t :=
  LRU.mk (<[key := value]> (LRU.data c)) (<[key := weight value]> (LRU.sizes c))
         (LRU.currsize c + match LRU.data c !! key with
                           | Some old => weight value - weight old
                           | None => weight value
                           end)
         (LRU.maxsize c) (LRU.order c).

(** The entry of [marker] is in the cache and no entry has the key of
    [marker] followed by one more "/" *)
Definition marker_kept (marker : string) (s : S3CacheManager.t) : Prop :=
  cached marker s = true /\ cached (marker ++ "/") s = false.


(** A state that a computation reaches only by returning has the property *)
Definition ensures {S A} (Q : S -> Prop) (m : M S A) : Prop :=
  forall s a s', m s = (Ret a, s') -> Q s'.


Definition set_cache (c : S3CacheManager.t) (w : S3FSProvider.world) : S3FSProvider.world :=
  S3FSProvider.mk c (S3FSProvider._bucket w) (S3FSProvider.clock w) (S3FSProvider.reads w)
              (S3FSProvider.log w).

Definition gets_of (w : S3FSProvider.world) : list S3FSProvider.call :=
  List.filter is_get (S3FSProvider.log w).







(** The state in which the insertion of /a/b/c.txt, which does not return,
    leaves a cache of 100 bytes: the entry is stored before the walk to the
    root begins *)
Definition interrupted : S3CacheManager.t :=
  run_op 20 (PutFile "/a/b/c.txt" 5 (zeros 10)) (fresh 100).


(** The cache manager right after [S3CacheManager.__init__] *)
Definition empty_cache (max_size : Z) (d : Disk.t) (cache_path : string)
    : S3CacheManager.t :=
  S3CacheManager.mk (S3CacheManager.CustomLRUCache.__init__ max_size) d cache_path.

(** * Notions used for the rest of the provider and of the cache manager *)

(** The world after one more call has been recorded *)
Definition logged (c : S3FSProvider.call) (w : S3FSProvider.world) : S3FSProvider.world :=
  S3FSProvider.mk (S3FSProvider._cache w) (S3FSProvider._bucket w) (S3FSProvider.clock w)
    (S3FSProvider.reads w) (S3FSProvider.log w ++ [c]).

(** The objects of the bucket of a world *)
Definition objects_of (w : S3FSProvider.world) : list (string * S3.object) :=
  S3.objects (S3FSProvider._bucket w).

(** The store's time in a world *)
Definition time_of (w : S3FSProvider.world) : Z :=
  S3FSProvider.clock w (S3FSProvider.reads w).

(** A store that serves every request *)
Definition obliging (b : S3.t) : Prop := forall o key, S3.answers b o key = S3.served.

(** The keys of the folders above a key, the nearest to the root first:
    the [parts] of [_put_file] *)
Definition folder_keys (fullpath : string) : list string :=
  S3FSProvider.cumulate "" (removelast (S3FSProvider.split_slash fullpath)).

(** The objects after [put_object] at time [t] on each key of [keys] *)
Definition with_folders (t : Z) (keys : list string) (l : list (string * S3.object))
    : list (string * S3.object) :=
  fold_left (fun l key => S3.store key (S3.Object t []) l) keys l.

(** The object under [key] is [v] *)
Definition holds (key : string) (v : option S3.object) (w : S3FSProvider.world) : Prop :=
  S3.find key (S3.objects (S3FSProvider._bucket w)) = v.

(** The cache manager is [C] and every key of [K] has an object *)
Definition kept (C : S3CacheManager.t) (K : string -> Prop) (w : S3FSProvider.world) : Prop :=
  S3FSProvider._cache w = C /\
  forall key, K key -> is_Some (S3.find key (S3.objects (S3FSProvider._bucket w))).

(** A name that [list] may return under the flags [folders] and [files] *)
Definition allowed (folders files : bool) (name : string) : Prop :=
  if Path.endswith_slash name then folders = true else files = true.

(** A name as [list] gives it: components separated by one "/", none of
    them empty, "." or "..", with at most one "/" at the end *)
Definition clean (name : string) : Prop :=
  name <> "" /\
  Forall (fun c => c <> "" /\ c <> "." /\ c <> "..")
    (S3FSProvider.split_slash (S3CacheManager.CustomLRUCache.strip_slash name)).

(** The keys of the bucket that extend [prefix], as the store lists them *)
Definition keys_under (prefix : string) (l : list (string * S3.object)) : list string :=
  map fst (filter (fun ko : string * S3.object =>
                     Path.startswith prefix ko.1 = true /\ ko.1 <> prefix)
             (S3.in_key_order l)).

(** The key of the first object is before the key of the second *)
Definition key_lt (a b : string * S3.object) : Prop := String.compare a.1 b.1 = Lt.

(** The cache once the entry of [key], of size [size], has been looked up
    and deleted *)
Definition removed (key : string) (size : Z) (c : LRU.t) : LRU.t :=
  LRU.mk (delete key (LRU.data c)) (delete key (LRU.sizes c)) (LRU.currsize c - size)
         (LRU.maxsize c) (LRU.remove key (LRU.order (touched key c))).

(** The cache holds no marker of the directory of [path] *)
Definition parent_uncached (path : string) (c : LRU.t) : Prop :=
  Path.split_head path = "" \/ LRU.contains (Path.split_head path ++ "/") c = false.

(** Nothing on the way from [path] to the root is in the cache *)
Definition nothing_cached (path : string) (s : S3CacheManager.t) : Prop :=
  forall key, key ∈ path :: ancestors path -> cached key s = false.

(** The normalized path [p] is the directory [dir] or lies under it *)
Definition below (dir p : string) : bool :=
  (String.eqb p (Disk.norm dir) || Path.startswith (Disk.norm dir ++ "/") p)%bool.

(** A path that names its file: no component is "." or ".." *)
Definition plain (p : string) : Prop :=
  Forall (fun c => c <> "." /\ c <> "..") (S3FSProvider.split_slash p).

(** The cache manager [s] on the disk [d] *)
Definition on_disk (d : Disk.t) (s : S3CacheManager.t) : S3CacheManager.t :=
  S3CacheManager.mk (S3CacheManager._cache_data s) d (S3CacheManager._cache_path s).

(** The names that [list] keeps under the flags *)
Definition selected (folders files : bool) (names : list string) : list string :=
  flat_map (fun f =>
    ((if (Path.endswith_slash f && folders)%bool then [f] else []) ++
     (if (negb (Path.endswith_slash f) && files)%bool then [f] else []))%list) names.

(** The cache holds no entry *)
Definition uncached (w : S3FSProvider.world) : Prop :=
  forall key, cached key (S3FSProvider._cache w) = false.

(** The objects once the keys of [keys] have been deleted *)
Definition without (keys : list string) (l : list (string * S3.object))
    : list (string * S3.object) :=
  fold_left (fun l key => S3.erase key l) keys l.

(** The key is the folder [fullpath] or a file below it *)
Definition deleted_with (fullpath key : string) : bool :=
  (String.eqb key fullpath
   || (Path.startswith fullpath key && negb (Path.endswith_slash key)))%bool.

(** ** More concrete states *)

(** A disk with a file left in the cache directory and a file elsewhere *)
Definition stale_disk : Disk.t :=
  Disk.mk (list_to_map [("cache/old.txt", zeros 2); ("other.txt", zeros 1)]) {["cache"]}.

(** A cache of 100 bytes that holds the file a of 60 bytes *)
Definition one_file : S3CacheManager.t :=
  run_op 20 (PutFile "a" 1 (zeros 60)) (fresh 100).

(** A cache of 100 bytes that holds the file a/b.txt of 60 bytes, and no
    marker *)
Definition one_nested_file : S3CacheManager.t :=
  run_op 20 (PutFile "a/b.txt" 1 (zeros 60)) (fresh 100).

(** An empty bucket in a store that refuses nothing *)
Definition empty_bucket : S3.t := S3.mk [] (fun _ _ => S3.served).

(** A provider's world over the empty bucket, and the same after the file
    f.txt has been written and read once *)
Definition blank : S3FSProvider.world := start ticking empty_bucket 100.

Definition read_once : S3FSProvider.world :=
  (S3FSProvider.get no_leading_slash 20 "" "f.txt" None
     (S3FSProvider.put no_leading_slash "" "f.txt" (zeros 3) blank).2).2.

(** The world [blank] after [put] of the file p/d/g.txt *)
Definition one_object : S3FSProvider.world :=
  (S3FSProvider.put no_leading_slash "" "p/d/g.txt" (zeros 5) blank).2.

(** A world whose local disk holds the file in/a.txt besides the cache
    directory *)
Definition with_local_file : S3FSProvider.world :=
  set_cache
    (on_disk (Disk.mk {["in/a.txt" := zeros 3]} (list_to_set ["cache"; "in"])) (fresh 100))
    blank.

(** A bucket whose only key starts with "/" *)
Definition rooted_bucket : S3.t :=
  S3.mk [("/data/f.txt", S3.Object 3 (zeros 4))] (fun _ _ => S3.served).

(** The world [one_object] with the directory out beside the cache
    directory on the local disk *)
Definition with_out_dir : S3FSProvider.world :=
  set_cache (on_disk (Disk.mk ∅ (list_to_set ["cache"; "out"])) (fresh 100)) one_object.

(** * Facts about paths *)

Section PathFacts.

Import Path.

Lemma chars_str (l : list ascii) : chars (str l) = l.
Proof. apply list_ascii_of_string_of_list_ascii. Qed.

Lemma str_chars (s : string) : str (chars s) = s.
Proof. apply string_of_list_ascii_of_string. Qed.

Lemma length_chars (s : string) : length (chars s) = String.length s.
Proof. induction s as [|a s IH]; simpl; [reflexivity | now rewrite IH]. Qed.

Lemma chars_empty (s : string) : chars s = [] -> s = "".
Proof. destruct s; [reflexivity | discriminate]. Qed.

Lemma startswith_slash_chars (s : string) :
  startswith_slash s = match chars s with a :: _ => is_slash a | [] => false end.
Proof. destruct s; reflexivity. Qed.

Lemma chars_app (s1 s2 : string) : chars (s1 ++ s2) = (chars s1 ++ chars s2)%list.
Proof. induction s1 as [|a s1 IH]; simpl; [reflexivity | now rewrite IH]. Qed.

Lemma drop_tail_suffix (l : list ascii) :
  exists pre, l = (pre ++ drop_tail l)%list.
Proof.
  induction l as [|a l [pre IH]]; simpl.
  - now exists [].
  - destruct (is_slash a).
    + now exists [].
    + exists (a :: pre). simpl. now rewrite <- IH.
Qed.

Lemma lstrip_slash_suffix (l : list ascii) :
  exists pre, l = (pre ++ lstrip_slash l)%list.
Proof.
  induction l as [|a l [pre IH]]; simpl.
  - now exists [].
  - destruct (is_slash a).
    + exists (a :: pre). simpl. now rewrite <- IH.
    + now exists [].
Qed.

Lemma lstrip_slash_length (l : list ascii) :
  (length (lstrip_slash l) <= length l)%nat.
Proof.
  destruct (lstrip_slash_suffix l) as [pre E].
  rewrite E at 2. rewrite length_app. lia.
Qed.

Lemma drop_tail_length (l : list ascii) :
  (length (drop_tail l) <= length l)%nat.
Proof.
  destruct (drop_tail_suffix l) as [pre E].
  rewrite E at 2. rewrite length_app. lia.
Qed.

Lemma lstrip_drop_tail_lt (l : list ascii) :
  l <> [] -> (length (lstrip_slash (drop_tail l)) < length l)%nat.
Proof.
  induction l as [|a l IH]; [congruence|]. intros _. simpl.
  destruct (is_slash a) eqn:Ea; simpl.
  - rewrite Ea. pose proof (lstrip_slash_length l). lia.
  - pose proof (lstrip_slash_length (drop_tail l)).
    pose proof (drop_tail_length l). lia.
Qed.

Lemma forallb_last (l : list ascii) (x : ascii) :
  l <> [] -> forallb is_slash l = true -> is_slash (List.last l x) = true.
Proof.
  induction l as [|a l IH]; [congruence|]. intros _ H.
  simpl in H. apply andb_true_iff in H as [Ha Hl].
  destruct l as [|b l]; [exact Ha|].
  change (List.last (a :: b :: l) x) with (List.last (b :: l) x).
  apply IH; [discriminate | exact Hl].
Qed.

Lemma drop_tail_slashes_nil (l : list ascii) (x : ascii) :
  l <> [] -> is_slash (List.last l x) = false ->
  forallb is_slash (drop_tail l) = true -> drop_tail l = [].
Proof.
  induction l as [|a l IH]; [congruence|]. intros _ Hlast Hall.
  simpl in *. destruct (is_slash a) eqn:Ea.
  - pose proof (forallb_last (a :: l) x ltac:(discriminate) Hall) as H.
    simpl in H. simpl in Hlast. congruence.
  - destruct l as [|b l]; [reflexivity|].
    apply IH; [discriminate | exact Hlast | exact Hall].
Qed.

(** On a path that does not start with "/", [os.path.split] strictly
    shortens the head. *)
Lemma split_head_shorter (p : string) :
  startswith_slash p = false -> p <> "" ->
  (String.length (split_head p) < String.length p)%nat.
Proof.
  intros Hrel Hne. rewrite <- !length_chars. unfold split_head.
  rewrite startswith_slash_chars in Hrel.
  destruct (chars p) as [|a l] eqn:El.
  { apply chars_empty in El. congruence. }
  destruct (forallb is_slash (drop_tail (rev (a :: l)))) eqn:Eall.
  - rewrite (drop_tail_slashes_nil (rev (a :: l)) a); simpl; try lia.
    + intros H. apply (f_equal (@length _)) in H.
      rewrite length_app in H. simpl in H. lia.
    + rewrite List.last_last. exact Hrel.
    + exact Eall.
  - rewrite chars_str, length_rev.
    pose proof (lstrip_drop_tail_lt (rev (a :: l))) as H.
    rewrite length_rev in H. apply H.
    intros H'. apply (f_equal (@length _)) in H'.
    rewrite length_rev in H'. discriminate.
Qed.

(** The head returned by [os.path.split] is a prefix of the path. *)
Lemma split_head_prefix (p : string) :
  exists rest, chars p = (chars (split_head p) ++ rest)%list.
Proof.
  unfold split_head.
  destruct (drop_tail_suffix (rev (chars p))) as [pre E].
  remember (drop_tail (rev (chars p))) as d eqn:Ed. clear Ed.
  apply (f_equal (@rev _)) in E.
  rewrite rev_involutive, rev_app_distr in E.
  destruct (forallb is_slash d).
  - exists (rev pre). now rewrite chars_str.
  - destruct (lstrip_slash_suffix d) as [pre' E'].
    exists (rev pre' ++ rev pre)%list. rewrite chars_str, E.
    rewrite E' at 1. now rewrite rev_app_distr, <- app_assoc.
Qed.

Lemma split_head_relative (p : string) :
  startswith_slash p = false -> startswith_slash (split_head p) = false.
Proof.
  intros H. rewrite startswith_slash_chars in *.
  destruct (split_head_prefix p) as [rest E]. rewrite E in H.
  destruct (chars (split_head p)); [reflexivity | exact H].
Qed.

Lemma drop_tail_nonempty (l : list ascii) :
  existsb is_slash l = true -> drop_tail l <> [].
Proof.
  induction l as [|a l IH]; simpl; [discriminate|].
  destruct (is_slash a); [discriminate | exact IH].
Qed.

Lemma lstrip_slash_nonempty (l : list ascii) :
  forallb is_slash l = false -> lstrip_slash l <> [].
Proof.
  induction l as [|a l IH]; simpl; [discriminate|].
  destruct (is_slash a); [exact IH | discriminate].
Qed.

(** On a path that starts with "/", the head is never empty and starts
    with "/" again: the walk to the root has no end. *)
Lemma split_head_absolute (p : string) :
  startswith_slash p = true ->
  startswith_slash (split_head p) = true.
Proof.
  intros H.
  assert (Hne : chars (split_head p) <> []).
  { unfold split_head. rewrite startswith_slash_chars in H.
    destruct (chars p) as [|a l] eqn:El; [discriminate|].
    assert (Hd : drop_tail (rev (a :: l)) <> []).
    { apply drop_tail_nonempty. simpl. rewrite existsb_app. simpl.
      rewrite H. now rewrite orb_true_r. }
    destruct (forallb is_slash (drop_tail (rev (a :: l)))) eqn:Eall;
      rewrite chars_str; intros Hr;
      apply (f_equal (@length _)) in Hr; rewrite length_rev in Hr.
    - destruct (drop_tail (rev (a :: l))); [congruence | discriminate].
    - apply lstrip_slash_nonempty in Eall.
      destruct (lstrip_slash (drop_tail (rev (a :: l)))); [congruence | discriminate]. }
  rewrite startswith_slash_chars in *.
  destruct (split_head_prefix p) as [rest E]. rewrite E in H.
  destruct (chars (split_head p)); [congruence | exact H].
Qed.

End PathFacts.

(** * The walk to the root *)

Section Touch.
Import Path S3CacheManager S3CacheManager.CustomLRUCache.

Lemma contains_touch k c j : LRU.contains k (touch c j) = LRU.contains k c.
Proof. unfold touch. now destruct (LRU.contains j c). Qed.

Lemma data_touch c j : LRU.data (touch c j) = LRU.data c.
Proof. unfold touch. now destruct (LRU.contains j c). Qed.

(** With fuel for every component, the walk on a path that does not
    start with "/" ends, having touched the ancestors present. *)
Lemma up_parents_relative (fuel : nat) (cur : string) (c : LRU.t) :
  startswith_slash cur = false -> (String.length cur <= fuel)%nat ->
  up_parents fuel cur c = (Ret tt, fold_left touch (parents fuel cur) c).
Proof.
  revert cur c. induction fuel as [|fuel IH]; intros cur c Hrel Hlen.
  - destruct cur; [reflexivity | simpl in Hlen; lia].
  - simpl. destruct (String.eqb cur "") eqn:E; [reflexivity|].
    apply String.eqb_neq in E.
    pose proof (split_head_shorter cur Hrel E) as Hlt.
    assert (Hk : forall c', up_parents fuel (split_head cur) c'
              = (Ret tt, fold_left touch (parents fuel (split_head cur)) c')).
    { intros c'. apply IH; [apply split_head_relative; assumption | lia]. }
    unfold bind, gets. cbn [fold_left].
    destruct (LRU.contains (split_head cur ++ "/") c) eqn:Ec; simpl;
      rewrite Hk; do 2 f_equal; unfold touch; rewrite Ec; reflexivity.
Qed.

(** On a path that starts with "/" the walk exhausts any fuel. *)
Lemma up_parents_absolute (fuel : nat) (cur : string) (c : LRU.t) :
  startswith_slash cur = true -> (up_parents fuel cur c).1 = OutOfFuel.
Proof.
  revert cur c. induction fuel as [|fuel IH]; intros cur c Habs.
  - destruct cur; [discriminate | reflexivity].
  - simpl. destruct (String.eqb cur "") eqn:E.
    { apply String.eqb_eq in E. subst cur. discriminate. }
    unfold bind, gets.
    destruct (LRU.contains (split_head cur ++ "/") c); simpl;
      apply IH; apply split_head_absolute; assumption.
Qed.

Lemma parents_more_fuel (n m : nat) (cur : string) :
  startswith_slash cur = false -> (String.length cur <= n)%nat ->
  (String.length cur <= m)%nat -> parents n cur = parents m cur.
Proof.
  revert m cur. induction n as [|n IH]; intros m cur Hrel Hn Hm.
  - destruct cur; [destruct m; reflexivity | simpl in Hn; lia].
  - destruct m as [|m]; [destruct cur; [reflexivity | simpl in Hm; lia]|].
    simpl. destruct (String.eqb cur "") eqn:E; [reflexivity|].
    apply String.eqb_neq in E.
    pose proof (split_head_shorter cur Hrel E) as Hlt.
    f_equal. apply IH; try (apply split_head_relative; assumption); lia.
Qed.

End Touch.

(** * The order after a touch *)

Section Order.
Import Path S3CacheManager S3CacheManager.CustomLRUCache.

Lemma order_fold_touch (ks : list string) (c : LRU.t) :
  LRU.order (fold_left touch ks c)
  = fold_left (fun o k => touch_order k o)
      (filter (fun k => LRU.contains k c = true) ks) (LRU.order c).
Proof.
  revert c. induction ks as [|k ks IH]; intros c; [reflexivity|].
  cbn [fold_left]. rewrite IH, filter_cons.
  rewrite (list_filter_iff (fun k0 => LRU.contains k0 (touch c k) = true)
             (fun k0 => LRU.contains k0 c = true))
    by (intros x; now rewrite contains_touch).
  unfold touch. destruct (decide (LRU.contains k c = true)) as [E|E].
  - rewrite E. reflexivity.
  - apply not_true_is_false in E. rewrite E. reflexivity.
Qed.

Lemma fold_touch_order (ks o : list string) :
  NoDup ks ->
  fold_left (fun o k => touch_order k o) ks o
  = (filter (fun x => x ∉ ks) o ++ ks)%list.
Proof.
  revert o. induction ks as [|k ks IH]; intros o Hnd.
  - simpl. rewrite app_nil_r. symmetry. induction o as [|x o IHo]; [reflexivity|].
    rewrite filter_cons_True by (apply not_elem_of_nil). now rewrite IHo.
  - apply NoDup_cons in Hnd as [Hk Hnd]. cbn [fold_left].
    rewrite IH by exact Hnd. unfold touch_order, LRU.remove.
    rewrite filter_app, list_filter_filter.
    rewrite filter_cons_True by exact Hk. rewrite filter_nil.
    rewrite <- app_assoc. simpl. f_equal.
    apply list_filter_iff. intros x. rewrite not_elem_of_cons. tauto.
Qed.

Lemma length_app_slash (s : string) :
  String.length (s ++ "/") = S (String.length s).
Proof. induction s as [|a s IH]; simpl; [reflexivity | now rewrite IH]. Qed.

Lemma parents_length (fuel : nat) (cur k : string) :
  startswith_slash cur = false -> k ∈ parents fuel cur ->
  (String.length k <= String.length cur)%nat.
Proof.
  revert cur. induction fuel as [|fuel IH]; intros cur Hrel Hin.
  - destruct cur; simpl in Hin; inversion Hin.
  - simpl in Hin. destruct (String.eqb cur "") eqn:E; [inversion Hin|].
    apply String.eqb_neq in E.
    pose proof (split_head_shorter cur Hrel E) as Hlt.
    apply elem_of_cons in Hin as [-> | Hin].
    + rewrite length_app_slash. lia.
    + apply IH in Hin; [lia | now apply split_head_relative].
Qed.

Lemma parents_NoDup (fuel : nat) (cur : string) :
  startswith_slash cur = false -> NoDup (parents fuel cur).
Proof.
  revert cur. induction fuel as [|fuel IH]; intros cur Hrel.
  - destruct cur; simpl; constructor.
  - simpl. destruct (String.eqb cur "") eqn:E; [constructor|].
    apply NoDup_cons. split.
    + intros Hin. apply parents_length in Hin; [|now apply split_head_relative].
      rewrite length_app_slash in Hin. lia.
    + apply IH. now apply split_head_relative.
Qed.

Lemma endswith_slash_chars (s : string) :
  endswith_slash s = match rev (chars s) with a :: _ => is_slash a | [] => false end.
Proof. reflexivity. Qed.

Lemma endswith_app_slash (s : string) : endswith_slash (s ++ "/") = true.
Proof.
  rewrite endswith_slash_chars, chars_app, rev_app_distr. reflexivity.
Qed.

Lemma drop_last_length (s : string) :
  s <> "" -> S (String.length (drop_last s)) = String.length s.
Proof.
  intros Hne. unfold drop_last. rewrite <- !length_chars, chars_str.
  destruct (chars s) as [|a l] eqn:E.
  - apply chars_empty in E. congruence.
  - clear E. revert a. induction l as [|b l IH]; intros a; [reflexivity|].
    change (removelast (a :: b :: l)) with (a :: removelast (b :: l)).
    simpl length in *. now rewrite IH.
Qed.

Lemma endswith_nonempty (s : string) : endswith_slash s = true -> s <> "".
Proof. intros H ->. discriminate. Qed.

Lemma parents_strip_not_self (fuel : nat) (path : string) :
  relative path -> path ∉ parents fuel (strip_slash path).
Proof.
  unfold relative, strip_slash. intros Hrel Hin.
  destruct (endswith_slash path) eqn:Ee.
  - pose proof (drop_last_length path (endswith_nonempty _ Ee)).
    apply parents_length in Hin; [lia | exact Hrel].
  - revert Hin. generalize path at 2 as cur. clear Hrel.
    induction fuel as [|fuel IH]; intros cur Hin.
    + destruct cur; simpl in Hin; inversion Hin.
    + simpl in Hin. destruct (String.eqb cur ""); [inversion Hin|].
      apply elem_of_cons in Hin as [-> | Hin]; [|eauto].
      rewrite endswith_app_slash in Ee. discriminate.
Qed.

Lemma strip_slash_length (path : string) :
  (String.length (strip_slash path) <= String.length path)%nat.
Proof.
  unfold strip_slash. destruct (endswith_slash path) eqn:E; [|lia].
  pose proof (drop_last_length path (endswith_nonempty _ E)). lia.
Qed.

Lemma fold_touch_set_order (ks : list string) (c : LRU.t) :
  fold_left touch ks c = LRU.set_order (LRU.order (fold_left touch ks c)) c.
Proof.
  revert c. induction ks as [|k ks IH]; intros c; cbn [fold_left].
  - now destruct c.
  - rewrite IH at 1. unfold touch. destruct (LRU.contains k c); reflexivity.
Qed.

Lemma walk_touched (fuel : nat) (path : string) (c : LRU.t) :
  relative path -> (String.length path <= fuel)%nat ->
  up_parents fuel (strip_slash path)
    (LRU.set_order (touch_order path (LRU.order c)) c)
  = (Ret tt, touched path c).
Proof.
  intros Hrel Hfuel.
  pose proof (strip_slash_length path) as Hs.
  rewrite up_parents_relative by (try exact Hrel; lia).
  f_equal. rewrite fold_touch_set_order, order_fold_touch.
  rewrite (parents_more_fuel fuel (String.length (strip_slash path)))
    by (try exact Hrel; lia).
  unfold touched, present_ancestors, ancestors, LRU.set_order, LRU.contains.
  cbn [LRU.order LRU.data LRU.sizes LRU.currsize LRU.maxsize].
  f_equal.
  change (fold_left (fun o k => touch_order k o) ?l0 (touch_order path ?o0))
    with (fold_left (fun o k => touch_order k o) (path :: l0) o0).
  rewrite fold_touch_order; [reflexivity|].
  apply NoDup_cons. split.
  - intros Hin. apply list_elem_of_filter in Hin as [_ Hin].
    now apply parents_strip_not_self in Hin.
  - apply NoDup_filter, parents_NoDup, Hrel.
Qed.

(** [CustomLRUCache.__getitem__] on a cached key: the value is returned,
    and the key followed by its cached ancestors, nearest first, are the
    most recently used entries. *)
Lemma getitem_touches (fuel : nat) (path : string) (c : LRU.t) (e : entry) :
  relative path -> (String.length path <= fuel)%nat ->
  LRU.data c !! path = Some e ->
  __getitem__ fuel path c = (Ret e, touched path c).
Proof.
  intros Hrel Hfuel Hin.
  unfold __getitem__, LRU.LRUCache_getitem, LRU.Cache_getitem, bind.
  rewrite Hin. unfold LRU.update, modify, ret.
  pose proof (walk_touched fuel path c Hrel Hfuel) as H.
  unfold touch_order in H. rewrite H. reflexivity.
Qed.

Lemma getitem_missing (fuel : nat) (path : string) (c : LRU.t) :
  LRU.data c !! path = None ->
  __getitem__ fuel path c = (Raise (KeyError path), c).
Proof.
  intros Hin. unfold __getitem__, LRU.LRUCache_getitem, LRU.Cache_getitem, bind.
  now rewrite Hin.
Qed.

End Order.

(** * Properties kept by a computation *)

Section Preserves.

Context {S : Type} (I : S -> Prop).

Lemma preserves_ret {A} (a : A) : preserves I (ret a).
Proof. intros s H. exact H. Qed.

Lemma preserves_raise {A} (e : exn) : preserves I (@raise S A e).
Proof. intros s H. exact H. Qed.

Lemma preserves_timeout {A} : preserves I (@timeout S A).
Proof. intros s H. exact H. Qed.

Lemma preserves_gets {A} (f : S -> A) : preserves I (gets f).
Proof. intros s H. exact H. Qed.

Lemma preserves_modify (f : S -> S) :
  (forall s, I s -> I (f s)) -> preserves I (modify f).
Proof. intros Hf s H. apply Hf, H. Qed.

Lemma preserves_bind {A B} (m : M S A) (k : A -> M S B) :
  preserves I m -> (forall a, preserves I (k a)) -> preserves I (bind m k).
Proof.
  intros Hm Hk s H. unfold bind. specialize (Hm s H).
  destruct (m s) as [[a|e|] s']; simpl in *; [apply Hk, Hm | exact Hm | exact Hm].
Qed.

Lemma preserves_try_except {A} (m h : M S A) (sel : exn -> bool) :
  preserves I m -> preserves I h -> preserves I (try_except m sel h).
Proof.
  intros Hm Hh s H. unfold try_except. specialize (Hm s H).
  destruct (m s) as [[a|e|] s']; simpl in *; try exact Hm.
  destruct (sel e); [apply Hh, Hm | exact Hm].
Qed.

Lemma preserves_for_each {A} (l : list A) (body : A -> M S unit) :
  (forall x, preserves I (body x)) -> preserves I (for_each l body).
Proof.
  intros Hb. induction l as [|x l IH]; simpl.
  - apply preserves_ret.
  - apply preserves_bind; [apply Hb | intros _; exact IH].
Qed.

End Preserves.

(** A computation on a component keeps what does not mention it. *)
Lemma preserves_zoom_frame {S T A} (I : S -> Prop)
    (proj : S -> T) (upd : T -> S -> S) (m : M T A) :
  (forall s t, I s -> I (upd t s)) -> preserves I (zoom proj upd m).
Proof.
  intros Hu s H. unfold zoom. destruct (m (proj s)) as [r t']. simpl. now apply Hu.
Qed.

(** * The exceptions a computation lets out *)

Section Raises.

Context {S : Type}.







Lemma try_except_handled {A} (sel sel' : exn -> bool) (m h : M S A) :
  raises_only sel m -> raises_only sel' h -> raises_only sel' (try_except m sel h).
Proof.
  intros Hm Hh s. unfold try_except. specialize (Hm s).
  destruct (m s) as [[a|e|] s']; simpl in *; [exact I | | contradiction].
  rewrite Hm. apply Hh.
Qed.




End Raises.

(** * What a computation that returns has established *)

Section Ensures.

Context {S : Type} (Q : S -> Prop).

Lemma ensures_bind_last {A B} (m : M S A) (k : A -> M S B) :
  (forall a, ensures Q (k a)) -> ensures Q (bind m k).
Proof.
  intros Hk s b s' E. unfold bind in E.
  destruct (m s) as [[a|e|] s1]; try discriminate. now apply (Hk a s1 b s').
Qed.

Lemma ensures_bind_then {A B} (m : M S A) (k : A -> M S B) :
  ensures Q m -> (forall a, preserves Q (k a)) -> ensures Q (bind m k).
Proof.
  intros Hm Hk s b s' E. unfold bind in E.
  destruct (m s) as [[a|e|] s1] eqn:E1; try discriminate.
  pose proof (Hk a s1 (Hm s a s1 E1)) as H. rewrite E in H. exact H.
Qed.

Lemma ensures_raise {A} (e : exn) : ensures Q (@raise S A e).
Proof. intros s a s' E. discriminate. Qed.

End Ensures.


(** * Lookups in the cache manager *)

Section Lookup.

Import S3CacheManager S3CacheManager.CustomLRUCache.

Lemma contains_true (key : string) (c : LRU.t) (e : entry) :
  LRU.data c !! key = Some e -> LRU.contains key c = true.
Proof. intros H. unfold LRU.contains. rewrite H. reflexivity. Qed.

Lemma contains_false (key : string) (c : LRU.t) :
  LRU.data c !! key = None -> LRU.contains key c = false.
Proof. intros H. unfold LRU.contains. rewrite H. reflexivity. Qed.

(** [S3CacheManager.get] on a key that has an entry: the entry is touched,
    and its disk location is returned when it is fresh enough. *)
Lemma get_cached (fuel : nat) (path : string) (cur_timestamp : Z)
    (s : S3CacheManager.t) (e : entry) :
  relative path -> (String.length path <= fuel)%nat ->
  LRU.data (_cache_data s) !! path = Some e ->
  get fuel path cur_timestamp s
  = (Ret (if timestamp e >=? cur_timestamp then Some (disk_path e) else None),
     with_cache (touched path (_cache_data s)) s).
Proof.
  intros Hrel Hfuel Hin. unfold get, bind, gets, lru, zoom.
  rewrite (contains_true _ _ _ Hin).
  rewrite (getitem_touches fuel path _ e Hrel Hfuel Hin).
  destruct (timestamp e >=? cur_timestamp); reflexivity.
Qed.

(** [S3CacheManager.get] on a key without entry changes nothing. *)
Lemma get_uncached (fuel : nat) (path : string) (cur_timestamp : Z)
    (s : S3CacheManager.t) :
  LRU.data (_cache_data s) !! path = None ->
  get fuel path cur_timestamp s = (Ret None, s).
Proof.
  intros Hin. unfold get, bind, gets.
  rewrite (contains_false _ _ Hin). reflexivity.
Qed.

(** Once the base class has stored the value, [CustomLRUCache.__setitem__]
    touches the key and its cached ancestors. *)
Lemma setitem_touches (fuel : nat) (path : string) (v : entry)
    (s s1 : S3CacheManager.t) :
  relative path -> (String.length path <= fuel)%nat ->
  Cache_setitem fuel path v s = (Ret tt, s1) ->
  __setitem__ fuel path v s = (Ret tt, with_cache (touched path (_cache_data s1)) s1).
Proof.
  intros Hrel Hfuel Hset.
  unfold __setitem__, LRUCache_setitem, bind. rewrite Hset.
  unfold lru, zoom, LRU.update, modify. cbn [fst snd _cache_data].
  pose proof (walk_touched fuel path (_cache_data s1) Hrel Hfuel) as H.
  unfold touch_order in H. rewrite H. reflexivity.
Qed.

(** An insertion under a key that starts with "/" does not return. *)
Lemma setitem_absolute (fuel : nat) (path : string) (v : entry) (s : S3CacheManager.t) :
  Path.startswith_slash (strip_slash path) = true ->
  forall r s', __setitem__ fuel path v s = (r, s') -> r <> Ret tt.
Proof.
  intros Habs r s' E. unfold __setitem__, LRUCache_setitem, bind in E.
  destruct (Cache_setitem fuel path v s) as [[[]|e|] s1];
    try (inversion E; discriminate).
  unfold lru, zoom, LRU.update, modify in E. cbn [fst snd _cache_data] in E.
  match type of E with
  | context [up_parents fuel ?p ?c] =>
      pose proof (up_parents_absolute fuel p c Habs) as H;
      destruct (up_parents fuel p c) as [r1 c1]
  end.
  simpl in H. subst r1. inversion E. discriminate.
Qed.

End Lookup.

(** * What every removal keeps *)

Section OrderOnly.

Import S3CacheManager S3CacheManager.CustomLRUCache.

Lemma set_order_same (c : LRU.t) : LRU.set_order (LRU.order c) c = c.
Proof. now destruct c. Qed.

Lemma order_only_ret {A} (a : A) : order_only (ret a).
Proof. intros c. exists (LRU.order c). simpl. now rewrite set_order_same. Qed.

Lemma order_only_gets {A} (f : LRU.t -> A) : order_only (gets f).
Proof. intros c. exists (LRU.order c). simpl. now rewrite set_order_same. Qed.

Lemma order_only_timeout {A} : order_only (@timeout LRU.t A).
Proof. intros c. exists (LRU.order c). simpl. now rewrite set_order_same. Qed.

Lemma order_only_bind {A B} (m : M LRU.t A) (k : A -> M LRU.t B) :
  order_only m -> (forall a, order_only (k a)) -> order_only (bind m k).
Proof.
  intros Hm Hk c. unfold bind. destruct (Hm c) as [o Ho].
  destruct (m c) as [[a|e|] c']; simpl in *; try (now exists o).
  destruct (Hk a c') as [o' Ho']. exists o'. rewrite Ho', Ho. reflexivity.
Qed.

Lemma order_only_update (key : string) : order_only (LRU.update key).
Proof. intros c. eexists. reflexivity. Qed.

Lemma order_only_Cache_getitem (key : string) : order_only (LRU.Cache_getitem key).
Proof.
  intros c. exists (LRU.order c). rewrite set_order_same. unfold LRU.Cache_getitem.
  destruct (LRU.data c !! key); reflexivity.
Qed.

Lemma order_only_up_parents (fuel : nat) (cur : string) :
  order_only (up_parents fuel cur).
Proof.
  revert cur. induction fuel as [|fuel IH]; intros cur; simpl.
  - destruct (String.eqb cur ""); [apply order_only_ret | apply order_only_timeout].
  - destruct (String.eqb cur ""); [apply order_only_ret|].
    apply order_only_bind; [apply order_only_gets|]. intros present.
    apply order_only_bind; [|intros _; apply IH].
    destruct present; [apply order_only_update | apply order_only_ret].
Qed.

Lemma order_only_getitem (fuel : nat) (path : string) : order_only (__getitem__ fuel path).
Proof.
  unfold __getitem__, LRU.LRUCache_getitem.
  apply order_only_bind.
  - apply order_only_bind; [apply order_only_Cache_getitem|]. intros v.
    apply order_only_bind; [apply order_only_update | intros _; apply order_only_ret].
  - intros v. apply order_only_bind;
      [apply order_only_up_parents | intros _; apply order_only_ret].
Qed.

End OrderOnly.

Section Removal.

Import S3CacheManager S3CacheManager.CustomLRUCache.

Variable I : S3CacheManager.t -> Prop.

(** The keys whose entry, the trailing "/" of the key removed, may go *)
Variable removable : string -> Prop.

Hypothesis I_order : forall s o, I s -> I (with_cache (LRU.set_order o (_cache_data s)) s).
Hypothesis I_disk : forall s d, I s -> I (mk (_cache_data s) d (_cache_path s)).
Hypothesis I_removable :
  forall s key, I s -> LRU.contains key (_cache_data s) = true -> removable key.
Hypothesis I_delete :
  forall s key, removable key -> I s ->
    I (with_cache (LRU.LRUCache_delitem (strip_slash key) (_cache_data s)).2 s).

Lemma preserves_lru_order_only {A} (m : M LRU.t A) :
  order_only m -> preserves I (lru m).
Proof.
  intros Hm s H. unfold lru, zoom. destruct (Hm (_cache_data s)) as [o Ho].
  destruct (m (_cache_data s)) as [r c']. simpl in *. subst c'.
  now apply I_order.
Qed.

Lemma preserves_os {A} (m : M Disk.t A) : preserves I (os m).
Proof.
  intros s H. unfold os, zoom. destruct (m (disk s)) as [r d]. simpl.
  now apply I_disk.
Qed.

Lemma with_cache_same (s : S3CacheManager.t) : with_cache (_cache_data s) s = s.
Proof. now destruct s. Qed.

Lemma preserves_delitem (fuel : nat) (path : string) : preserves I (__delitem__ fuel path).
Proof.
  revert path. induction fuel as [|fuel IH]; intros path; [apply preserves_timeout|].
  intros s H.
  destruct (LRU.contains path (_cache_data s)) eqn:Hin.
  - pose proof (I_removable s path H Hin) as Hrem. clear Hin. revert s H.
    change (preserves I (__delitem__ (S fuel) path)). cbn [__delitem__].
    apply preserves_bind; [apply preserves_lru_order_only, order_only_getitem|].
    intros e. apply preserves_bind.
    { destruct (negb (Path.endswith_slash path)); [apply preserves_os|].
      apply preserves_bind; [apply preserves_os|]. intros l.
      destruct (Nat.eqb (length l) 0); [apply preserves_os | apply preserves_ret]. }
    intros _. apply preserves_bind; [apply preserves_gets|]. intros present.
    apply preserves_bind.
    { destruct (negb (String.eqb _ "") && present)%bool; [apply IH | apply preserves_ret]. }
    intros _ s H. unfold lru, zoom.
    pose proof (I_delete s path Hrem H) as Hd. unfold with_cache in Hd.
    destruct (LRU.LRUCache_delitem (strip_slash path) (_cache_data s)) as [r c'].
    exact Hd.
  - cbn [__delitem__]. unfold bind at 1, lru, zoom.
    rewrite getitem_missing.
    + simpl. now rewrite with_cache_same || (destruct s; exact H).
    + unfold LRU.contains in Hin. destruct (LRU.data (_cache_data s) !! path); [discriminate | reflexivity].
Qed.

Lemma preserves_pop (fuel : nat) (key : string) : preserves I (pop fuel key).
Proof.
  unfold pop. apply preserves_bind; [apply preserves_gets|]. intros present.
  destruct present; [|apply preserves_raise].
  apply preserves_bind; [apply preserves_lru_order_only, order_only_getitem|].
  intros v. apply preserves_bind; [apply preserves_delitem | intros _; apply preserves_ret].
Qed.

Lemma order_only_first_key : order_only LRU.first_key.
Proof.
  intros c. exists (LRU.order c). rewrite set_order_same. unfold LRU.first_key.
  destruct (LRU.order c); reflexivity.
Qed.

Lemma preserves_popitem (fuel : nat) : preserves I (popitem fuel).
Proof.
  unfold popitem.
  apply preserves_bind; [apply preserves_lru_order_only, order_only_first_key|].
  intros key. apply preserves_bind; [apply preserves_pop | intros v; apply preserves_ret].
Qed.

Lemma preserves_evict (fuel : nat) (size : Z) : preserves I (evict fuel size).
Proof.
  induction fuel as [|fuel IH]; intros s H; simpl.
  - destruct (_ >? _); exact H.
  - destruct (_ >? _); [|exact H].
    revert s H. apply preserves_bind; [apply preserves_popitem | intros _; exact IH].
Qed.

Lemma preserves_get (fuel : nat) (path : string) (ts : Z) : preserves I (get fuel path ts).
Proof.
  unfold get. apply preserves_bind; [apply preserves_gets|]. intros present.
  destruct present; [|apply preserves_ret].
  apply preserves_bind; [apply preserves_lru_order_only, order_only_getitem|].
  intros e. destruct (_ >=? _); apply preserves_ret.
Qed.

Lemma preserves_invalidate (fuel : nat) (path : string) :
  preserves I (invalidate fuel path).
Proof.
  revert path. induction fuel as [|fuel IH]; intros path; [apply preserves_timeout|].
  cbn [invalidate]. apply preserves_bind; [apply preserves_gets|]. intros present.
  destruct present; [apply preserves_delitem|].
  destruct (negb _); [apply IH | apply preserves_ret].
Qed.

End Removal.

(** * The weights of the entries *)

Section Weights.

Lemma sum_weights_delete (m : gmap string entry) (k : string) (e : entry) :
  m !! k = Some e -> sum_weights m = weight e + sum_weights (delete k m).
Proof.
  intros H. unfold sum_weights.
  apply (map_fold_delete_L (fun (_ : string) (e : entry) (acc : Z) => weight e + acc)).
  - intros. lia.
  - exact H.
Qed.

Lemma sum_weights_insert_fresh (m : gmap string entry) (k : string) (e : entry) :
  m !! k = None -> sum_weights (<[k := e]> m) = weight e + sum_weights m.
Proof.
  intros H. unfold sum_weights.
  apply (map_fold_insert_L (fun (_ : string) (e : entry) (acc : Z) => weight e + acc)).
  - intros. lia.
  - exact H.
Qed.

Lemma sum_weights_insert (m : gmap string entry) (k : string) (e : entry) :
  sum_weights (<[k := e]> m) = weight e + sum_weights (delete k m).
Proof.
  rewrite <- (insert_delete_eq m k e).
  apply sum_weights_insert_fresh, lookup_delete_eq.
Qed.

Lemma sum_file_weights_le (m : gmap string entry) :
  (forall k e, m !! k = Some e -> 0 <= weight e) ->
  0 <= sum_file_weights m <= sum_weights m.
Proof.
  induction m as [|k e m Hk IH] using map_ind; intros Hw.
  - unfold sum_file_weights, sum_weights. rewrite !map_fold_empty. lia.
  - assert (He : 0 <= weight e) by (apply (Hw k); apply lookup_insert_eq).
    assert (Hm : 0 <= sum_file_weights m <= sum_weights m).
    { apply IH. intros j x Hj. apply (Hw j). rewrite lookup_insert_ne; [exact Hj|].
      intros ->. congruence. }
    rewrite sum_weights_insert_fresh by exact Hk.
    unfold sum_file_weights at 1 2.
    rewrite (map_fold_insert_L
               (fun (k : string) (e : entry) (acc : Z) =>
                  if Path.endswith_slash k then acc else weight e + acc)).
    + fold (sum_file_weights m). destruct (Path.endswith_slash k); lia.
    + intros. destruct (Path.endswith_slash j1), (Path.endswith_slash j2); lia.
    + exact Hk.
Qed.

End Weights.

Section Join.

Import Path.

Lemma endswith_app (a b : string) :
  b <> "" -> endswith_slash (a ++ b) = endswith_slash b.
Proof.
  intros Hb. rewrite !endswith_slash_chars, chars_app, rev_app_distr.
  destruct (rev (chars b)) as [|x l] eqn:E; [|reflexivity].
  exfalso. apply Hb, chars_empty.
  apply (f_equal (@rev _)) in E. now rewrite rev_involutive in E.
Qed.

Lemma endswith_join (a b : string) :
  endswith_slash b = true -> endswith_slash (join a b) = true.
Proof.
  intros H. pose proof (endswith_nonempty b H) as Hb. unfold join.
  destruct (startswith_slash b); [exact H|].
  destruct (String.eqb a "" || endswith_slash a)%bool.
  - now rewrite endswith_app.
  - rewrite endswith_app; [|destruct b; [congruence | discriminate]].
    now rewrite (endswith_app "/" b).
Qed.

End Join.

Section Capacity.

Import S3CacheManager S3CacheManager.CustomLRUCache.

Variable max_size : Z.

Let I (s : S3CacheManager.t) : Prop := bounded max_size (_cache_data s).

Lemma bounded_LRUCache_delitem (key : string) (c : LRU.t) :
  bounded max_size c -> bounded max_size (LRU.LRUCache_delitem key c).2.
Proof.
  intros (Hs & Hc & Hw & Hle & Hmax).
  unfold LRU.LRUCache_delitem, LRU.Cache_delitem, bind.
  assert (Hk : LRU.sizes c !! key = weight <$> LRU.data c !! key).
  { rewrite Hs. apply lookup_fmap. }
  destruct (LRU.data c !! key) as [e|] eqn:He; simpl in Hk; rewrite Hk.
  2: { simpl. exact (conj Hs (conj Hc (conj Hw (conj Hle Hmax)))). }
  assert (Hb : bounded max_size
                 (LRU.mk (delete key (LRU.data c)) (delete key (LRU.sizes c))
                         (LRU.currsize c - weight e) (LRU.maxsize c) (LRU.order c))).
  { destruct (Hw key e He) as [He0 _].
    pose proof (sum_weights_delete _ _ _ He) as Hsum.
    repeat split; cbn [LRU.data LRU.sizes LRU.currsize LRU.maxsize].
    - rewrite Hs. symmetry. apply fmap_delete.
    - lia.
    - apply (Hw k). eapply lookup_delete_Some; eassumption.
    - apply (Hw k). eapply lookup_delete_Some; eassumption.
    - lia.
    - exact Hmax. }
  cbn [fst snd LRU.order]. destruct (bool_decide (key ∈ LRU.order c)); exact Hb.
Qed.

Lemma I_order s o : I s -> I (with_cache (LRU.set_order o (_cache_data s)) s).
Proof. intros H. exact H. Qed.

Lemma I_disk s d : I s -> I (mk (_cache_data s) d (_cache_path s)).
Proof. intros H. exact H. Qed.

Lemma I_delete s key :
  True -> I s -> I (with_cache (LRU.LRUCache_delitem (strip_slash key) (_cache_data s)).2 s).
Proof. intros _ H. apply bounded_LRUCache_delitem, H. Qed.

Lemma evict_leaves_room (fuel : nat) (size : Z) (s : S3CacheManager.t) :
  (evict fuel size s).1 = Ret tt ->
  LRU.currsize (_cache_data (evict fuel size s).2) + size
  <= LRU.maxsize (_cache_data (evict fuel size s).2).
Proof.
  revert s. induction fuel as [|fuel IH]; intros s; simpl.
  - destruct (_ >? _) eqn:E; simpl; [discriminate | lia].
  - destruct (_ >? _) eqn:E; simpl; [|lia].
    unfold bind. destruct (popitem fuel s) as [[a|e|] s']; simpl; try discriminate.
    apply IH.
Qed.

Lemma bounded_stored (key : string) (value : entry) (c : LRU.t) :
  bounded max_size c ->
  0 <= weight value -> (Path.endswith_slash key = true -> weight value = 0) ->
  (LRU.currsize c + weight value <= max_size \/
   exists old, LRU.data c !! key = Some old /\ weight value <= weight old) ->
  bounded max_size (stored key value c).
Proof.
  intros (Hs & Hc & Hw & Hle & Hmax) Hv Hmark Hroom.
  unfold bounded, stored. cbn [LRU.data LRU.sizes LRU.currsize LRU.maxsize].
  split; [|split; [|split; [|split]]].
  - rewrite Hs. symmetry. apply fmap_insert.
  - rewrite sum_weights_insert. destruct (LRU.data c !! key) as [old|] eqn:Hold.
    + rewrite (sum_weights_delete _ _ _ Hold) in Hc. lia.
    + rewrite delete_id by exact Hold. lia.
  - intros k e Hk. destruct (decide (k = key)) as [->|Hne].
    + rewrite lookup_insert_eq in Hk. inversion Hk. subst. split; assumption.
    + rewrite lookup_insert_ne in Hk by congruence. apply (Hw k e Hk).
  - destruct (LRU.data c !! key) as [old|] eqn:Hold.
    + destruct (Hw key old Hold) as [Hold0 _].
      destruct Hroom as [Hroom | (old' & Ho & Hlt)]; [lia|].
      inversion Ho. subst. lia.
    + destruct Hroom as [Hroom | (old' & Ho & Hlt)]; [lia | discriminate].
  - exact Hmax.
Qed.

Lemma Cache_setitem_bounded (fuel : nat) (key : string) (value : entry) :
  0 <= weight value -> (Path.endswith_slash key = true -> weight value = 0) ->
  preserves I (Cache_setitem fuel key value).
Proof.
  intros Hv Hmark s H.
  pose proof (preserves_evict I (fun _ => True) I_order I_disk
                (fun _ _ _ _ => Logic.I) I_delete fuel (weight value)) as Hev.
  unfold Cache_setitem, bind, gets, S3CacheManager.CustomLRUCache._computeFileSize. cbn [fst snd].
  destruct (weight value >? LRU.maxsize (_cache_data s)) eqn:Ebig; [exact H|].
  assert (Hlast : forall s1, I s1 ->
            (LRU.currsize (_cache_data s1) + weight value <= LRU.maxsize (_cache_data s1) \/
             exists old, LRU.data (_cache_data s1) !! key = Some old /\
                         weight value <= weight old) ->
            I (let (r, s') :=
                 match LRU.data (_cache_data s1) !! key,
                       LRU.sizes (_cache_data s1) !! key with
                 | None, _ => ret (weight value)
                 | Some _, Some sz => ret (weight value - sz)
                 | Some _, None => raise (KeyError key)
                 end s1 in
               match r with
               | Ret a =>
                   lru (modify (fun c =>
                     LRU.mk (<[key := value]> (LRU.data c))
                            (<[key := weight value]> (LRU.sizes c))
                            (LRU.currsize c + a) (LRU.maxsize c) (LRU.order c))) s'
               | Raise e => (Raise e, s')
               | OutOfFuel => (OutOfFuel, s')
               end).2).
  { intros s1 H1 Hroom.
    pose proof H1 as (Hs & Hc & Hw & Hle & Hmax).
    assert (Hk : LRU.sizes (_cache_data s1) !! key
                 = weight <$> LRU.data (_cache_data s1) !! key).
    { rewrite Hs. apply lookup_fmap. }
    rewrite Hmax in Hroom.
    pose proof (bounded_stored key value (_cache_data s1) H1 Hv Hmark Hroom) as Hb.
    unfold stored in Hb.
    destruct (LRU.data (_cache_data s1) !! key) as [old|] eqn:Hold;
      simpl in Hk; rewrite ?Hk; exact Hb. }
  pose proof H as (Hs & Hc & Hw & Hle & Hmax).
  assert (Hk : LRU.sizes (_cache_data s) !! key
               = weight <$> LRU.data (_cache_data s) !! key).
  { rewrite Hs. apply lookup_fmap. }
  destruct (LRU.data (_cache_data s) !! key) as [old|] eqn:Hold;
    simpl in Hk; rewrite ?Hk.
  - destruct (weight old <? weight value)%Z eqn:Elt.
    + pose proof (Hev s H) as H1. pose proof (evict_leaves_room fuel (weight value) s) as Hroom.
      destruct (evict fuel (weight value) s) as [[[]|e|] s1]; simpl in *; try exact H1.
      apply Hlast; [exact H1 | left; now apply Hroom].
    + unfold ret at 1. apply Hlast; [exact H|]. right. exists old. split; [exact Hold | lia].
  - pose proof (Hev s H) as H1. pose proof (evict_leaves_room fuel (weight value) s) as Hroom.
    destruct (evict fuel (weight value) s) as [[[]|e|] s1]; simpl in *; try exact H1.
    apply Hlast; [exact H1 | left; now apply Hroom].
Qed.

Lemma setitem_bounded (fuel : nat) (key : string) (value : entry) :
  0 <= weight value -> (Path.endswith_slash key = true -> weight value = 0) ->
  preserves I (__setitem__ fuel key value).
Proof.
  intros Hv Hmark. unfold __setitem__, LRUCache_setitem.
  apply preserves_bind.
  - apply preserves_bind; [now apply Cache_setitem_bounded|]. intros _.
    apply (preserves_lru_order_only I I_order), order_only_update.
  - intros _. apply (preserves_lru_order_only I I_order), order_only_up_parents.
Qed.

Lemma put_folder_bounded (fuel : nat) (path : string) (ts : Z) :
  preserves I (put_folder fuel path ts).
Proof.
  unfold put_folder. apply preserves_bind; [apply preserves_gets|]. intros cache_path.
  apply preserves_bind; [apply (preserves_os I I_disk)|]. intros _.
  apply setitem_bounded; simpl; [lia | reflexivity].
Qed.

Lemma put_file_bounded (fuel : nat) (path : string) (ts : Z) (content : bytes) :
  preserves I (put_file fuel path ts content).
Proof.
  unfold put_file. apply preserves_bind; [apply preserves_gets|]. intros cache_path.
  apply preserves_bind; [apply (preserves_os I I_disk)|]. intros _.
  intros s H. unfold bind.
  pose proof (preserves_os I I_disk
                (Disk.write (Path.join cache_path path) content) s H) as Hw.
  destruct (os (Disk.write (Path.join cache_path path) content) s)
    as [[[]|e|] s1] eqn:E; simpl in Hw |- *; try exact Hw.
  apply setitem_bounded; [unfold len; simpl; lia | | exact Hw].
  intros Hslash. exfalso.
  unfold os, zoom, Disk.write in E.
  rewrite (endswith_join _ _ Hslash) in E. simpl in E. discriminate.
Qed.

Lemma run_op_bounded (fuel : nat) (o : op) (s : S3CacheManager.t) :
  I s -> I (run_op fuel o s).
Proof.
  intros H. destruct o; simpl.
  - now apply (preserves_get I I_order).
  - now apply put_file_bounded.
  - now apply put_folder_bounded.
  - now apply (preserves_invalidate I (fun _ => True) I_order I_disk
                 (fun _ _ _ _ => Logic.I) I_delete).
Qed.

Lemma run_ops_bounded (fuel : nat) (l : list op) (s : S3CacheManager.t) :
  I s -> I (run_ops fuel l s).
Proof.
  revert s. induction l as [|o l IH]; intros s H; simpl; [exact H|].
  apply IH, run_op_bounded, H.
Qed.

End Capacity.

Lemma bounded_init (max_size : Z) : 0 <= max_size -> bounded max_size (S3CacheManager.CustomLRUCache.__init__ max_size).
Proof.
  intros H. unfold bounded, S3CacheManager.CustomLRUCache.__init__, LRU.empty. cbn [LRU.data LRU.sizes LRU.currsize LRU.maxsize].
  split; [|split; [|split; [|split]]].
  - now rewrite fmap_empty.
  - reflexivity.
  - intros k e Hk. rewrite lookup_empty in Hk. discriminate.
  - exact H.
  - reflexivity.
Qed.


(** * Directory markers *)

Section Markers.

Import S3CacheManager S3CacheManager.CustomLRUCache.

Lemma drop_last_app_slash (s : string) :
  Path.endswith_slash s = true -> Path.drop_last s ++ "/" = s.
Proof.
  intros H. rewrite <- (str_chars (Path.drop_last s ++ "/")), chars_app.
  unfold Path.drop_last. rewrite chars_str.
  rewrite endswith_slash_chars in H.
  rewrite <- (str_chars s) at 2. f_equal.
  destruct (Path.chars s) as [|a l] using rev_ind; [discriminate|].
  rewrite rev_app_distr in H. simpl in H.
  rewrite removelast_last. f_equal. simpl.
  unfold Path.is_slash in H. apply Ascii.eqb_eq in H. now subst.
Qed.

Variable marker : string.
Hypothesis marker_slash : Path.endswith_slash marker = true.

Let I : S3CacheManager.t -> Prop := marker_kept marker.
Let removable (key : string) : Prop := strip_slash key <> marker.

Lemma marker_order s o : I s -> I (with_cache (LRU.set_order o (_cache_data s)) s).
Proof. intros H. exact H. Qed.

Lemma marker_disk s d : I s -> I (mk (_cache_data s) d (_cache_path s)).
Proof. intros H. exact H. Qed.

Lemma marker_removable s key :
  I s -> LRU.contains key (_cache_data s) = true -> removable key.
Proof.
  intros [_ Hno] Hin Heq. unfold strip_slash in Heq.
  destruct (Path.endswith_slash key) eqn:E.
  - apply drop_last_app_slash in E. rewrite Heq in E. subst key.
    unfold cached in Hno. congruence.
  - subst key. congruence.
Qed.

Lemma data_LRUCache_delitem (key : string) (c : LRU.t) :
  LRU.data (LRU.LRUCache_delitem key c).2 = LRU.data c \/
  LRU.data (LRU.LRUCache_delitem key c).2 = delete key (LRU.data c).
Proof.
  unfold LRU.LRUCache_delitem, LRU.Cache_delitem, bind.
  destruct (LRU.sizes c !! key); [|now left].
  destruct (LRU.data c !! key); [|now left].
  cbn [fst snd LRU.order]. destruct (bool_decide _); now right.
Qed.

Lemma marker_delete s key :
  removable key -> I s ->
  I (with_cache (LRU.LRUCache_delitem (strip_slash key) (_cache_data s)).2 s).
Proof.
  intros Hrem [Hin Hno]. unfold I, marker_kept, cached, LRU.contains in *.
  cbn [with_cache _cache_data].
  destruct (data_LRUCache_delitem (strip_slash key) (_cache_data s)) as [-> | ->].
  - now split.
  - split.
    + rewrite lookup_delete_ne by exact Hrem. exact Hin.
    + apply bool_decide_eq_false. apply bool_decide_eq_false in Hno.
      intros [x Hx]. apply Hno. exists x.
      apply lookup_delete_Some in Hx. tauto.
Qed.






End Markers.


(** * What an insertion stores *)

Section Stores.

Import S3CacheManager S3CacheManager.CustomLRUCache.

Lemma Cache_setitem_stores (fuel : nat) (key : string) (value : entry) :
  ensures (fun s => LRU.data (_cache_data s) !! key = Some value)
    (Cache_setitem fuel key value).
Proof.
  unfold Cache_setitem.
  apply ensures_bind_last. intros maxsize.
  destruct (_ >? _); [apply ensures_raise|].
  do 6 (apply ensures_bind_last; intros ?).
  intros s [] s' E. unfold lru, zoom, modify in E. inversion E.
  cbn [_cache_data LRU.data]. apply lookup_insert_eq.
Qed.

Lemma setitem_stores (fuel : nat) (key : string) (value : entry) :
  ensures (fun s => LRU.data (_cache_data s) !! key = Some value)
    (__setitem__ fuel key value).
Proof.
  unfold __setitem__, LRUCache_setitem.
  apply ensures_bind_then; [apply ensures_bind_then; [apply Cache_setitem_stores|]|];
    intros _; apply preserves_lru_order_only;
    try (intros s o H; exact H);
    [apply order_only_update | apply order_only_up_parents].
Qed.

(** A [put_file] that returns has stored the entry. *)
Lemma put_file_stores (fuel : nat) (path : string) (ts : Z) (content : bytes)
    (s s' : S3CacheManager.t) :
  put_file fuel path ts content s = (Ret tt, s') ->
  entry_of path s' = Some (Entry ts (Path.join (_cache_path s) path) (len content)).
Proof.
  unfold put_file. unfold bind at 1, gets. cbn [fst snd]. intros E.
  revert E. apply (ensures_bind_last (fun s' => entry_of path s' = _)).
  intros _. apply ensures_bind_last. intros _. apply setitem_stores.
Qed.

End Stores.


(** * The cascade through a marker *)

Lemma bind_never_returns {S A B} (I : S -> Prop) (m : M S A) (k : A -> M S B) :
  preserves I m ->
  (forall a s, I s -> forall b, (k a s).1 <> Ret b) ->
  forall s, I s -> forall b, (bind m k s).1 <> Ret b.
Proof.
  intros Hm Hk s H b. unfold bind. specialize (Hm s H).
  destruct (m s) as [[a|e|] s']; simpl in *; try discriminate.
  now apply Hk.
Qed.

Section Cascade.

Import S3CacheManager S3CacheManager.CustomLRUCache.

Variable key : string.

Let absent (s : S3CacheManager.t) : Prop := cached key s = false.

Lemma absent_order s o : absent s -> absent (with_cache (LRU.set_order o (_cache_data s)) s).
Proof. intros H. exact H. Qed.

Lemma absent_disk s d : absent s -> absent (mk (_cache_data s) d (_cache_path s)).
Proof. intros H. exact H. Qed.

Lemma absent_delete s j :
  True -> absent s ->
  absent (with_cache (LRU.LRUCache_delitem (strip_slash j) (_cache_data s)).2 s).
Proof.
  intros _ H. unfold absent, cached, LRU.contains in *. cbn [with_cache _cache_data].
  apply bool_decide_eq_false. apply bool_decide_eq_false in H.
  destruct (data_LRUCache_delitem (strip_slash j) (_cache_data s)) as [-> | ->].
  - exact H.
  - intros [x Hx]. apply H. exists x. apply lookup_delete_Some in Hx. tauto.
Qed.

Lemma absent_delitem (fuel : nat) (path : string) : preserves absent (__delitem__ fuel path).
Proof.
  exact (preserves_delitem absent (fun _ => True) absent_order absent_disk
           (fun _ _ _ _ => Logic.I) absent_delete fuel path).
Qed.

Lemma LRUCache_delitem_absent (c : LRU.t) :
  LRU.contains key c = false -> forall b, (LRU.LRUCache_delitem key c).1 <> Ret b.
Proof.
  intros H b. unfold LRU.contains in H. apply bool_decide_eq_false in H.
  unfold LRU.LRUCache_delitem, LRU.Cache_delitem, bind.
  destruct (LRU.sizes c !! key); [|discriminate].
  destruct (LRU.data c !! key) eqn:E; [|discriminate].
  exfalso. apply H. eauto.
Qed.

(** Deleting a marker whose key without the "/" has no entry never returns:
    the base class is asked to delete that key. *)
Lemma delitem_marker_never_returns (fuel : nat) (marker : string) (s : S3CacheManager.t) :
  strip_slash marker = key -> absent s ->
  forall b, (__delitem__ fuel marker s).1 <> Ret b.
Proof.
  intros Hkey H. destruct fuel as [|fuel]; [discriminate|]. cbn [__delitem__].
  revert s H. apply (bind_never_returns absent).
  { apply (preserves_lru_order_only absent absent_order), order_only_getitem. }
  intros e. apply (bind_never_returns absent).
  { destruct (negb (Path.endswith_slash marker)); [apply (preserves_os absent absent_disk)|].
    apply preserves_bind; [apply (preserves_os absent absent_disk)|]. intros l.
    destruct (Nat.eqb (length l) 0);
      [apply (preserves_os absent absent_disk) | apply preserves_ret]. }
  intros _. apply (bind_never_returns absent); [apply preserves_gets|].
  intros present. apply (bind_never_returns absent).
  { destruct (negb (String.eqb _ "") && present)%bool;
      [apply absent_delitem | apply preserves_ret]. }
  intros _ s H b. rewrite Hkey. unfold lru, zoom.
  pose proof (LRUCache_delitem_absent (_cache_data s) H b) as Hn.
  destruct (LRU.LRUCache_delitem key (_cache_data s)) as [r c']. exact Hn.
Qed.

End Cascade.

Section ThroughMarker.

Import S3CacheManager S3CacheManager.CustomLRUCache.

Lemma strip_app_slash (s : string) : strip_slash (s ++ "/") = s.
Proof.
  unfold strip_slash. rewrite endswith_app_slash. unfold Path.drop_last.
  rewrite chars_app. simpl. rewrite removelast_last. apply str_chars.
Qed.

Lemma marker_invalidate (fuel : nat) (path marker : string) (s : S3CacheManager.t) :
  Path.endswith_slash marker = true -> marker_kept marker s ->
  marker_kept marker (invalidate fuel path s).2.
Proof.
  intros Hslash H.
  now apply (preserves_invalidate (marker_kept marker) (fun k => strip_slash k <> marker)
               (marker_order marker) (marker_disk marker)
               (marker_removable marker Hslash) (marker_delete marker)).
Qed.

(** [S3CacheManager.invalidate] on a path without entry goes to the parent. *)
Lemma invalidate_uncached (fuel : nat) (path : string) (s : S3CacheManager.t) :
  cached path s = false ->
  invalidate (S fuel) path s
  = if String.eqb (Path.split_head (strip_slash path)) "" then (Ret tt, s)
    else invalidate fuel (Path.split_head (strip_slash path) ++ "/") s.
Proof.
  intros H. cbn [invalidate]. unfold bind, gets. cbn [fst snd].
  unfold cached in H. rewrite H.
  now destruct (String.eqb (Path.split_head (strip_slash path)) "").
Qed.

(** An invalidation that reaches a cached marker never returns, and the
    marker stays: whether the path has an entry or not. *)
Lemma invalidation_through_marker (fuel : nat) (path : string) (s : S3CacheManager.t) :
  let parent := Path.split_head (strip_slash path) in
  parent <> "" -> marker_kept (parent ++ "/") s -> cached parent s = false ->
  (forall b, (invalidate fuel path s).1 <> Ret b) /\
  marker_kept (parent ++ "/") (invalidate fuel path s).2.
Proof.
  intros parent Hne Hm Hn. split.
  2: { apply marker_invalidate; [apply endswith_app_slash | exact Hm]. }
  intros b. destruct fuel as [|fuel]; [discriminate|].
  destruct (cached path s) eqn:Hin.
  - cbn [invalidate]. unfold bind at 1, gets. cbn [fst snd].
    unfold cached in Hin. rewrite Hin. cbn [__delitem__].
    set (I := fun s' : S3CacheManager.t =>
                cached (parent ++ "/") s' = true /\ cached parent s' = false).
    assert (HI : I s) by (split; [apply Hm | exact Hn]).
    revert s HI b Hm Hn Hin. intros s HI b _ _ _. revert s HI b.
    apply (bind_never_returns I).
    { apply (preserves_lru_order_only I); [intros s o H; exact H|].
      apply order_only_getitem. }
    intros e. apply (bind_never_returns I).
    { assert (Hos : forall A (m : M Disk.t A), preserves I (os m)).
      { intros A m. apply preserves_os. intros s d H. exact H. }
      destruct (negb (Path.endswith_slash path)); [apply Hos|].
      apply preserves_bind; [apply Hos|]. intros l.
      destruct (Nat.eqb (length l) 0); [apply Hos | apply preserves_ret]. }
    intros _ s [Hp Hq] b. unfold bind at 1, gets. cbn [fst snd].
    fold parent. unfold cached in Hp. rewrite Hp.
    assert (Hs : String.eqb parent "" = false) by now apply String.eqb_neq.
    rewrite Hs. cbn [negb andb]. unfold bind.
    pose proof (delitem_marker_never_returns parent fuel (parent ++ "/") s
                  (strip_app_slash parent) Hq) as Hd.
    destruct (__delitem__ fuel (parent ++ "/") s) as [[[]|x|] s1];
      simpl; try discriminate. exfalso. now apply (Hd tt).
  - rewrite (invalidate_uncached fuel path s Hin). fold parent.
    assert (Hs : String.eqb parent "" = false) by now apply String.eqb_neq.
    rewrite Hs. destruct fuel as [|fuel]; [discriminate|].
    cbn [invalidate]. unfold bind at 1, gets. cbn [fst snd].
    destruct Hm as [Hp _]. unfold cached in Hp. rewrite Hp.
    apply (delitem_marker_never_returns parent (S fuel) (parent ++ "/") s
             (strip_app_slash parent) Hn).
Qed.

End ThroughMarker.

(** * Insertions that need no eviction *)

Section Room.

Import S3CacheManager S3CacheManager.CustomLRUCache.

(** With room for the value, [Cache.__setitem__] evicts nothing and stores
    it, whatever the fuel. *)
Lemma Cache_setitem_room (fuel : nat) (key : string) (value : entry)
    (s : S3CacheManager.t) :
  LRU.data (_cache_data s) !! key = None ->
  weight value <= LRU.maxsize (_cache_data s) ->
  LRU.currsize (_cache_data s) + weight value <= LRU.maxsize (_cache_data s) ->
  Cache_setitem fuel key value s
  = (Ret tt, with_cache (stored key value (_cache_data s)) s).
Proof.
  intros Hnew Hfit Hroom. unfold Cache_setitem, bind, gets, _computeFileSize.
  cbn [fst snd].
  destruct (weight value >? LRU.maxsize (_cache_data s)) eqn:E; [lia|].
  rewrite Hnew.
  assert (Hev : evict fuel (weight value) s = (Ret tt, s)).
  { destruct fuel; simpl;
      destruct (LRU.currsize (_cache_data s) + weight value
                >? LRU.maxsize (_cache_data s)) eqn:E'; try lia; reflexivity. }
  rewrite Hev. cbn [fst snd]. rewrite Hnew. unfold ret. cbn [fst snd].
  unfold lru, zoom, modify, with_cache, stored. cbn [fst snd]. rewrite Hnew.
  reflexivity.
Qed.

Lemma setitem_room (fuel : nat) (path : string) (value : entry) (s : S3CacheManager.t) :
  relative path -> (String.length path <= fuel)%nat ->
  LRU.data (_cache_data s) !! path = None ->
  weight value <= LRU.maxsize (_cache_data s) ->
  LRU.currsize (_cache_data s) + weight value <= LRU.maxsize (_cache_data s) ->
  __setitem__ fuel path value s
  = (Ret tt, with_cache (touched path (stored path value (_cache_data s))) s).
Proof.
  intros Hrel Hfuel Hnew Hfit Hroom.
  rewrite (setitem_touches fuel path value s _ Hrel Hfuel
             (Cache_setitem_room fuel path value s Hnew Hfit Hroom)).
  reflexivity.
Qed.

End Room.

(** * Where the entries come from *)

Section Tied.

Import S3CacheManager S3CacheManager.CustomLRUCache.

Variable max_size : Z.
Variable cache_path : string.

(** The entries that the cache may hold *)
Variable P : string -> entry -> Prop.

Let I (s : S3CacheManager.t) : Prop :=
  LRU.maxsize (_cache_data s) = max_size /\ _cache_path s = cache_path /\
  forall k e, LRU.data (_cache_data s) !! k = Some e -> P k e.

Lemma maxsize_LRUCache_delitem (key : string) (c : LRU.t) :
  LRU.maxsize (LRU.LRUCache_delitem key c).2 = LRU.maxsize c.
Proof.
  unfold LRU.LRUCache_delitem, LRU.Cache_delitem, bind.
  destruct (LRU.sizes c !! key); [|reflexivity].
  destruct (LRU.data c !! key); [|reflexivity].
  cbn [fst snd LRU.order]. now destruct (bool_decide _).
Qed.

Lemma tied_order s o : I s -> I (with_cache (LRU.set_order o (_cache_data s)) s).
Proof. intros H. exact H. Qed.

Lemma tied_disk s d : I s -> I (mk (_cache_data s) d (_cache_path s)).
Proof. intros H. exact H. Qed.

Lemma tied_delete s key :
  True -> I s -> I (with_cache (LRU.LRUCache_delitem (strip_slash key) (_cache_data s)).2 s).
Proof.
  intros _ (Hm & Hp & He). unfold I. cbn [with_cache _cache_data _cache_path].
  rewrite maxsize_LRUCache_delitem. split; [exact Hm|]. split; [exact Hp|].
  intros k e. destruct (data_LRUCache_delitem (strip_slash key) (_cache_data s)) as [-> | ->].
  - apply He.
  - intros Hk. apply lookup_delete_Some in Hk. now apply He.
Qed.

Lemma tied_evict (fuel : nat) (size : Z) : preserves I (evict fuel size).
Proof.
  exact (preserves_evict I (fun _ => True) tied_order tied_disk
           (fun _ _ _ _ => Logic.I) tied_delete fuel size).
Qed.

Lemma tied_Cache_setitem (fuel : nat) (key : string) (value : entry) :
  P key value -> preserves I (Cache_setitem fuel key value).
Proof.
  intros Hv. unfold Cache_setitem.
  apply preserves_bind; [apply preserves_gets|]. intros maxsize.
  destruct (_ >? _); [apply preserves_raise|].
  apply preserves_bind; [apply preserves_gets|]. intros old.
  apply preserves_bind; [apply preserves_gets|]. intros oldsize.
  apply preserves_bind.
  { destruct old as [?|]; [destruct oldsize as [sz|]|].
    - destruct (sz <? _)%Z; [apply tied_evict | apply preserves_ret].
    - apply preserves_raise.
    - apply tied_evict. }
  intros _. apply preserves_bind; [apply preserves_gets|]. intros old'.
  apply preserves_bind; [apply preserves_gets|]. intros oldsize'.
  apply preserves_bind.
  { destruct old' as [?|]; [destruct oldsize' as [sz|]|];
      apply preserves_ret || apply preserves_raise. }
  intros diffsize s (Hm & Hp & He). unfold lru, zoom, modify. cbn [fst snd].
  unfold I. cbn [_cache_data _cache_path LRU.data LRU.maxsize].
  split; [exact Hm|]. split; [exact Hp|].
  intros k e Hk. destruct (decide (k = key)) as [->|Hne].
  - rewrite lookup_insert_eq in Hk. inversion Hk. now subst.
  - rewrite lookup_insert_ne in Hk by congruence. now apply He.
Qed.

Lemma tied_setitem (fuel : nat) (key : string) (value : entry) :
  P key value -> preserves I (__setitem__ fuel key value).
Proof.
  intros Hv. unfold __setitem__, LRUCache_setitem.
  apply preserves_bind.
  - apply preserves_bind; [now apply tied_Cache_setitem|]. intros _.
    apply (preserves_lru_order_only I tied_order), order_only_update.
  - intros _. apply (preserves_lru_order_only I tied_order), order_only_up_parents.
Qed.

Lemma tied_run_op (fuel : nat) (o : op) (s : S3CacheManager.t) :
  (forall k e, inserts cache_path o = Some (k, e) -> P k e) -> I s -> I (run_op fuel o s).
Proof.
  intros Hins H. destruct o; cbn [run_op inserts] in *.
  - now apply (preserves_get I tied_order).
  - pose proof H as (_ & Hp & _). unfold put_file. unfold bind at 1, gets at 1.
    cbn [fst snd]. rewrite Hp. clear Hp. revert s H.
    apply preserves_bind; [apply (preserves_os I tied_disk)|]. intros _.
    apply preserves_bind; [apply (preserves_os I tied_disk)|]. intros _.
    apply tied_setitem. now apply Hins.
  - pose proof H as (_ & Hp & _). unfold put_folder. unfold bind at 1, gets at 1.
    cbn [fst snd]. rewrite Hp. clear Hp. revert s H.
    apply preserves_bind; [apply (preserves_os I tied_disk)|]. intros _.
    apply tied_setitem. now apply Hins.
  - now apply (preserves_invalidate I (fun _ => True) tied_order tied_disk
                 (fun _ _ _ _ => Logic.I) tied_delete).
Qed.

Lemma tied_run_ops (fuel : nat) (l : list op) (s : S3CacheManager.t) :
  (forall o k e, In o l -> inserts cache_path o = Some (k, e) -> P k e) ->
  I s -> I (run_ops fuel l s).
Proof.
  revert s. induction l as [|o l IH]; intros s Hl H; cbn [run_ops fold_left]; [exact H|].
  apply IH.
  - intros o' k e Hin. apply Hl. now right.
  - apply tied_run_op; [|exact H]. intros k e. apply Hl. now left.
Qed.

End Tied.

(** After any calls on an empty cache, every entry is the tuple that an
    insertion among the calls gave under its key, and the maximal size is
    the one the cache was made with. *)
Lemma entries_inserted (fuel : nat) (l : list op) (max_size : Z) (d : Disk.t)
    (cache_path : string) :
  let s := run_ops fuel l (empty_cache max_size d cache_path) in
  let c := S3CacheManager._cache_data s in
  LRU.maxsize c = max_size /\ S3CacheManager._cache_path s = cache_path /\
  forall k e, LRU.data c !! k = Some e ->
    exists o, In o l /\ inserts cache_path o = Some (k, e).
Proof.
  cbv zeta.
  apply (tied_run_ops max_size cache_path
           (fun k e => exists o, In o l /\ inserts cache_path o = Some (k, e))
           fuel l (empty_cache max_size d cache_path)).
  - intros o k e Hin Ho. now exists o.
  - split; [reflexivity|]. split; [reflexivity|]. intros k e Hk.
    cbn in Hk. rewrite lookup_empty in Hk. discriminate.
Qed.

(** ** An insertion that returns fits *)

Section Fits.

Import S3CacheManager S3CacheManager.CustomLRUCache.

Lemma setitem_returns_fits (fuel : nat) (key : string) (value : entry)
    (s : S3CacheManager.t) :
  is_Ret (__setitem__ fuel key value s).1 = true ->
  weight value <= LRU.maxsize (_cache_data s).
Proof.
  unfold __setitem__, LRUCache_setitem, Cache_setitem, _computeFileSize.
  unfold bind at 1. unfold bind at 1. unfold bind at 1. unfold gets at 1. cbn [fst snd].
  destruct (weight value >? LRU.maxsize (_cache_data s)) eqn:E; [discriminate | lia].
Qed.

Lemma os_cache_data {A} (m : M Disk.t A) (s : S3CacheManager.t) :
  _cache_data (os m s).2 = _cache_data s.
Proof. unfold os, zoom. now destruct (m (disk s)). Qed.

(** An insertion that returns has a weight within the maximal size. *)
Lemma insertion_returns_fits (fuel : nat) (o : op) (s : S3CacheManager.t) :
  is_insertion o = true -> returns fuel o s = true ->
  0 <= LRU.maxsize (_cache_data s).
Proof.
  destruct o as [| path ts content | path ts |]; try discriminate; intros _;
    cbn [returns]; [unfold put_file | unfold put_folder];
    unfold bind at 1, gets at 1; cbn [fst snd]; unfold bind at 1.
  - pose proof (os_cache_data (Disk.makedirs (Path.split_head (Path.join (_cache_path s) path))) s) as H1.
    destruct (os (Disk.makedirs _) s) as [[[]|e|] s1]; try discriminate. cbn [fst snd] in *.
    unfold bind at 1.
    pose proof (os_cache_data (Disk.write (Path.join (_cache_path s) path) content) s1) as H2.
    destruct (os (Disk.write _ content) s1) as [[[]|e|] s2]; try discriminate.
    cbn [fst snd] in *. intros H. apply setitem_returns_fits in H.
    cbn [weight] in H. rewrite H2, H1 in H. unfold len in H. lia.
  - pose proof (os_cache_data (Disk.makedirs (Path.split_head (Path.join (_cache_path s) path))) s) as H1.
    destruct (os (Disk.makedirs _) s) as [[[]|e|] s1]; try discriminate. cbn [fst snd] in *.
    intros H. apply setitem_returns_fits in H.
    cbn [weight] in H. rewrite H1 in H. exact H.
Qed.

End Fits.

(** * The provider and its collaborators *)

Section ProviderFacts.

Variable _checkpath : string -> bool.

Lemma s3_keeps_cache {A} (o : S3.op) (key : string) (m : M S3.t A) (C : S3CacheManager.t)
    (L : list S3FSProvider.call) :
  preserves (fun w => S3FSProvider._cache w = C /\ List.filter is_invalidate (S3FSProvider.log w) = L)
    (S3FSProvider.s3 o key m).
Proof.
  unfold S3FSProvider.s3. apply preserves_bind.
  - unfold S3FSProvider.record. apply preserves_modify. intros w [H1 H2]. simpl. split; [exact H1|].
    rewrite List.filter_app. simpl. rewrite app_nil_r. exact H2.
  - intros _. apply preserves_zoom_frame. intros w b H. exact H.
Qed.

Lemma put_keeps_cache (self filepath : string) (content : bytes) (w : S3FSProvider.world) :
  S3FSProvider._cache (S3FSProvider.put _checkpath self filepath content w).2 = S3FSProvider._cache w /\
  List.filter is_invalidate (S3FSProvider.log (S3FSProvider.put _checkpath self filepath content w).2)
  = List.filter is_invalidate (S3FSProvider.log w).
Proof.
  cut (preserves (fun w' => S3FSProvider._cache w' = S3FSProvider._cache w /\
            List.filter is_invalidate (S3FSProvider.log w')
            = List.filter is_invalidate (S3FSProvider.log w))
            (S3FSProvider.put _checkpath self filepath content)).
  { intros H. exact (H w (conj eq_refl eq_refl)). }
  unfold S3FSProvider.put, S3FSProvider.checkpath. apply preserves_bind.
  - destruct (_checkpath filepath); [apply preserves_ret | apply preserves_raise].
  - intros _. destruct (Path.endswith_slash (self ++ filepath)); [apply preserves_raise|].
    unfold S3FSProvider._put_file. apply preserves_try_except; [|apply preserves_raise].
    apply preserves_bind; [apply preserves_gets|]. intros t.
    apply preserves_bind; [apply s3_keeps_cache|]. intros _.
    apply preserves_for_each. intros key. apply s3_keeps_cache.
Qed.













(** A request that the store serves returns. *)
Lemma request_served (o : S3.op) (key : string) (b : S3.t) :
  S3.names_object o = false \/ key <> "" -> S3.refused b o key = false ->
  S3.request o key b = (Ret tt, b).
Proof.
  intros Hk Hr. unfold S3.request, S3.refused in *.
  assert (E : (S3.names_object o && String.eqb key "")%bool = false).
  { destruct Hk as [-> | Hk]; [reflexivity|].
    apply String.eqb_neq in Hk. rewrite Hk. apply andb_false_r. }
  rewrite E. now destruct (S3.answers b o key).
Qed.



End ProviderFacts.

(** * Reads through the cache *)

Ltac world_simpl :=
  cbn [S3FSProvider._cache S3FSProvider._bucket S3FSProvider.clock S3FSProvider.reads S3FSProvider.log
       fst snd ret S3.body S3.last_modified].

Section Freshness.

Variable _checkpath : string -> bool.

Lemma cachem_run {A} (m : M S3CacheManager.t A) (w : S3FSProvider.world) :
  S3FSProvider.cachem m w = ((m (S3FSProvider._cache w)).1, set_cache (m (S3FSProvider._cache w)).2 w).
Proof. unfold S3FSProvider.cachem, zoom. now destruct (m (S3FSProvider._cache w)). Qed.

Lemma s3_run {A} (o : S3.op) (key : string) (m : M S3.t A) (w : S3FSProvider.world) :
  S3FSProvider.s3 o key m w
  = ((m (S3FSProvider._bucket w)).1,
     with_bucket (m (S3FSProvider._bucket w)).2 (logged (S3FSProvider.Remote o key) w)).
Proof.
  unfold S3FSProvider.s3, bind, S3FSProvider.record, modify, zoom, with_bucket, logged. simpl.
  now destruct (m (S3FSProvider._bucket w)) as [[a| |] b].
Qed.

(** The calls that leave the bucket as it is *)
Lemma s3_preserves {A} (I : S3FSProvider.world -> Prop) (o : S3.op) (key : string)
    (m : M S3.t A) :
  (forall w c, I w -> I (logged c w)) ->
  (forall w b, I w -> (m (S3FSProvider._bucket w)).2 = b -> I (with_bucket b w)) ->
  preserves I (S3FSProvider.s3 o key m).
Proof.
  intros Hl Hb w Hw. rewrite s3_run. simpl. apply Hb; [|reflexivity]. apply Hl, Hw.
Qed.

Lemma load_run (key : string) (b : S3.t) (o : S3.object) :
  key <> "" -> S3.refused b S3.Head key = false -> S3.find key (S3.objects b) = Some o ->
  S3.load key b = (Ret (S3.last_modified o), b).
Proof.
  intros H0 H1 H2. unfold S3.load, bind.
  rewrite (request_served _ _ _ (or_intror H0) H1). now rewrite H2.
Qed.

Lemma get_run (key : string) (b : S3.t) (o : S3.object) :
  key <> "" -> S3.refused b S3.Get key = false -> S3.find key (S3.objects b) = Some o ->
  S3.get key b = (Ret (S3.body o), b).
Proof.
  intros H0 H1 H2. unfold S3.get, bind.
  rewrite (request_served _ _ _ (or_intror H0) H1). now rewrite H2.
Qed.

Lemma os_run {A} (m : M Disk.t A) (s : S3CacheManager.t) :
  S3CacheManager.os m s
  = ((m (S3CacheManager.disk s)).1,
     S3CacheManager.mk (S3CacheManager._cache_data s) (m (S3CacheManager.disk s)).2
       (S3CacheManager._cache_path s)).
Proof.
  unfold S3CacheManager.os, zoom. now destruct (m (S3CacheManager.disk s)).
Qed.

(** A computation that reads the disk and leaves it as it is *)
Lemma local_reads {A} (m : M Disk.t A) (w : S3FSProvider.world) :
  (m (S3CacheManager.disk (S3FSProvider._cache w))).2
  = S3CacheManager.disk (S3FSProvider._cache w) ->
  S3FSProvider.local m w = ((m (S3CacheManager.disk (S3FSProvider._cache w))).1, w).
Proof.
  intros H. unfold S3FSProvider.local. rewrite cachem_run, os_run. simpl. rewrite H.
  f_equal. destruct w as [[c d p] b k r l]. reflexivity.
Qed.

Lemma listdir_reads (p : string) (d : Disk.t) : (Disk.listdir p d).2 = d.
Proof. unfold Disk.listdir. now destruct (Disk.isdir p d). Qed.

Lemma read_reads (p : string) (d : Disk.t) : (Disk.read p d).2 = d.
Proof.
  unfold Disk.read. destruct (Disk.files d !! Disk.norm p); [|reflexivity].
  now destruct (Path.endswith_slash p).
Qed.

Lemma open_rb_run (p : string) (w : S3FSProvider.world) (content : bytes) :
  Disk.read p (S3CacheManager.disk (S3FSProvider._cache w))
  = (Ret content, S3CacheManager.disk (S3FSProvider._cache w)) ->
  S3FSProvider.open_rb (Some p) w = (Ret p, w).
Proof.
  intros H. unfold S3FSProvider.open_rb. unfold bind.
  rewrite local_reads by apply read_reads. now rewrite H.
Qed.














End Freshness.

(** * A store that answers every request *)

Section Responding.

Variable _checkpath : string -> bool.







End Responding.

(** * The order in which the store lists the keys *)

Section KeyOrder.

Lemma ascii_compare_refl (a : ascii) : Ascii.compare a a = Eq.
Proof. unfold Ascii.compare. apply N.compare_refl. Qed.

Lemma ascii_compare_trans (a b c : ascii) :
  Ascii.compare a b = Lt -> Ascii.compare b c = Lt -> Ascii.compare a c = Lt.
Proof.
  unfold Ascii.compare. rewrite !N.compare_lt_iff. apply N.lt_trans.
Qed.

Lemma string_compare_refl (s : string) : String.compare s s = Eq.
Proof.
  induction s as [|a s IH]; [reflexivity|]. cbn [String.compare].
  now rewrite ascii_compare_refl.
Qed.

Lemma string_compare_eq (s1 s2 : string) : String.compare s1 s2 = Eq <-> s1 = s2.
Proof.
  split; [apply String.compare_eq_iff|]. intros ->. apply string_compare_refl.
Qed.

Lemma string_compare_trans (s1 s2 s3 : string) :
  String.compare s1 s2 = Lt -> String.compare s2 s3 = Lt -> String.compare s1 s3 = Lt.
Proof.
  revert s2 s3. induction s1 as [|a s1 IH]; intros [|b s2] [|c s3]; cbn [String.compare];
    try easy.
  destruct (Ascii.compare a b) eqn:Eab; try discriminate.
  - apply Ascii.compare_eq_iff in Eab. subst b.
    destruct (Ascii.compare a c); try easy. apply IH.
  - intros _. destruct (Ascii.compare b c) eqn:Ebc; try discriminate.
    + apply Ascii.compare_eq_iff in Ebc. subst c. now rewrite Eab.
    + intros _. now rewrite (ascii_compare_trans a b c Eab Ebc).
Qed.

Lemma string_compare_gt (s1 s2 : string) :
  String.compare s1 s2 = Gt -> String.compare s2 s1 = Lt.
Proof.
  intros H. rewrite String.compare_antisym, H. reflexivity.
Qed.

Lemma string_compare_lt_ne (s1 s2 : string) : String.compare s1 s2 = Lt -> s1 <> s2.
Proof. intros H ->. now rewrite string_compare_refl in H. Qed.

Lemma find_place (key : string) (ko : string * S3.object) (l : list (string * S3.object)) :
  S3.find key (S3.place ko l) = if String.eqb ko.1 key then Some ko.2 else S3.find key l.
Proof.
  destruct ko as [k o]. cbn [fst snd].
  induction l as [|[k' o'] l IH]; [reflexivity|]. cbn [S3.place fst].
  destruct (String.compare k k') eqn:E; cbn [S3.find].
  - apply String.compare_eq_iff in E. subst k'.
    destruct (String.eqb k key); reflexivity.
  - reflexivity.
  - rewrite IH. destruct (String.eqb_spec k' key) as [->|Hne]; [|reflexivity].
    destruct (String.eqb_spec k key) as [->|_]; [|reflexivity].
    now rewrite string_compare_refl in E.
Qed.

(** The objects listed are the objects of the bucket. *)
Lemma find_in_key_order (key : string) (l : list (string * S3.object)) :
  S3.find key (S3.in_key_order l) = S3.find key l.
Proof.
  induction l as [|[k o] l IH]; [reflexivity|].
  cbn [S3.in_key_order fold_right]. rewrite find_place. cbn [fst snd S3.find].
  fold (S3.in_key_order l). now rewrite IH.
Qed.

Lemma in_place (x ko : string * S3.object) (l : list (string * S3.object)) :
  In x (S3.place ko l) -> x = ko \/ In x l.
Proof.
  induction l as [|ko' l IH]; cbn [S3.place].
  - intros [<-|[]]. now left.
  - destruct (String.compare ko.1 ko'.1).
    + intros [<-|H]; [now left | right; now right].
    + intros [<-|H]; [now left | now right].
    + intros [<-|H]; [right; now left|]. apply IH in H. destruct H; [now left | right; now right].
Qed.

Lemma placed_sorted (ko : string * S3.object) (l : list (string * S3.object)) :
  StronglySorted key_lt l -> StronglySorted key_lt (S3.place ko l).
Proof.
  induction 1 as [|ko' l Hs IH Hall]; cbn [S3.place].
  - constructor; constructor.
  - destruct (String.compare ko.1 ko'.1) eqn:E.
    + apply String.compare_eq_iff in E. constructor; [exact Hs|].
      eapply List.Forall_impl; [|exact Hall]. intros x Hx. unfold key_lt in *. now rewrite E.
    + constructor; [now constructor|]. constructor; [exact E|].
      eapply List.Forall_impl; [|exact Hall]. intros x Hx. unfold key_lt in *.
      now apply (string_compare_trans _ ko'.1).
    + constructor; [exact IH|]. apply List.Forall_forall. intros x Hx.
      apply in_place in Hx. destruct Hx as [->|Hx].
      * now apply string_compare_gt.
      * rewrite List.Forall_forall in Hall. now apply Hall.
Qed.

(** The listing is in the strict byte order of the keys. *)
Lemma in_key_order_sorted (l : list (string * S3.object)) :
  StronglySorted key_lt (S3.in_key_order l).
Proof.
  induction l as [|ko l IH]; [constructor|]. now apply placed_sorted.
Qed.

Lemma find_Some_In (key : string) (o : S3.object) (l : list (string * S3.object)) :
  S3.find key l = Some o -> In (key, o) l.
Proof.
  induction l as [|[k o'] l IH]; [discriminate|]. cbn [S3.find].
  destruct (String.eqb_spec k key) as [->|Hne].
  - intros [= ->]. now left.
  - intros H. right. now apply IH.
Qed.

Lemma In_find_Some (key : string) (o : S3.object) (l : list (string * S3.object)) :
  In (key, o) l -> is_Some (S3.find key l).
Proof.
  induction l as [|[k o'] l IH]; [easy|]. cbn [S3.find].
  destruct (String.eqb_spec k key) as [->|Hne]; [now eexists|].
  intros [[= -> ->]|H]; [contradiction | now apply IH].
Qed.

Lemma sorted_find (key : string) (o : S3.object) (l : list (string * S3.object)) :
  StronglySorted key_lt l -> In (key, o) l -> S3.find key l = Some o.
Proof.
  induction 1 as [|[k o'] l Hs IH Hall]; [easy|]. cbn [S3.find].
  intros [[= -> ->]|H]; [now rewrite String.eqb_refl|].
  destruct (String.eqb_spec k key) as [->|Hne]; [|now apply IH].
  rewrite List.Forall_forall in Hall. specialize (Hall _ H). unfold key_lt in Hall.
  cbn in Hall. now rewrite string_compare_refl in Hall.
Qed.

(** A key is listed when the bucket holds an object under it, with that
    object. *)
Lemma in_key_order_In (key : string) (o : S3.object) (l : list (string * S3.object)) :
  In (key, o) (S3.in_key_order l) <-> S3.find key l = Some o.
Proof.
  rewrite <- find_in_key_order. split.
  - apply sorted_find, in_key_order_sorted.
  - apply find_Some_In.
Qed.

Lemma sorted_filter {A} (R : A -> A -> Prop) (P : A -> Prop) `{forall x, Decision (P x)}
    (l : list A) :
  StronglySorted R l -> StronglySorted R (filter P l).
Proof.
  induction 1 as [|x l Hs IH Hall]; [constructor|]. rewrite filter_cons.
  destruct (decide (P x)); [|exact IH]. constructor; [exact IH|].
  apply List.Forall_forall. intros y Hy. apply list_elem_of_In, list_elem_of_filter in Hy.
  rewrite List.Forall_forall in Hall. apply Hall. now apply list_elem_of_In.
Qed.

Lemma sorted_map_fst (l : list (string * S3.object)) :
  StronglySorted key_lt l ->
  StronglySorted (fun a b => String.compare a b = Lt) (map fst l).
Proof.
  induction 1 as [|x l Hs IH Hall]; [constructor|]. cbn [map]. constructor; [exact IH|].
  apply List.Forall_forall. intros y Hy. apply in_map_iff in Hy. destruct Hy as [z [<- Hz]].
  rewrite List.Forall_forall in Hall. now apply Hall.
Qed.

(** The keys below a prefix are listed in the strict byte order. *)
Lemma keys_under_sorted (prefix : string) (l : list (string * S3.object)) :
  StronglySorted (fun a b => String.compare a b = Lt) (keys_under prefix l).
Proof.
  unfold keys_under. apply sorted_map_fst, sorted_filter, in_key_order_sorted.
Qed.

(** They are the keys of the bucket that extend the prefix. *)
Lemma in_keys_under_iff (prefix key : string) (l : list (string * S3.object)) :
  In key (keys_under prefix l) <->
  Path.startswith prefix key = true /\ key <> prefix /\ is_Some (S3.find key l).
Proof.
  unfold keys_under. rewrite in_map_iff. split.
  - intros [[k o] [<- H]]. apply list_elem_of_In, list_elem_of_filter in H.
    destruct H as [[H1 H2] H3]. cbn [fst] in *. repeat split; try assumption.
    apply list_elem_of_In, in_key_order_In in H3. now exists o.
  - intros [H1 [H2 [o H3]]]. exists (key, o). split; [reflexivity|].
    apply list_elem_of_In, list_elem_of_filter. split; [now split|].
    apply list_elem_of_In. now apply in_key_order_In.
Qed.

Lemma in_keys_under (prefix key : string) (o : S3.object) (l : list (string * S3.object)) :
  S3.find key l = Some o -> Path.startswith prefix key = true -> key <> prefix ->
  In key (keys_under prefix l).
Proof.
  intros Hin Hs Hne. apply in_keys_under_iff. repeat split; try assumption. now exists o.
Qed.

Lemma keys_under_start (prefix key : string) (l : list (string * S3.object)) :
  In key (keys_under prefix l) -> Path.startswith prefix key = true /\ key <> prefix.
Proof. intros H. apply in_keys_under_iff in H. destruct H as [H1 [H2 _]]. now split. Qed.

End KeyOrder.

(** * The names that [list] returns *)

Section Listing.

Import Path.

Lemma join_slash_nonempty (l : list string) :
  l <> [] -> Forall (fun c => c <> "") l -> S3FSProvider.join_slash l <> "".
Proof.
  intros Hl Hall. destruct l as [|a l]; [contradiction|].
  inversion Hall as [|? ? Ha _]; subst. simpl.
  destruct l; [exact Ha|]. destruct a; [contradiction | discriminate].
Qed.

Lemma relpath_nonempty (path base : string) : S3FSProvider.relpath path base <> "".
Proof.
  unfold S3FSProvider.relpath.
  destruct (filter (fun c => c <> "") (S3FSProvider.split_slash (drop_prefix base path)))
    as [|a l] eqn:E; [discriminate|].
  apply join_slash_nonempty; [discriminate|].
  rewrite <- E. apply Forall_forall. intros x Hx.
  apply list_elem_of_filter in Hx. tauto.
Qed.

(** A key that ends with "/" keeps its "/" in the name listed. *)
Lemma compute_relpath_folder (path base : string) :
  endswith_slash path = true ->
  endswith_slash (S3FSProvider._compute_relpath path base) = true.
Proof.
  intros H. unfold S3FSProvider._compute_relpath. rewrite H. simpl.
  destruct (endswith_slash (S3FSProvider.relpath path base)) eqn:E; [exact E|].
  simpl. destruct (String.eqb (S3FSProvider.relpath path base) "") eqn:E1.
  - apply String.eqb_eq in E1. now apply relpath_nonempty in E1.
  - simpl. apply endswith_app_slash.
Qed.

Lemma upto_slash_last (l r : list ascii) :
  S3.upto_slash l = Some r -> exists r', r = (r' ++ [slash])%list.
Proof.
  revert r. induction l as [|a l IH]; intros r; simpl; [discriminate|].
  destruct (is_slash a) eqn:E.
  - intros [= <-]. exists []. simpl. f_equal.
    unfold is_slash in E. now apply Ascii.eqb_eq in E.
  - destruct (S3.upto_slash l) as [r0|]; [|discriminate].
    intros [= <-]. destruct (IH r0 eq_refl) as [r' ->]. now exists (a :: r').
Qed.

Lemma endswith_chars_snoc (s : string) (l : list ascii) :
  chars s = (l ++ [slash])%list -> endswith_slash s = true.
Proof.
  intros H. rewrite endswith_slash_chars, H, rev_app_distr. reflexivity.
Qed.

Lemma dedup_adjacent_In (l : list string) (x : string) :
  In x (S3.dedup_adjacent l) -> In x l.
Proof.
  induction l as [|a l IH]; [easy|]. simpl.
  destruct l as [|b l']; [easy|].
  destruct (String.eqb a b).
  - intros H. right. now apply IH.
  - intros [H|H]; [now left | right; now apply IH].
Qed.

Lemma common_prefixes_folders (p : string) (b : S3.t) (l : list string) :
  (S3.common_prefixes p b).1 = Ret l -> Forall (fun k => endswith_slash k = true) l.
Proof.
  unfold S3.common_prefixes, bind, gets.
  destruct (S3.request S3.ListV2 p b) as [[u| |] b']; try discriminate.
  simpl. intros [= <-]. apply Forall_forall. intros k Hk.
  apply list_elem_of_In, dedup_adjacent_In, list_elem_of_In, list_elem_of_omap in Hk.
  destruct Hk as [[key o] [_ Hk]]. simpl in Hk.
  destruct (startswith p key); [|discriminate].
  destruct (S3.upto_slash (chars (drop_prefix p key))) as [r|] eqn:E; [|discriminate].
  injection Hk as <-. destruct (upto_slash_last _ _ E) as [r' ->].
  apply (endswith_chars_snoc _ (chars p ++ r')).
  rewrite chars_app, chars_str, app_assoc. reflexivity.
Qed.

Lemma s3_result {A} (o : S3.op) (key : string) (m : M S3.t A) (w : S3FSProvider.world) :
  (S3FSProvider.s3 o key m w).1 = (m (S3FSProvider._bucket w)).1.
Proof.
  unfold S3FSProvider.s3, bind, S3FSProvider.record, modify, zoom. simpl.
  now destruct (m (S3FSProvider._bucket w)).
Qed.

Lemma flat_map_allowed (folders files : bool) (objects : list string) :
  Forall (allowed folders files)
    (flat_map (fun f =>
       ((if (endswith_slash f && folders)%bool then [f] else []) ++
        (if (negb (endswith_slash f) && files)%bool then [f] else []))%list) objects).
Proof.
  apply Forall_forall. intros x Hx. apply list_elem_of_In, in_flat_map in Hx.
  destruct Hx as [f [_ Hx]]. unfold allowed.
  apply in_app_or in Hx. destruct Hx as [Hx|Hx].
  - destruct (endswith_slash f) eqn:E, folders; simpl in Hx; try easy.
    destruct Hx as [<-|[]]. now rewrite E.
  - destruct (endswith_slash f) eqn:E, files; simpl in Hx; try easy.
    destruct Hx as [<-|[]]. now rewrite E.
Qed.

Lemma flat_map_sub (folders files : bool) (objects : list string) (x : string) :
  In x (flat_map (fun f =>
       ((if (endswith_slash f && folders)%bool then [f] else []) ++
        (if (negb (endswith_slash f) && files)%bool then [f] else []))%list) objects) ->
  In x objects.
Proof.
  intros Hx. apply in_flat_map in Hx. destruct Hx as [f [Hf Hx]].
  apply in_app_or in Hx. destruct Hx as [Hx|Hx].
  - destruct (endswith_slash f && folders)%bool; simpl in Hx; [|easy].
    now destruct Hx as [<-|[]].
  - destruct (negb (endswith_slash f) && files)%bool; simpl in Hx; [|easy].
    now destruct Hx as [<-|[]].
Qed.

Lemma list_allowed (self : string) (folders files recursive : bool)
    (w : S3FSProvider.world) (l : list string) :
  (S3FSProvider.list self folders files recursive w).1 = Ret l ->
  Forall (allowed folders files) l.
Proof.
  unfold S3FSProvider.list. unfold bind at 1.
  match goal with |- context [match ?m w with _ => _ end] => destruct (m w) as [[objects| |] w'] end;
    simpl; try discriminate.
  intros [= <-]. apply flat_map_allowed.
Qed.

Lemma compute_relpath_nonempty (path base : string) :
  S3FSProvider._compute_relpath path base <> "".
Proof.
  unfold S3FSProvider._compute_relpath.
  pose proof (relpath_nonempty path base) as H.
  destruct (_ && _)%bool; [|exact H].
  destruct (S3FSProvider.relpath path base); [contradiction | discriminate].
Qed.

Lemma list_nonempty (self : string) (folders files recursive : bool)
    (w : S3FSProvider.world) (l : list string) :
  (S3FSProvider.list self folders files recursive w).1 = Ret l ->
  Forall (fun name => name <> "") l.
Proof.
  unfold S3FSProvider.list. unfold bind at 1.
  destruct recursive.
  - unfold bind at 1.
    destruct (S3FSProvider.s3 S3.List self (S3.filter_all self) w) as [[objects| |] w'];
      simpl; try discriminate.
    intros [= <-]. apply Forall_forall. intros x Hx.
    apply list_elem_of_In, flat_map_sub, in_map_iff in Hx.
    destruct Hx as [k [<- _]]. apply compute_relpath_nonempty.
  - unfold bind at 1.
    destruct (S3FSProvider.s3 S3.ListV2 self (S3.common_prefixes self) w) as [[objects| |] w'];
      simpl; try discriminate.
    intros [= <-]. apply Forall_forall. intros x Hx.
    apply list_elem_of_In, flat_map_sub, in_map_iff in Hx.
    destruct Hx as [k [<- _]]. apply compute_relpath_nonempty.
Qed.

(** The listing that is not recursive holds common prefixes only. *)
Lemma list_folders_only (self : string) (folders files : bool)
    (w : S3FSProvider.world) (l : list string) :
  (S3FSProvider.list self folders files false w).1 = Ret l ->
  Forall (fun name => endswith_slash name = true) l.
Proof.
  unfold S3FSProvider.list. unfold bind at 1. unfold bind at 1.
  pose proof (s3_result S3.ListV2 self (S3.common_prefixes self) w) as Hr.
  destruct (S3FSProvider.s3 S3.ListV2 self (S3.common_prefixes self) w) as [[objects| |] w'];
    simpl in *; try discriminate.
  intros [= <-]. symmetry in Hr. apply common_prefixes_folders in Hr.
  apply Forall_forall. intros x Hx. apply list_elem_of_In, flat_map_sub in Hx.
  apply in_map_iff in Hx. destruct Hx as [k [<- Hk]].
  apply compute_relpath_folder.
  rewrite Forall_forall in Hr. apply Hr. now apply list_elem_of_In.
Qed.

End Listing.

Section Relpath.

Import Path.

Lemma str_app (l1 l2 : list ascii) : str (l1 ++ l2) = str l1 ++ str l2.
Proof.
  induction l1 as [|a l1 IH]; [reflexivity|].
  change (String a (str (l1 ++ l2)) = String a (str l1 ++ str l2)). now rewrite IH.
Qed.

Lemma split_chars_nonempty (cur l : list ascii) : S3FSProvider.split_chars cur l <> [].
Proof.
  revert cur. induction l as [|a l IH]; intros cur; cbn; [discriminate|].
  destruct (is_slash a); [discriminate | apply IH].
Qed.

Lemma join_split_chars (cur l : list ascii) :
  S3FSProvider.join_slash (S3FSProvider.split_chars cur l) = str (rev cur ++ l).
Proof.
  revert cur. induction l as [|a l IH]; intros cur.
  - cbn. now rewrite app_nil_r.
  - cbn [S3FSProvider.split_chars]. destruct (is_slash a) eqn:E.
    + unfold is_slash in E. apply Ascii.eqb_eq in E. subst a.
      cbn [S3FSProvider.join_slash].
      destruct (S3FSProvider.split_chars [] l) as [|x r] eqn:S.
      { now apply split_chars_nonempty in S. }
      rewrite <- S, IH. cbn [rev app]. now rewrite str_app.
    + rewrite IH. cbn [rev]. now rewrite <- app_assoc.
Qed.

Lemma join_split (s : string) : S3FSProvider.join_slash (S3FSProvider.split_slash s) = s.
Proof. unfold S3FSProvider.split_slash. rewrite join_split_chars. apply str_chars. Qed.

Lemma split_chars_snoc (cur l : list ascii) :
  S3FSProvider.split_chars cur (l ++ [slash])
  = (S3FSProvider.split_chars cur l ++ [""])%list.
Proof.
  revert cur. induction l as [|a l IH]; intros cur; [reflexivity|].
  cbn [app S3FSProvider.split_chars]. destruct (is_slash a); [|apply IH].
  now rewrite IH.
Qed.

Lemma chars_drop_last (s : string) :
  endswith_slash s = true -> chars s = (chars (drop_last s) ++ [slash])%list.
Proof.
  intros H. rewrite <- (drop_last_app_slash s H) at 1. now rewrite chars_app.
Qed.

Lemma drop_prefix_app (base rel : string) : drop_prefix base (base ++ rel) = rel.
Proof.
  unfold drop_prefix. rewrite chars_app, <- length_chars, drop_app_length. apply str_chars.
Qed.

Lemma filter_all_nonempty (l : list string) :
  Forall (fun c => c <> "") l -> filter (fun c => c <> "") l = l.
Proof.
  induction 1 as [|x l Hx _ IH]; [reflexivity|].
  rewrite filter_cons. destruct (decide (x <> "")); [now rewrite IH | contradiction].
Qed.

Lemma filter_snoc_empty (l : list string) :
  filter (fun c => c <> "") (l ++ [""])%list = filter (fun c => c <> "") l.
Proof. rewrite filter_app. cbn. apply app_nil_r. Qed.

(** The last component of a string that ends with "/" is empty. *)
Lemma split_last_empty (s : string) :
  endswith_slash s = true -> In "" (S3FSProvider.split_slash s).
Proof.
  intros H. unfold S3FSProvider.split_slash. rewrite (chars_drop_last s H), split_chars_snoc.
  apply in_or_app. right. now left.
Qed.

Lemma relpath_clean (base name : string) :
  Forall (fun c => c <> "")
    (S3FSProvider.split_slash (S3CacheManager.CustomLRUCache.strip_slash name)) ->
  S3FSProvider.relpath (base ++ name) base = S3CacheManager.CustomLRUCache.strip_slash name.
Proof.
  intros Hcomps. unfold S3FSProvider.relpath. rewrite drop_prefix_app.
  unfold S3CacheManager.CustomLRUCache.strip_slash in *.
  destruct (endswith_slash name) eqn:E.
  - unfold S3FSProvider.split_slash at 1.
    rewrite (chars_drop_last name E), split_chars_snoc, filter_snoc_empty.
    fold (S3FSProvider.split_slash (drop_last name)).
    rewrite (filter_all_nonempty _ Hcomps).
    destruct (S3FSProvider.split_slash (drop_last name)) as [|x r] eqn:S.
    { now apply split_chars_nonempty in S. }
    rewrite <- S. apply join_split.
  - rewrite (filter_all_nonempty _ Hcomps).
    destruct (S3FSProvider.split_slash name) as [|x r] eqn:S.
    { now apply split_chars_nonempty in S. }
    rewrite <- S. apply join_split.
Qed.

(** The name computed for the key [base ++ name] is [name]. *)
Lemma compute_relpath_clean (base name : string) :
  clean name -> S3FSProvider._compute_relpath (base ++ name) base = name.
Proof.
  intros [Hne Hall].
  assert (Hcomps : Forall (fun c => c <> "")
                     (S3FSProvider.split_slash (S3CacheManager.CustomLRUCache.strip_slash name))).
  { eapply Forall_impl; [exact Hall|]. intros c H. apply H. }
  unfold S3FSProvider._compute_relpath.
  rewrite (relpath_clean base name Hcomps), (endswith_app base name Hne).
  unfold S3CacheManager.CustomLRUCache.strip_slash in *.
  destruct (endswith_slash name) eqn:E; [|reflexivity].
  destruct (endswith_slash (drop_last name)) eqn:E'.
  { apply split_last_empty in E'. rewrite Forall_forall in Hcomps.
    exfalso. apply (Hcomps ""); [now apply list_elem_of_In | reflexivity]. }
  destruct (String.eqb (drop_last name) "") eqn:E''.
  { apply String.eqb_eq in E''. rewrite E'' in Hcomps. cbn in Hcomps.
    inversion Hcomps; congruence. }
  cbn [negb andb]. now apply drop_last_app_slash.
Qed.

End Relpath.

(** * The bucket, and what the provider does to it *)

Section Monad.

Context {S : Type}.

Lemma bind_returns {A B} (m : M S A) (k : A -> M S B) (s s' : S) (b : B) :
  bind m k s = (Ret b, s') -> exists a s1, m s = (Ret a, s1) /\ k a s1 = (Ret b, s').
Proof.
  unfold bind. destruct (m s) as [[a| |] s1]; try discriminate.
  intros H. now exists a, s1.
Qed.

(** As [preserves_bind], for the values the first computation can return *)
Lemma preserves_bind_returned {A B} (I : S -> Prop) (m : M S A) (k : A -> M S B) :
  preserves I m ->
  (forall a, (exists s s', m s = (Ret a, s')) -> preserves I (k a)) ->
  preserves I (bind m k).
Proof.
  intros Hm Hk s Hs. unfold bind. specialize (Hm s Hs).
  destruct (m s) as [[a| |] s1] eqn:E; simpl in *; try exact Hm.
  apply Hk; [now exists s, s1 | exact Hm].
Qed.

Lemma preserves_for_each_in {A} (I : S -> Prop) (l : list A) (body : A -> M S unit) :
  (forall x, In x l -> preserves I (body x)) -> preserves I (for_each l body).
Proof.
  induction l as [|x l IH]; intros H; simpl; [apply preserves_ret|].
  apply preserves_bind; [apply H; now left|]. intros _. apply IH.
  intros y Hy. apply H. now right.
Qed.

End Monad.

Lemma try_except_returns {S A} (m h : M S A) (sel : exn -> bool) (s s' : S) (a : A) :
  (forall s1, (h s1).1 <> Ret a) ->
  try_except m sel h s = (Ret a, s') -> m s = (Ret a, s').
Proof.
  intros Hh. unfold try_except. destruct (m s) as [[x| e |] s1]; try easy.
  destruct (sel e); [|easy]. intros H. exfalso. apply (Hh s1). now rewrite H.
Qed.

Section Bucket.

Lemma append_assoc (a b c : string) : (a ++ b) ++ c = a ++ b ++ c.
Proof.
  induction a as [|x a IH]; [reflexivity|].
  change (String x ((a ++ b) ++ c) = String x (a ++ b ++ c)). now rewrite IH.
Qed.

Lemma find_store_eq (key : string) (o : S3.object) (l : list (string * S3.object)) :
  S3.find key (S3.store key o l) = Some o.
Proof.
  induction l as [|[k o'] l IH]; simpl.
  - now rewrite String.eqb_refl.
  - destruct (String.eqb k key) eqn:E; simpl; rewrite E; [reflexivity | exact IH].
Qed.

Lemma find_store_ne (key key' : string) (o : S3.object) (l : list (string * S3.object)) :
  key <> key' -> S3.find key (S3.store key' o l) = S3.find key l.
Proof.
  intros Hne. induction l as [|[k o'] l IH]; simpl.
  - destruct (String.eqb key' key) eqn:E; [|reflexivity].
    apply String.eqb_eq in E. congruence.
  - destruct (String.eqb k key') eqn:E; simpl.
    + apply String.eqb_eq in E. subst k.
      destruct (String.eqb key' key) eqn:E'; [|reflexivity].
      apply String.eqb_eq in E'. congruence.
    + now rewrite IH.
Qed.

Lemma find_erase_eq (key : string) (l : list (string * S3.object)) :
  S3.find key (S3.erase key l) = None.
Proof.
  unfold S3.erase. induction l as [|[k o'] l IH]; [reflexivity|].
  rewrite filter_cons. simpl. destruct (decide (k <> key)) as [Hne|Heq]; [|exact IH].
  simpl. destruct (String.eqb k key) eqn:E; [|exact IH].
  apply String.eqb_eq in E. contradiction.
Qed.

Lemma find_erase_ne (key key' : string) (l : list (string * S3.object)) :
  key <> key' -> S3.find key (S3.erase key' l) = S3.find key l.
Proof.
  intros Hne. unfold S3.erase. induction l as [|[k o'] l IH]; [reflexivity|].
  rewrite filter_cons. simpl. destruct (decide (k <> key')) as [Hk|Hk].
  - simpl. now rewrite IH.
  - rewrite IH. destruct (String.eqb k key) eqn:E; [|reflexivity].
    apply String.eqb_eq in E. subst k. exfalso. apply Hk. congruence.
Qed.

Lemma find_store_is_Some (key key' : string) (o : S3.object) (l : list (string * S3.object)) :
  is_Some (S3.find key l) -> is_Some (S3.find key (S3.store key' o l)).
Proof.
  intros H. destruct (String.eqb_spec key key') as [->|Hne].
  - rewrite find_store_eq. now exists o.
  - now rewrite find_store_ne.
Qed.

Lemma cumulate_folders (acc : string) (parts : list string) (k : string) :
  In k (S3FSProvider.cumulate acc parts) -> Path.endswith_slash k = true.
Proof.
  revert acc. induction parts as [|a l IH]; intros acc; simpl; [easy|].
  intros [<-|H]; [|now apply IH in H].
  rewrite <- append_assoc. apply endswith_app_slash.
Qed.

Lemma find_with_folders_in (t : Z) (keys : list string) (l : list (string * S3.object))
    (k : string) :
  In k keys -> S3.find k (with_folders t keys l) = Some (S3.Object t []).
Proof.
  unfold with_folders. revert l. induction keys as [|a keys IH] using rev_ind; intros l; [easy|].
  rewrite fold_left_app. simpl. intros H. apply in_app_or in H.
  destruct (String.eqb_spec k a) as [->|Hne]; [apply find_store_eq|].
  rewrite find_store_ne by exact Hne. apply IH.
  destruct H as [H|[H|[]]]; [exact H | congruence].
Qed.

Lemma find_with_folders_out (t : Z) (keys : list string) (l : list (string * S3.object))
    (k : string) :
  ~ In k keys -> S3.find k (with_folders t keys l) = S3.find k l.
Proof.
  unfold with_folders. revert l. induction keys as [|a keys IH]; intros l; [easy|].
  simpl. intros H. rewrite IH by tauto. apply find_store_ne. intros ->. apply H. now left.
Qed.

(** A request that returns was valid and served. *)
Lemma request_returns (o : S3.op) (key : string) (b b' : S3.t) :
  S3.request o key b = (Ret tt, b') ->
  b' = b /\ (S3.names_object o = true -> key <> "") /\ S3.refused b o key = false.
Proof.
  unfold S3.request, S3.refused.
  destruct (S3.names_object o) eqn:N; simpl.
  - destruct (String.eqb_spec key "") as [->|Hne]; [discriminate|].
    destruct (S3.answers b o key); try discriminate. intros [= <-]. now repeat split.
  - destruct (S3.answers b o key); try discriminate. intros [= <-].
    repeat split. discriminate.
Qed.

Lemma request_state (o : S3.op) (key : string) (b : S3.t) : (S3.request o key b).2 = b.
Proof.
  unfold S3.request. destruct (_ && _)%bool; [reflexivity|].
  now destruct (S3.answers b o key).
Qed.

(** A request with a change of the bucket [f]: the state it leaves *)
Lemma change_state (o : S3.op) (key : string) (f : S3.t -> S3.t) (b : S3.t) :
  ((do* S3.request o key in modify f) b).2 = b \/
  ((do* S3.request o key in modify f) b = (Ret tt, f b) /\ key <> "" /\
   S3.refused b o key = false) \/
  (S3.names_object o = false /\ (do* S3.request o key in modify f) b = (Ret tt, f b)).
Proof.
  unfold bind. pose proof (request_state o key b) as Hs.
  destruct (S3.request o key b) as [[[]| |] b'] eqn:E; simpl in *; subst b';
    [|now left|now left].
  apply request_returns in E. destruct E as [_ [Hk Hr]].
  destruct (S3.names_object o) eqn:N.
  - right. left. unfold modify. repeat split; [now apply Hk | exact Hr].
  - right. right. now split.
Qed.

Lemma change_returns (o : S3.op) (key : string) (f : S3.t -> S3.t) (b b' : S3.t) :
  (do* S3.request o key in modify f) b = (Ret tt, b') ->
  b' = f b /\ (S3.names_object o = true -> key <> "") /\ S3.refused b o key = false.
Proof.
  unfold bind. destruct (S3.request o key b) as [[[]| |] b1] eqn:E; try discriminate.
  apply request_returns in E. destruct E as [-> [Hk Hr]].
  unfold modify. intros [= <-]. now repeat split.
Qed.

Lemma get_returns (key : string) (b b' : S3.t) (content : bytes) :
  S3.get key b = (Ret content, b') ->
  b' = b /\ exists o, S3.find key (S3.objects b) = Some o /\ content = S3.body o.
Proof.
  unfold S3.get, bind.
  destruct (S3.request S3.Get key b) as [[[]| |] b1] eqn:E; try discriminate.
  apply request_returns in E. destruct E as [-> _].
  destruct (S3.find key (S3.objects b)) as [o|]; [|discriminate].
  intros [= <- <-]. split; [reflexivity|]. now exists o.
Qed.

Lemma obliging_refused (b : S3.t) (o : S3.op) (key : string) :
  obliging b -> S3.refused b o key = false.
Proof. intros H. unfold S3.refused. now rewrite H. Qed.

Lemma change_run (o : S3.op) (key : string) (f : S3.t -> S3.t) (b : S3.t) :
  S3.names_object o = false \/ key <> "" -> S3.refused b o key = false ->
  (do* S3.request o key in modify f) b = (Ret tt, f b).
Proof. intros Hk Hr. unfold bind. now rewrite (request_served _ _ _ Hk Hr). Qed.

End Bucket.

Section Exists.

Variable refusal_code : string.

(** [exists] is one metadata request: it turns the answer of the store
    into a boolean and lets out the errors that are not a [ClientError]. *)
Lemma exists_run (self : string) (path : option string) (w : S3FSProvider.world) :
  let key := match path with None => self | Some path => self ++ path end in
  let b := S3FSProvider._bucket w in
  S3FSProvider.exists_ refusal_code self path w
  = (if String.eqb key "" then Raise ParamValidationError
     else match S3.answers b S3.Head key with
          | S3.served => Ret (bool_decide (is_Some (S3.find key (S3.objects b))))
          | S3.error_response => Ret (negb (String.eqb refusal_code "404"))
          | S3.no_response => Raise BotoCoreError
          end,
     logged (S3FSProvider.Remote S3.Head key) w).
Proof.
  cbv zeta. unfold S3FSProvider.exists_.
  set (key := match path with None => self | Some p => self ++ p end).
  unfold try_except, bind at 1. rewrite s3_run.
  unfold S3.load, S3.request, gets, bind, S3.load_error_code. simpl.
  unfold with_bucket, logged.
  destruct (String.eqb key ""); [reflexivity|].
  destruct (S3.answers (S3FSProvider._bucket w) S3.Head key) eqn:E; simpl.
  - destruct (S3.find key (S3.objects (S3FSProvider._bucket w))) eqn:F; simpl.
    + reflexivity.
    + rewrite E. reflexivity.
  - rewrite E. now destruct (String.eqb refusal_code "404").
  - reflexivity.
Qed.

End Exists.

Section Put.

Lemma for_each_put_object (t : Z) (keys : list string) (w w' : S3FSProvider.world) :
  for_each keys (fun key => S3FSProvider.s3 S3.PutObject key (S3.put_object t key)) w
  = (Ret tt, w') ->
  S3FSProvider._cache w' = S3FSProvider._cache w /\
  S3.objects (S3FSProvider._bucket w')
  = with_folders t keys (S3.objects (S3FSProvider._bucket w)).
Proof.
  revert w. induction keys as [|key keys IH]; intros w; simpl.
  - intros [= <-]. now split.
  - unfold bind at 1. rewrite s3_run.
    destruct (S3.put_object t key (S3FSProvider._bucket w)) as [[[]| |] b1] eqn:E;
      try discriminate.
    apply change_returns in E. destruct E as [-> _].
    cbn [fst snd]. intros H. apply IH in H. simpl in H. exact H.
Qed.

Lemma put_file_stores_object (fullpath : string) (content : bytes)
    (w w' : S3FSProvider.world) :
  S3FSProvider._put_file fullpath content w = (Ret tt, w') ->
  let t := S3FSProvider.clock w (S3FSProvider.reads w) in
  S3FSProvider._cache w' = S3FSProvider._cache w /\
  S3.objects (S3FSProvider._bucket w')
  = with_folders t (rev (folder_keys fullpath))
      (S3.store fullpath (S3.Object t content) (S3.objects (S3FSProvider._bucket w))) /\
  fullpath <> "".
Proof.
  intros H. cbv zeta. unfold S3FSProvider._put_file in H.
  apply try_except_returns in H; [|intros s1; discriminate].
  unfold bind at 1, S3FSProvider.server_time, gets in H. simpl in H.
  unfold bind at 1 in H. rewrite s3_run in H.
  destruct (S3.upload_fileobj (S3FSProvider.clock w (S3FSProvider.reads w)) content fullpath
              (S3FSProvider._bucket w)) as [[[]| |] b1] eqn:E; try discriminate.
  apply change_returns in E. destruct E as [-> [Hk _]].
  cbn [fst snd] in H. apply for_each_put_object in H. simpl in H.
  split; [apply H|]. split; [apply H|]. now apply Hk.
Qed.

(** The object just uploaded is not one of the folder keys. *)
Lemma find_uploaded (fullpath : string) (t : Z) (content : bytes)
    (l : list (string * S3.object)) :
  Path.endswith_slash fullpath = false ->
  S3.find fullpath
    (with_folders t (rev (folder_keys fullpath)) (S3.store fullpath (S3.Object t content) l))
  = Some (S3.Object t content).
Proof.
  intros E. rewrite find_with_folders_out; [apply find_store_eq|].
  intros Hin. apply in_rev, cumulate_folders in Hin. congruence.
Qed.

Variable _checkpath : string -> bool.

(** What a [put] that returns has done. *)
Lemma put_returns (self filepath : string) (content : bytes) (w w' : S3FSProvider.world) :
  S3FSProvider.put _checkpath self filepath content w = (Ret tt, w') ->
  _checkpath filepath = true /\
  Path.endswith_slash (self ++ filepath) = false /\
  S3FSProvider._cache w' = S3FSProvider._cache w /\
  S3.objects (S3FSProvider._bucket w')
  = with_folders (time_of w) (rev (folder_keys (self ++ filepath)))
      (S3.store (self ++ filepath) (S3.Object (time_of w) content)
         (S3.objects (S3FSProvider._bucket w))) /\
  self ++ filepath <> "".
Proof.
  unfold S3FSProvider.put, S3FSProvider.checkpath. unfold bind at 1.
  destruct (_checkpath filepath); simpl; [|discriminate].
  destruct (Path.endswith_slash (self ++ filepath)) eqn:E; [discriminate|].
  intros H. apply put_file_stores_object in H. destruct H as [H1 [H2 H3]].
  now repeat split.
Qed.

(** [put] changes no answer of the store. *)
Lemma put_keeps_answers (self filepath : string) (content : bytes)
    (w w' : S3FSProvider.world) :
  S3FSProvider.put _checkpath self filepath content w = (Ret tt, w') ->
  S3.answers (S3FSProvider._bucket w') = S3.answers (S3FSProvider._bucket w).
Proof.
  cut (preserves (fun w' => S3.answers (S3FSProvider._bucket w') = S3.answers (S3FSProvider._bucket w))
         (S3FSProvider.put _checkpath self filepath content)).
  { intros Hp H. specialize (Hp w eq_refl). now rewrite H in Hp. }
  unfold S3FSProvider.put, S3FSProvider.checkpath. apply preserves_bind.
  - destruct (_checkpath filepath); [apply preserves_ret | apply preserves_raise].
  - intros _. destruct (Path.endswith_slash (self ++ filepath)); [apply preserves_raise|].
    unfold S3FSProvider._put_file. apply preserves_try_except; [|apply preserves_raise].
    apply preserves_bind; [apply preserves_gets|]. intros t.
    apply preserves_bind.
    + apply s3_preserves; [intros w0 c H; exact H|]. intros w0 b H <-.
      unfold S3.upload_fileobj.
      destruct (change_state S3.Upload (self ++ filepath)
                  (fun b => S3.mk (S3.store (self ++ filepath) (S3.Object t content)
                                     (S3.objects b)) (S3.answers b))
                  (S3FSProvider._bucket w0)) as [E|[[E _]|[_ E]]]; rewrite E; exact H.
    + intros _. apply preserves_for_each. intros key.
      apply s3_preserves; [intros w0 c H; exact H|]. intros w0 b H <-.
      unfold S3.put_object.
      destruct (change_state S3.PutObject key
                  (fun b => S3.mk (S3.store key (S3.Object t []) (S3.objects b))
                              (S3.answers b))
                  (S3FSProvider._bucket w0)) as [E|[[E _]|[_ E]]]; rewrite E; exact H.
Qed.

End Put.

Section Delete.

Variable _checkpath : string -> bool.

Lemma holds_logged key v w c : holds key v w -> holds key v (logged c w).
Proof. exact id. Qed.

Lemma holds_cachem {A} key v (m : M S3CacheManager.t A) :
  preserves (holds key v) (S3FSProvider.cachem m).
Proof. unfold S3FSProvider.cachem. apply preserves_zoom_frame. intros w c H. exact H. Qed.

Lemma holds_record key v c : preserves (holds key v) (S3FSProvider.record c).
Proof. unfold S3FSProvider.record. apply preserves_modify. intros w H. exact H. Qed.

Lemma holds_checkpath key v path :
  preserves (holds key v) (S3FSProvider.checkpath _checkpath path).
Proof.
  unfold S3FSProvider.checkpath.
  destruct (_checkpath path); [apply preserves_ret | apply preserves_raise].
Qed.

Lemma holds_filter_all key v p :
  preserves (holds key v) (S3FSProvider.s3 S3.List p (S3.filter_all p)).
Proof.
  apply s3_preserves; [intros w c H; exact H|].
  intros w b H <-. unfold S3.filter_all, bind, gets.
  pose proof (request_state S3.List p (S3FSProvider._bucket w)) as Hs.
  destruct (S3.request S3.List p (S3FSProvider._bucket w)) as [[u| |] b'];
    simpl in *; subst b'; destruct w; exact H.
Qed.

Lemma holds_common_prefixes key v p :
  preserves (holds key v) (S3FSProvider.s3 S3.ListV2 p (S3.common_prefixes p)).
Proof.
  apply s3_preserves; [intros w c H; exact H|].
  intros w b H <-. unfold S3.common_prefixes, bind, gets.
  pose proof (request_state S3.ListV2 p (S3FSProvider._bucket w)) as Hs.
  destruct (S3.request S3.ListV2 p (S3FSProvider._bucket w)) as [[u| |] b'];
    simpl in *; subst b'; destruct w; exact H.
Qed.

Lemma holds_list key v self folders files recursive :
  preserves (holds key v) (S3FSProvider.list self folders files recursive).
Proof.
  unfold S3FSProvider.list. apply preserves_bind; [|intros objects; apply preserves_ret].
  destruct recursive.
  - apply preserves_bind; [apply holds_filter_all | intros objects; apply preserves_ret].
  - apply preserves_bind; [apply holds_common_prefixes | intros objects; apply preserves_ret].
Qed.

Lemma holds_delete_other key v other :
  key <> other ->
  preserves (holds key v) (S3FSProvider.s3 S3.Delete other (S3.delete other)).
Proof.
  intros Hne. apply s3_preserves; [intros w c H; exact H|].
  intros w b H <-. unfold S3.delete.
  destruct (change_state S3.Delete other
              (fun b => S3.mk (S3.erase other (S3.objects b)) (S3.answers b))
              (S3FSProvider._bucket w)) as [E|[[E _]|[_ E]]]; rewrite E;
    [destruct w; exact H | |].
  all: unfold holds; simpl; rewrite find_erase_ne by exact Hne; exact H.
Qed.

Lemma holds_delete (fuel : nat) (key : string) (v : option S3.object) :
  Path.endswith_slash key = true ->
  forall self filepath, key <> self ++ default "" filepath ->
  preserves (holds key v) (S3FSProvider.delete _checkpath fuel self filepath).
Proof.
  intros Hkey. induction fuel as [|fuel IH]; intros self filepath Hne;
    [apply preserves_timeout|].
  cbn [S3FSProvider.delete].
  apply preserves_bind; [apply holds_checkpath|]. intros _.
  apply preserves_bind.
  - destruct (Path.endswith_slash (self ++ default "" filepath)); [|apply preserves_ret].
    apply preserves_bind.
    { unfold S3FSProvider.from_subfolder. apply preserves_bind;
        [apply holds_checkpath | intros _; apply preserves_ret]. }
    intros subfolder. apply preserves_bind_returned; [apply holds_list|].
    intros l [w [w' Hl]]. apply preserves_for_each_in. intros f Hf.
    assert (H1 := list_allowed subfolder false true true w l ltac:(now rewrite Hl)).
    assert (H2 := list_nonempty subfolder false true true w l ltac:(now rewrite Hl)).
    rewrite Forall_forall in H1, H2. apply list_elem_of_In in Hf.
    specialize (H1 f Hf). specialize (H2 f Hf). unfold allowed in H1.
    apply IH. simpl. intros ->.
    rewrite endswith_app in Hkey by exact H2.
    rewrite Hkey in H1. discriminate.
  - intros _. apply preserves_try_except; [|apply preserves_raise].
    apply preserves_bind; [apply holds_record|]. intros _.
    apply preserves_bind; [apply holds_cachem|]. intros _.
    apply holds_delete_other, Hne.
Qed.

Lemma delete_file_erases (fuel : nat) (self filepath : string) (w w' : S3FSProvider.world) :
  Path.endswith_slash (self ++ filepath) = false ->
  S3FSProvider.delete _checkpath fuel self (Some filepath) w = (Ret tt, w') ->
  S3.objects (S3FSProvider._bucket w')
  = S3.erase (self ++ filepath) (S3.objects (S3FSProvider._bucket w)).
Proof.
  intros Hf. destruct fuel as [|fuel]; [discriminate|].
  cbn [S3FSProvider.delete default from_option]; unfold id.
  unfold S3FSProvider.checkpath. unfold bind at 1.
  destruct (_checkpath filepath); [|discriminate]. simpl. rewrite Hf.
  unfold bind at 1. simpl. intros H.
  apply try_except_returns in H; [|intros s1; discriminate].
  apply bind_returns in H. destruct H as [u1 [w1 [H1 H]]].
  apply bind_returns in H. destruct H as [u2 [w2 [H2 H]]].
  unfold S3FSProvider.record, modify in H1. injection H1 as E1. subst w1.
  rewrite cachem_run in H2. injection H2 as _ E2. subst w2.
  rewrite s3_run in H. simpl in H.
  destruct (S3.delete (self ++ filepath) (S3FSProvider._bucket w)) as [[[]| |] b1] eqn:E;
    try discriminate.
  apply change_returns in E. destruct E as [-> _].
  injection H as E. subst w'. reflexivity.
Qed.

End Delete.

Section CopyTo.

Lemma kept_local {A} C K (m : M Disk.t A) :
  (forall d, (m d).2 = d) -> preserves (kept C K) (S3FSProvider.local m).
Proof.
  intros Hm w [H1 H2]. rewrite local_reads by apply Hm. simpl. now split.
Qed.

Lemma kept_put_file C K (fullpath : string) (content : bytes) :
  preserves (kept C K) (S3FSProvider._put_file fullpath content).
Proof.
  unfold S3FSProvider._put_file. apply preserves_try_except; [|apply preserves_raise].
  apply preserves_bind; [apply preserves_gets|]. intros t.
  apply preserves_bind.
  - apply s3_preserves; [intros w c H; exact H|]. intros w b [H1 H2] <-.
    split; [exact H1|]. intros key Hk. unfold S3.upload_fileobj.
    destruct (change_state S3.Upload fullpath
                (fun b => S3.mk (S3.store fullpath (S3.Object t content) (S3.objects b))
                            (S3.answers b))
                (S3FSProvider._bucket w)) as [E|[[E _]|[_ E]]]; rewrite E;
      [now apply H2 | |]; simpl; apply find_store_is_Some, H2, Hk.
  - intros _. apply preserves_for_each. intros k.
    apply s3_preserves; [intros w c H; exact H|]. intros w b [H1 H2] <-.
    split; [exact H1|]. intros key Hk. unfold S3.put_object.
    destruct (change_state S3.PutObject k
                (fun b => S3.mk (S3.store k (S3.Object t []) (S3.objects b)) (S3.answers b))
                (S3FSProvider._bucket w)) as [E|[[E _]|[_ E]]]; rewrite E;
      [now apply H2 | |]; simpl; apply find_store_is_Some, H2, Hk.
Qed.

Lemma kept_copy_to C K (fuel : nat) :
  forall self src_disk dest, preserves (kept C K) (S3FSProvider.copy_to fuel self src_disk dest).
Proof.
  induction fuel as [|fuel IH]; intros self src_disk dest; [apply preserves_timeout|].
  cbn [S3FSProvider.copy_to].
  apply preserves_bind; [apply kept_local; reflexivity|]. intros [|].
  - apply preserves_bind; [apply kept_local, listdir_reads|]. intros files.
    apply preserves_for_each. intros f. apply IH.
  - destruct (_ || _)%bool; [apply preserves_raise|].
    apply preserves_bind; [apply kept_local, read_reads|]. intros content.
    apply kept_put_file.
Qed.

End CopyTo.

Section Distribute.

Lemma last_default {A} (l : list A) (a x y : A) :
  List.last (a :: l) x = List.last (a :: l) y.
Proof.
  revert a. induction l as [|b l IH]; intros a; [reflexivity|].
  change (List.last (b :: l) x = List.last (b :: l) y). apply IH.
Qed.

Lemma write_all_acc (fullpath : string) (filelist acc : list string) (x : string) :
  fold_left (fun zip f =>
     S3FSProvider.Zip (S3FSProvider.paths_to_write zip ++ [f])%list
                      (S3FSProvider.Frame fullpath f))
    filelist (S3FSProvider.Zip acc (S3FSProvider.Frame fullpath x))
  = S3FSProvider.Zip (acc ++ filelist) (S3FSProvider.Frame fullpath (List.last filelist x)).
Proof.
  revert acc x. induction filelist as [|f l IH]; intros acc x; simpl.
  - now rewrite app_nil_r.
  - rewrite IH, <- app_assoc. simpl. destruct l as [|b l]; [reflexivity|].
    now rewrite (last_default l b f x).
Qed.

Lemma write_all_last (fullpath : string) (filelist : list string) :
  S3FSProvider.write_all fullpath filelist
  = S3FSProvider.Zip filelist (S3FSProvider.Frame fullpath (List.last filelist "")).
Proof. unfold S3FSProvider.write_all. now rewrite write_all_acc. Qed.

Lemma read_entries_same (fr : S3FSProvider.frame) (names : list string)
    (w w' : S3FSProvider.world) (entries : list (string * bytes)) :
  S3FSProvider.read_entries fr names w = (Ret entries, w') ->
  map fst entries = names /\
  S3FSProvider._bucket w' = S3FSProvider._bucket w /\
  forall entry, In entry entries ->
    exists o, S3.find (S3FSProvider.fullpath fr ++ S3FSProvider.f fr)
                (S3.objects (S3FSProvider._bucket w)) = Some o /\
              entry.2 = S3.body o.
Proof.
  revert w entries. induction names as [|name names IH]; intros w entries; simpl.
  - intros [= <- <-]. repeat split. intros entry [].
  - unfold bind at 1. unfold S3FSProvider.generator. rewrite s3_run.
    set (key := S3FSProvider.fullpath fr ++ S3FSProvider.f fr).
    destruct (S3.get key (S3FSProvider._bucket w)) as [[content| |] b1] eqn:G;
      cbn [fst snd]; try discriminate.
    apply get_returns in G. destruct G as [-> [o [F ->]]].
    unfold bind at 1.
    destruct (S3FSProvider.read_entries fr names _) as [[rest| |] w1] eqn:E; try discriminate.
    intros [= <- <-]. apply IH in E. destruct E as [E1 [E2 E3]]. simpl in E2, E3.
    split; [simpl; now rewrite E1|]. split; [exact E2|].
    intros entry [<-|Hin]; [exists o; now split|].
    apply E3, Hin.
Qed.

End Distribute.

(** * Insertion, removal and eviction in the cache manager *)

Section Entries.

Import S3CacheManager S3CacheManager.CustomLRUCache.

Lemma lru_run {A} (m : M LRU.t A) (s : S3CacheManager.t) :
  lru m s = ((m (_cache_data s)).1, with_cache (m (_cache_data s)).2 s).
Proof. unfold lru, zoom, with_cache. now destruct (m (_cache_data s)). Qed.

Lemma put_folder_stores (fuel : nat) (path : string) (ts : Z) (s s' : S3CacheManager.t) :
  put_folder fuel path ts s = (Ret tt, s') ->
  entry_of path s' = Some (Entry ts (Path.join (_cache_path s) path) 0).
Proof.
  unfold put_folder. unfold bind at 1, gets. cbn [fst snd]. intros E.
  revert E. apply (ensures_bind_last (fun s' => entry_of path s' = _)).
  intros _. apply setitem_stores.
Qed.

Lemma read_written (p : string) (content : bytes) (d d' : Disk.t) :
  Disk.write p content d = (Ret tt, d') -> Disk.read p d' = (Ret content, d').
Proof.
  unfold Disk.write, Disk.read.
  destruct (Path.endswith_slash p) eqn:E; [discriminate|]. simpl.
  destruct (Disk.isdir p d || negb (Disk.isdir (Path.split_head (Disk.norm p)) d))%bool;
    [discriminate|].
  intros [= <-]. simpl. now rewrite lookup_insert_eq.
Qed.

Lemma unlink_written (p : string) (content : bytes) (d d' : Disk.t) :
  Disk.write p content d = (Ret tt, d') ->
  Disk.unlink p d' = (Ret tt, Disk.mk (delete (Disk.norm p) (Disk.files d')) (Disk.dirs d')).
Proof.
  unfold Disk.write, Disk.unlink.
  destruct (Path.endswith_slash p) eqn:E; [discriminate|]. simpl.
  destruct (Disk.isdir p d || negb (Disk.isdir (Path.split_head (Disk.norm p)) d))%bool;
    [discriminate|].
  intros [= <-]. unfold Disk.isfile. cbn. rewrite lookup_insert_eq.
  rewrite bool_decide_eq_true_2 by (now eexists). reflexivity.
Qed.

(** [put_file] up to the insertion in the cache, when the file can be
    written *)
Lemma put_file_written (fuel : nat) (path : string) (ts : Z) (content : bytes)
    (s : S3CacheManager.t) (d1 d2 : Disk.t) :
  let location := Path.join (_cache_path s) path in
  Disk.makedirs (Path.split_head location) (disk s) = (Ret tt, d1) ->
  Disk.write location content d1 = (Ret tt, d2) ->
  put_file fuel path ts content s
  = __setitem__ fuel path (Entry ts location (len content)) (on_disk d2 s).
Proof.
  cbv zeta. intros Hmk Hwr.
  unfold put_file. unfold bind at 1, gets. cbn [fst snd].
  unfold bind at 1. rewrite os_run, Hmk. cbn [fst snd].
  unfold bind at 1. rewrite os_run. cbn [disk _cache_data _cache_path]. rewrite Hwr.
  reflexivity.
Qed.

(** With room for a new file, [put_file] stores it and evicts nothing. *)
Lemma put_file_room (fuel : nat) (path : string) (ts : Z) (content : bytes)
    (s : S3CacheManager.t) (d1 d2 : Disk.t) :
  let c := _cache_data s in
  let location := Path.join (_cache_path s) path in
  relative path -> (String.length path <= fuel)%nat ->
  LRU.data c !! path = None ->
  0 <= LRU.currsize c -> LRU.currsize c + len content <= LRU.maxsize c ->
  Disk.makedirs (Path.split_head location) (disk s) = (Ret tt, d1) ->
  Disk.write location content d1 = (Ret tt, d2) ->
  put_file fuel path ts content s
  = (Ret tt, with_cache (touched path (stored path (Entry ts location (len content)) c))
               (on_disk d2 s)).
Proof.
  cbv zeta. intros Hrel Hfuel Hnew Hpos Hroom Hmk Hwr.
  rewrite (put_file_written fuel path ts content s d1 d2 Hmk Hwr).
  rewrite (setitem_room fuel path _ (on_disk d2 s) Hrel Hfuel Hnew);
    cbn [weight _cache_data on_disk]; [reflexivity | lia | lia].
Qed.

Lemma strip_slash_file (path : string) :
  Path.endswith_slash path = false -> strip_slash path = path.
Proof. intros H. unfold strip_slash. now rewrite H. Qed.

Lemma contains_touched (k path : string) (c : LRU.t) :
  LRU.contains k (touched path c) = LRU.contains k c.
Proof. reflexivity. Qed.

Lemma path_in_touched (path : string) (c : LRU.t) : path ∈ LRU.order (touched path c).
Proof.
  unfold touched. cbn. apply elem_of_app. right. apply list_elem_of_here.
Qed.

Lemma delitem_file (fuel : nat) (path : string) (s : S3CacheManager.t) (e : entry)
    (size : Z) (d' : Disk.t) :
  relative path -> (String.length path <= S fuel)%nat ->
  Path.endswith_slash path = false ->
  LRU.data (_cache_data s) !! path = Some e ->
  LRU.sizes (_cache_data s) !! path = Some size ->
  parent_uncached path (_cache_data s) ->
  Disk.unlink (disk_path e) (disk s) = (Ret tt, d') ->
  __delitem__ (S fuel) path s
  = (Ret tt, mk (removed path size (_cache_data s)) d' (_cache_path s)).
Proof.
  intros Hrel Hfuel Hfile He Hsz Hpar Hun. cbn [__delitem__].
  unfold bind at 1. rewrite lru_run, (getitem_touches _ _ _ e Hrel Hfuel He). cbn [fst snd].
  rewrite Hfile. cbn [negb]. unfold bind at 1. rewrite os_run.
  cbn [with_cache disk _cache_data _cache_path]. rewrite Hun. cbn [fst snd].
  rewrite (strip_slash_file _ Hfile).
  unfold bind at 1. unfold gets at 1. cbn [fst snd _cache_data].
  rewrite contains_touched.
  assert (Hno : (negb (String.eqb (Path.split_head path) "")
                 && LRU.contains (Path.split_head path ++ "/") (_cache_data s))%bool = false).
  { destruct Hpar as [-> | ->]; [reflexivity | apply andb_false_r]. }
  rewrite Hno. unfold bind at 1. unfold ret at 1. cbn [fst snd].
  rewrite lru_run. cbn [_cache_data].
  unfold LRU.LRUCache_delitem, bind, LRU.Cache_delitem.
  change (LRU.sizes (touched path (_cache_data s))) with (LRU.sizes (_cache_data s)).
  change (LRU.data (touched path (_cache_data s))) with (LRU.data (_cache_data s)).
  rewrite Hsz, He. cbn [LRU.order].
  rewrite bool_decide_eq_true_2 by apply path_in_touched.
  reflexivity.
Qed.

Lemma invalidate_walk (fuel : nat) (cur : string) (s : S3CacheManager.t) :
  Path.startswith_slash cur = false -> (String.length cur <= fuel)%nat ->
  (forall key, key ∈ parents fuel cur -> cached key s = false) ->
  (if String.eqb (Path.split_head cur) "" then (Ret tt, s)
   else invalidate fuel (Path.split_head cur ++ "/") s) = (Ret tt, s).
Proof.
  revert cur. induction fuel as [|fuel IH]; intros cur Hrel Hlen Hall.
  - assert (cur = "") as -> by (destruct cur; [reflexivity | simpl in Hlen; lia]).
    reflexivity.
  - destruct (String.eqb (Path.split_head cur) "") eqn:E; [reflexivity|].
    assert (Hcur : cur <> "") by (intros ->; discriminate).
    apply String.eqb_neq in Hcur.
    rewrite invalidate_uncached.
    2: { apply Hall. cbn [parents]. rewrite Hcur. apply list_elem_of_here. }
    rewrite strip_app_slash. apply IH.
    + now apply split_head_relative.
    + apply String.eqb_neq in Hcur.
      pose proof (split_head_shorter cur Hrel Hcur). lia.
    + intros key Hk. apply Hall. cbn [parents]. rewrite Hcur. now apply list_elem_of_further.
Qed.

(** One turn of the eviction loop is enough when the least recently used
    entry is a file whose removal leaves room. *)
Lemma evict_one (fuel : nat) (size : Z) (s : S3CacheManager.t) (k : string)
    (rest : list string) (e : entry) (sz : Z) (d' : Disk.t) :
  LRU.order (_cache_data s) = k :: rest ->
  relative k -> (String.length k <= S fuel)%nat -> Path.endswith_slash k = false ->
  LRU.data (_cache_data s) !! k = Some e ->
  LRU.sizes (_cache_data s) !! k = Some sz ->
  parent_uncached k (_cache_data s) ->
  Disk.unlink (disk_path e) (disk s) = (Ret tt, d') ->
  LRU.maxsize (_cache_data s) < LRU.currsize (_cache_data s) + size ->
  LRU.currsize (_cache_data s) - sz + size <= LRU.maxsize (_cache_data s) ->
  evict (S (S fuel)) size s
  = (Ret tt, mk (removed k sz (touched k (_cache_data s))) d' (_cache_path s)).
Proof.
  intros Ho Hrel Hlen Hfile He Hsz Hpar Hun Hfull Hroom.
  cbn [evict].
  destruct (LRU.currsize (_cache_data s) + size >? LRU.maxsize (_cache_data s)) eqn:E; [|lia].
  unfold bind at 1. unfold popitem. unfold bind at 1.
  rewrite lru_run. unfold LRU.first_key. rewrite Ho. cbn [fst snd].
  assert (Hsame : with_cache (_cache_data s) s = s) by (now destruct s).
  rewrite Hsame. unfold bind at 1. unfold pop. unfold bind at 1. unfold gets at 1.
  cbn [fst snd]. rewrite (contains_true _ _ _ He).
  unfold bind at 1. rewrite lru_run, (getitem_touches _ _ _ e Hrel Hlen He). cbn [fst snd].
  unfold bind at 1.
  rewrite (delitem_file fuel k (with_cache (touched k (_cache_data s)) s) e sz d');
    try assumption.
  cbn [fst snd with_cache _cache_data _cache_path disk]. unfold ret at 1. cbn [fst snd].
  unfold ret at 1. cbn [evict _cache_data].
  change (LRU.currsize (removed k sz (touched k (_cache_data s))))
    with (LRU.currsize (_cache_data s) - sz).
  change (LRU.maxsize (removed k sz (touched k (_cache_data s))))
    with (LRU.maxsize (_cache_data s)).
  destruct (Z.gtb_spec (LRU.currsize (_cache_data s) - sz + size) (LRU.maxsize (_cache_data s))) as [E'|E']; [lia | reflexivity].
Qed.

Lemma Cache_setitem_evicts_one (fuel : nat) (key : string) (value : entry)
    (s : S3CacheManager.t) (k : string) (rest : list string) (e : entry) (sz : Z)
    (d' : Disk.t) :
  LRU.order (_cache_data s) = k :: rest ->
  relative k -> (String.length k <= S fuel)%nat -> Path.endswith_slash k = false ->
  LRU.data (_cache_data s) !! k = Some e ->
  LRU.sizes (_cache_data s) !! k = Some sz ->
  parent_uncached k (_cache_data s) ->
  Disk.unlink (disk_path e) (disk s) = (Ret tt, d') ->
  LRU.data (_cache_data s) !! key = None \/ (key = k /\ sz < weight value) ->
  weight value <= LRU.maxsize (_cache_data s) ->
  LRU.maxsize (_cache_data s) < LRU.currsize (_cache_data s) + weight value ->
  LRU.currsize (_cache_data s) - sz + weight value <= LRU.maxsize (_cache_data s) ->
  Cache_setitem (S (S fuel)) key value s
  = (Ret tt, mk (stored key value (removed k sz (touched k (_cache_data s)))) d'
               (_cache_path s)).
Proof.
  intros Ho Hrel Hlen Hfile He Hsz Hpar Hun Hneed Hfit Hfull Hroom.
  assert (Hev := evict_one fuel (weight value) s k rest e sz d'
                   Ho Hrel Hlen Hfile He Hsz Hpar Hun Hfull Hroom).
  assert (Hgone : LRU.data (removed k sz (touched k (_cache_data s))) !! key = None).
  { cbn. destruct Hneed as [Hnew | [-> _]]; [|apply lookup_delete_eq].
    rewrite lookup_delete_ne; [exact Hnew|]. intros ->. congruence. }
  unfold Cache_setitem. unfold bind at 1. unfold gets at 1. cbn [fst snd].
  unfold _computeFileSize.
  destruct (Z.gtb_spec (weight value) (LRU.maxsize (_cache_data s))) as [E|E]; [lia|].
  unfold bind at 1. unfold gets at 1. cbn [fst snd].
  unfold bind at 1. unfold gets at 1. cbn [fst snd].
  unfold bind at 1.
  assert (Hloop : (match LRU.data (_cache_data s) !! key, LRU.sizes (_cache_data s) !! key with
                   | None, _ => evict (S (S fuel)) (weight value)
                   | Some _, Some sz0 =>
                       if (sz0 <? weight value)%Z then evict (S (S fuel)) (weight value)
                       else ret tt
                   | Some _, None => raise (KeyError key)
                   end) s
                  = (Ret tt, mk (removed k sz (touched k (_cache_data s))) d' (_cache_path s))).
  { destruct Hneed as [Hnew | [-> Hlt]].
    - rewrite Hnew. exact Hev.
    - rewrite He, Hsz. destruct (Z.ltb_spec sz (weight value)); [exact Hev | lia]. }
  rewrite Hloop. cbn [fst snd].
  unfold bind at 1. unfold gets at 1. cbn [fst snd _cache_data].
  unfold bind at 1. unfold gets at 1. cbn [fst snd _cache_data].
  rewrite Hgone. unfold bind at 1. unfold ret at 1. cbn [fst snd].
  rewrite lru_run. unfold modify. cbn [fst snd with_cache _cache_data disk _cache_path].
  unfold stored. rewrite Hgone. reflexivity.
Qed.

End Entries.

(** * Reading through the provider *)

Section Read.

Variable _checkpath : string -> bool.

(** A read without timestamp of an object that the cache holds with a
    timestamp not older than the object's: the cached file is read. *)
Lemma get_cached_copy (fuel : nat) (self filepath : string) (w : S3FSProvider.world)
    (o : S3.object) (e : entry) (old : bytes) :
  let fullpath := self ++ filepath in
  let s := S3FSProvider._cache w in
  _checkpath filepath = true -> Path.endswith_slash fullpath = false ->
  relative fullpath -> (String.length fullpath <= fuel)%nat -> fullpath <> "" ->
  S3.refused (S3FSProvider._bucket w) S3.Head fullpath = false ->
  S3.find fullpath (S3.objects (S3FSProvider._bucket w)) = Some o ->
  entry_of fullpath s = Some e -> S3.last_modified o <= timestamp e ->
  Disk.read (disk_path e) (S3CacheManager.disk s) = (Ret old, S3CacheManager.disk s) ->
  exists w',
    S3FSProvider.get _checkpath fuel self filepath None w = (Ret old, w') /\
    gets_of w' = gets_of w.
Proof.
  cbv zeta. intros Hc Hf Hrel Hlen Hne Hh Ho He Hts Hread. eexists.
  unfold S3FSProvider.get. unfold bind at 1.
  unfold S3FSProvider.get_fd, S3FSProvider.checkpath. unfold bind at 1. rewrite Hc.
  cbn [ret fst snd]. rewrite Hf.
  unfold try_except. unfold bind at 1.
  unfold S3FSProvider.obj_last_modified. unfold bind at 1.
  rewrite s3_run, (load_run _ _ o Hne Hh Ho). cbn [fst snd ret].
  unfold bind at 1. rewrite cachem_run.
  cbn [with_bucket logged S3FSProvider._cache].
  rewrite (get_cached fuel _ _ _ e Hrel Hlen He). cbn [fst snd].
  destruct (Z.geb_spec (timestamp e) (S3.last_modified o)) as [_|]; [|lia].
  erewrite open_rb_run; [|cbn; exact Hread].
  rewrite local_reads by apply read_reads. cbn. rewrite Hread. split; [reflexivity|].
  unfold gets_of. cbn. rewrite List.filter_app. cbn. apply app_nil_r.
Qed.

(** A read without timestamp of an object that the cache does not hold,
    when the cache has room for it: the object is fetched and returned. *)
Lemma get_fetches (fuel : nat) (self filepath : string) (w : S3FSProvider.world)
    (o : S3.object) (d1 d2 : Disk.t) :
  let fullpath := self ++ filepath in
  let s := S3FSProvider._cache w in
  let c := S3CacheManager._cache_data s in
  let location := Path.join (S3CacheManager._cache_path s) fullpath in
  _checkpath filepath = true -> Path.endswith_slash fullpath = false ->
  relative fullpath -> (String.length fullpath <= fuel)%nat -> fullpath <> "" ->
  S3.refused (S3FSProvider._bucket w) S3.Head fullpath = false ->
  S3.refused (S3FSProvider._bucket w) S3.Get fullpath = false ->
  S3.find fullpath (S3.objects (S3FSProvider._bucket w)) = Some o ->
  LRU.data c !! fullpath = None ->
  0 <= LRU.currsize c -> LRU.currsize c + len (S3.body o) <= LRU.maxsize c ->
  Disk.makedirs (Path.split_head location) (S3CacheManager.disk s) = (Ret tt, d1) ->
  Disk.write location (S3.body o) d1 = (Ret tt, d2) ->
  exists w',
    S3FSProvider.get _checkpath fuel self filepath None w = (Ret (S3.body o), w') /\
    gets_of w' = (gets_of w ++ [S3FSProvider.Remote S3.Get fullpath])%list /\
    entry_of fullpath (S3FSProvider._cache w')
    = Some (Entry (S3.last_modified o) location (len (S3.body o))) /\
    S3CacheManager.disk (S3FSProvider._cache w') = d2.
Proof.
  cbv zeta. intros Hc Hf Hrel Hlen Hne Hh Hg Ho Hnew Hpos Hroom Hmk Hwr.
  set (s' := with_cache
                (touched (self ++ filepath)
                   (stored (self ++ filepath)
                      (Entry (S3.last_modified o)
                         (Path.join (S3CacheManager._cache_path (S3FSProvider._cache w))
                            (self ++ filepath)) (len (S3.body o)))
                      (S3CacheManager._cache_data (S3FSProvider._cache w))))
                (on_disk d2 (S3FSProvider._cache w))).
  assert (Hput := put_file_room fuel _ (S3.last_modified o) (S3.body o) (S3FSProvider._cache w)
                    d1 d2 Hrel Hlen Hnew Hpos Hroom Hmk Hwr).
  fold s' in Hput.
  assert (Hread : Disk.read (Path.join (S3CacheManager._cache_path (S3FSProvider._cache w))
                               (self ++ filepath)) (S3CacheManager.disk s')
                  = (Ret (S3.body o), S3CacheManager.disk s')).
  { apply (read_written _ _ d1). exact Hwr. }
  assert (Hent : entry_of (self ++ filepath) s'
                 = Some (Entry (S3.last_modified o)
                           (Path.join (S3CacheManager._cache_path (S3FSProvider._cache w))
                              (self ++ filepath)) (len (S3.body o)))).
  { unfold entry_of. cbn. apply lookup_insert_eq. }
  assert (Hdisk2 : S3CacheManager.disk s' = d2) by reflexivity.
  clearbody s'.
  eexists. unfold S3FSProvider.get. unfold bind at 1.
  unfold S3FSProvider.get_fd, S3FSProvider.checkpath. unfold bind at 1. rewrite Hc.
  cbn [ret fst snd]. rewrite Hf.
  unfold try_except. unfold bind at 1.
  unfold S3FSProvider.obj_last_modified at 1. unfold bind at 1.
  rewrite s3_run, (load_run _ _ o Hne Hh Ho). cbn [fst snd ret].
  unfold bind at 1. rewrite cachem_run.
  cbn [with_bucket logged S3FSProvider._cache].
  rewrite (get_uncached fuel _ _ _ Hnew). cbn [fst snd].
  unfold bind at 1. rewrite s3_run.
  cbn [set_cache S3FSProvider._bucket with_bucket logged S3FSProvider._cache
       S3FSProvider.clock S3FSProvider.reads S3FSProvider.log].
  rewrite (get_run _ _ o Hne Hg Ho). cbn [fst snd].
  unfold bind at 1. unfold S3FSProvider.obj_last_modified, ret at 1. cbn [fst snd].
  unfold bind at 1. rewrite cachem_run.
  cbn [with_bucket logged set_cache S3FSProvider._cache]. rewrite Hput. cbn [fst snd].
  unfold bind at 1. rewrite cachem_run. cbn [set_cache S3FSProvider._cache].
  rewrite (get_cached fuel _ _ _ _ Hrel Hlen Hent). cbn [fst snd timestamp disk_path].
  destruct (Z.geb_spec (S3.last_modified o) (S3.last_modified o)) as [_|]; [|lia].
  erewrite open_rb_run; [|cbn; exact Hread].
  rewrite local_reads by apply read_reads. cbn. rewrite Hread. split; [reflexivity|].
  split.
  - unfold gets_of. cbn. rewrite !List.filter_app. cbn. now rewrite app_nil_r.
  - split; [exact Hent | exact Hdisk2].
Qed.

End Read.

(** * Listing and deleting a folder *)

Section ListRun.

Lemma selected_all (names : list string) : selected true true names = names.
Proof.
  unfold selected. induction names as [|f l IH]; [reflexivity|].
  cbn [flat_map]. rewrite IH. now destruct (Path.endswith_slash f).
Qed.

Lemma selected_files (names : list string) :
  selected false true names = List.filter (fun f => negb (Path.endswith_slash f)) names.
Proof.
  unfold selected. induction names as [|f l IH]; [reflexivity|].
  cbn [flat_map List.filter]. rewrite IH. now destruct (Path.endswith_slash f).
Qed.

Lemma filter_all_keys (p : string) (l : list (string * S3.object)) :
  map (fun f : string * Z => S3FSProvider._compute_relpath f.1 p)
    (map (fun ko : string * S3.object => (ko.1, S3.last_modified ko.2))
       (filter (fun ko : string * S3.object => Path.startswith p ko.1 = true /\ ko.1 <> p)
          (S3.in_key_order l)))
  = map (fun key => S3FSProvider._compute_relpath key p) (keys_under p l).
Proof. unfold keys_under. now rewrite !map_map. Qed.

Lemma filter_all_run (p : string) (b : S3.t) :
  S3.refused b S3.List p = false ->
  S3.filter_all p b
  = (Ret (map (fun ko : string * S3.object => (ko.1, S3.last_modified ko.2))
            (filter (fun ko : string * S3.object => Path.startswith p ko.1 = true /\ ko.1 <> p)
               (S3.in_key_order (S3.objects b)))), b).
Proof.
  intros Hr. unfold S3.filter_all, bind.
  now rewrite (request_served S3.List p _ (or_introl eq_refl) Hr).
Qed.

(** The recursive listing, when the store answers *)
Lemma list_recursive_run (self : string) (folders files : bool) (w : S3FSProvider.world) :
  S3.refused (S3FSProvider._bucket w) S3.List self = false ->
  S3FSProvider.list self folders files true w
  = (Ret (selected folders files
            (map (fun key => S3FSProvider._compute_relpath key self)
               (keys_under self (objects_of w)))),
     logged (S3FSProvider.Remote S3.List self) w).
Proof.
  intros Hr. unfold S3FSProvider.list. unfold bind at 1. unfold bind at 1.
  rewrite s3_run, (filter_all_run _ _ Hr). cbn [fst snd ret].
  rewrite filter_all_keys. unfold with_bucket, logged, selected, objects_of. cbn.
  reflexivity.
Qed.

Lemma names_of_clean_keys (prefix : string) (keys : list string) :
  (forall key, In key keys -> exists name, key = prefix ++ name /\ clean name) ->
  map (fun name => prefix ++ name)
    (map (fun key => S3FSProvider._compute_relpath key prefix) keys) = keys.
Proof.
  intros H. rewrite map_map. rewrite <- (map_id keys) at 2. apply map_ext_in.
  intros key Hk. destruct (H key Hk) as [name [-> Hc]].
  now rewrite compute_relpath_clean.
Qed.

End ListRun.

Section DeleteFolder.

Import Path.

Variable _checkpath : string -> bool.

Lemma set_cache_same (w : S3FSProvider.world) : set_cache (S3FSProvider._cache w) w = w.
Proof. now destruct w. Qed.

Lemma relative_file (path : string) :
  startswith_slash path = false -> endswith_slash path = false -> relative path.
Proof. intros H E. unfold relative. now rewrite strip_slash_file. Qed.

Lemma startswith_slash_app (a b : string) :
  a <> "" -> startswith_slash (a ++ b) = startswith_slash a.
Proof. destruct a; [contradiction | reflexivity]. Qed.

Lemma relative_folder (path : string) :
  startswith_slash path = false -> endswith_slash path = true -> relative path.
Proof.
  intros H E. unfold relative, S3CacheManager.CustomLRUCache.strip_slash. rewrite E.
  rewrite <- (drop_last_app_slash path E) in H.
  destruct (drop_last path) eqn:D; [reflexivity | exact H].
Qed.

(** With an empty cache, an invalidation does nothing. *)
Lemma invalidate_uncached_all (fuel : nat) (path : string) (s : S3CacheManager.t) :
  relative path -> (String.length path <= fuel)%nat ->
  (forall key, cached key s = false) ->
  S3CacheManager.invalidate (S fuel) path s = (Ret tt, s).
Proof.
  intros Hrel Hfuel Hall. rewrite invalidate_uncached by apply Hall.
  apply invalidate_walk; [exact Hrel | | intros key _; apply Hall].
  pose proof (strip_slash_length path). lia.
Qed.

(** The delete of a file, with an empty cache and a store that obliges *)
Lemma delete_file_run (fuel : nat) (self filepath : string) (w : S3FSProvider.world) :
  _checkpath filepath = true -> self ++ filepath <> "" ->
  startswith_slash (self ++ filepath) = false ->
  endswith_slash (self ++ filepath) = false ->
  (String.length (self ++ filepath) <= fuel)%nat ->
  uncached w -> obliging (S3FSProvider._bucket w) ->
  exists w',
    S3FSProvider.delete _checkpath (S fuel) self (Some filepath) w = (Ret tt, w') /\
    S3FSProvider._cache w' = S3FSProvider._cache w /\
    S3.answers (S3FSProvider._bucket w') = S3.answers (S3FSProvider._bucket w) /\
    objects_of w' = S3.erase (self ++ filepath) (objects_of w).
Proof.
  intros Hc Hne Hs He Hlen Hun Hob. eexists.
  cbn [S3FSProvider.delete default from_option]; unfold id.
  unfold S3FSProvider.checkpath. unfold bind at 1. rewrite Hc. cbn [ret fst snd].
  rewrite He. unfold bind at 1. cbn [ret fst snd].
  unfold try_except. unfold bind at 1. unfold S3FSProvider.record, modify. cbn [fst snd].
  unfold bind at 1. rewrite cachem_run. cbn [S3FSProvider._cache].
  rewrite (invalidate_uncached_all fuel _ _ (relative_file _ Hs He) Hlen Hun). cbn [fst snd].
  rewrite s3_run. unfold S3.delete. cbn [set_cache S3FSProvider._bucket].
  rewrite change_run; [|now right | unfold S3.refused; now rewrite Hob].
  cbn [fst snd]. split; [reflexivity|].
  unfold objects_of. cbn. now repeat split.
Qed.

Lemma for_each_delete (fuel : nat) (prefix : string) (names : list string) :
  forall w : S3FSProvider.world,
  Forall (fun name => _checkpath name = true /\ endswith_slash (prefix ++ name) = false /\
                      (String.length (prefix ++ name) <= fuel)%nat) names ->
  prefix <> "" -> startswith_slash prefix = false ->
  uncached w -> obliging (S3FSProvider._bucket w) ->
  exists w',
    for_each names (fun f => S3FSProvider.delete _checkpath (S fuel) prefix (Some f)) w
    = (Ret tt, w') /\
    S3FSProvider._cache w' = S3FSProvider._cache w /\
    S3.answers (S3FSProvider._bucket w') = S3.answers (S3FSProvider._bucket w) /\
    objects_of w' = without (map (fun name => prefix ++ name) names) (objects_of w).
Proof.
  induction names as [|name names IH]; intros w Hall Hne Hs Hun Hob.
  - exists w. now repeat split.
  - inversion Hall as [|? ? [Hc [He Hlen]] Hrest]; subst.
    destruct (delete_file_run fuel prefix name w Hc) as [w1 [H1 [Hc1 [Hr1 Ho1]]]];
      try assumption.
    { destruct prefix; [contradiction | discriminate]. }
    { now rewrite startswith_slash_app. }
    destruct (IH w1 Hrest Hne Hs) as [w2 [H2 [Hc2 [Hr2 Ho2]]]].
    { intros key. unfold uncached in Hun. rewrite Hc1. apply Hun. }
    { intros o key. rewrite Hr1. apply Hob. }
    exists w2. cbn [for_each]. unfold bind at 1. rewrite H1.
    split; [exact H2|]. split; [congruence|]. split; [congruence|].
    rewrite Ho2, Ho1. reflexivity.
Qed.

Lemma find_without (keys : list string) (l : list (string * S3.object)) (key : string) :
  S3.find key (without keys l) = if bool_decide (key ∈ keys) then None else S3.find key l.
Proof.
  unfold without. revert l. induction keys as [|k keys IH]; intros l; [reflexivity|].
  cbn [fold_left]. rewrite IH.
  destruct (bool_decide (key ∈ keys)) eqn:E.
  - apply bool_decide_eq_true in E.
    rewrite bool_decide_eq_true_2; [reflexivity | now apply list_elem_of_further].
  - apply bool_decide_eq_false in E. destruct (String.eqb_spec key k) as [->|Hne].
    + rewrite bool_decide_eq_true_2 by apply list_elem_of_here. apply find_erase_eq.
    + rewrite bool_decide_eq_false_2.
      * now apply find_erase_ne.
      * intros H. apply elem_of_cons in H. destruct H; congruence.
Qed.

Lemma init_of_folder (fullpath : string) :
  endswith_slash fullpath = true -> startswith_slash fullpath = false ->
  S3FSProvider.__init__ fullpath = fullpath.
Proof.
  intros E H. unfold S3FSProvider.__init__. rewrite E.
  destruct (String.eqb_spec fullpath "/") as [->|]; [discriminate | reflexivity].
Qed.

Lemma delete_step (fuel : nat) (self : string) (filepath : option string) :
  S3FSProvider.delete _checkpath (S fuel) self filepath
  = (let filepath := default "" filepath in
     do* S3FSProvider.checkpath _checkpath filepath in
     let fullpath := self ++ filepath in
     do* (if Path.endswith_slash fullpath then
            let* subfolder := S3FSProvider.from_subfolder _checkpath self filepath in
            let* l := S3FSProvider.list subfolder false true true in
            for_each l (fun f => S3FSProvider.delete _checkpath fuel subfolder (Some f))
          else ret tt) in
     try_except
       (do* S3FSProvider.record (S3FSProvider.Invalidate fullpath) in
        do* S3FSProvider.cachem (S3CacheManager.invalidate (S fuel) fullpath) in
        S3FSProvider.s3 S3.Delete fullpath (S3.delete fullpath))
       is_ClientError (raise NotFoundException)).
Proof. reflexivity. Qed.

End DeleteFolder.

(** * Keys that start with "/" *)

Section Absolute.

Import S3CacheManager S3CacheManager.CustomLRUCache.

Lemma bind_last_never {S A B} (m : M S A) (k : A -> M S B) (s : S) :
  (forall a s1 b, (k a s1).1 <> Ret b) -> forall b, (bind m k s).1 <> Ret b.
Proof.
  intros Hk b. unfold bind. destruct (m s) as [[a| |] s1]; simpl; try discriminate.
  apply Hk.
Qed.

Lemma bind_first_never {S A B} (m : M S A) (k : A -> M S B) (s : S) :
  (forall a, (m s).1 <> Ret a) -> forall b, (bind m k s).1 <> Ret b.
Proof.
  intros Hm b. unfold bind. destruct (m s) as [[a| |] s1]; simpl; try discriminate.
  exfalso. now apply (Hm a).
Qed.

Lemma getitem_absolute (fuel : nat) (path : string) (c : LRU.t) :
  Path.startswith_slash (strip_slash path) = true ->
  forall e, (__getitem__ fuel path c).1 <> Ret e.
Proof.
  intros Habs e. unfold __getitem__. unfold bind at 1.
  destruct (LRU.LRUCache_getitem path c) as [[v| |] c1]; simpl; try discriminate.
  unfold bind. pose proof (up_parents_absolute fuel _ c1 Habs) as H.
  destruct (up_parents fuel (strip_slash path) c1) as [r c2]. simpl in H. subst r.
  discriminate.
Qed.

Lemma lru_getitem_absolute (fuel : nat) (path : string) (s : S3CacheManager.t) :
  Path.startswith_slash (strip_slash path) = true ->
  forall e, (lru (__getitem__ fuel path) s).1 <> Ret e.
Proof. intros Habs e. rewrite lru_run. now apply getitem_absolute. Qed.

(** A lookup of a key that starts with "/" gives no location. *)
Lemma get_absolute (fuel : nat) (path : string) (t : Z) (s : S3CacheManager.t) :
  Path.startswith_slash (strip_slash path) = true ->
  forall p, (get fuel path t s).1 <> Ret (Some p).
Proof.
  intros Habs p. unfold get. unfold bind at 1, gets at 1. cbn [fst snd].
  destruct (LRU.contains path (_cache_data s)); [|discriminate].
  apply bind_first_never. now apply lru_getitem_absolute.
Qed.

Lemma put_file_absolute (fuel : nat) (path : string) (ts : Z) (content : bytes)
    (s : S3CacheManager.t) :
  Path.startswith_slash (strip_slash path) = true ->
  forall u, (put_file fuel path ts content s).1 <> Ret u.
Proof.
  intros Habs. unfold put_file. apply bind_last_never. intros cache_path s1.
  apply bind_last_never. intros _ s2. apply bind_last_never. intros _ s3 [].
  destruct (__setitem__ fuel path _ s3) as [r s'] eqn:E.
  exact (setitem_absolute fuel path _ s3 Habs r s' E).
Qed.

Lemma invalidate_absolute (fuel : nat) (path : string) (s : S3CacheManager.t) :
  Path.startswith_slash (strip_slash path) = true ->
  forall u, (invalidate fuel path s).1 <> Ret u.
Proof.
  revert path. induction fuel as [|fuel IH]; intros path Habs u; [discriminate|].
  cbn [invalidate]. unfold bind at 1, gets at 1. cbn [fst snd].
  destruct (LRU.contains path (_cache_data s)).
  - cbn [__delitem__]. apply bind_first_never. now apply lru_getitem_absolute.
  - pose proof (split_head_absolute _ Habs) as Hsub.
    destruct (Path.split_head (strip_slash path)) as [|a sub] eqn:E; [discriminate|].
    cbn [String.eqb negb]. rewrite <- E. apply IH. now rewrite strip_app_slash, E.
Qed.

End Absolute.

Lemma try_except_never {S A} (m h : M S A) (sel : exn -> bool) (s : S) :
  (forall a, (m s).1 <> Ret a) -> (forall s1 a, (h s1).1 <> Ret a) ->
  forall a, (try_except m sel h s).1 <> Ret a.
Proof.
  intros Hm Hh a. unfold try_except. specialize (Hm a).
  destruct (m s) as [[x|e|] s1]; simpl in *; try easy.
  destruct (sel e); [apply Hh | discriminate].
Qed.

(** * The properties of the specification *)

Section Recency.

Import S3CacheManager S3CacheManager.CustomLRUCache.

(** C10, as the code has it. For a cached path that does not start with
    "/": a lookup whose needed timestamp is later than the entry's reports
    absent, and leaves the cache exactly as a successful lookup does: the
    entry and its cached ancestors have become the most recently used
    entries. *)
Theorem stale_lookup_is_an_access (fuel : nat) (path : string) (needed : Z)
    (s : S3CacheManager.t) (e : entry) :
  relative path -> (String.length path <= fuel)%nat ->
  LRU.data (_cache_data s) !! path = Some e ->
  timestamp e < needed ->
  get fuel path needed s = (Ret None, with_cache (touched path (_cache_data s)) s) /\
  (forall t, t <= timestamp e ->
     get fuel path t s
     = (Ret (Some (disk_path e)), with_cache (touched path (_cache_data s)) s)) /\
  exists rest,
    LRU.order (touched path (_cache_data s))
    = (rest ++ path :: present_ancestors (_cache_data s) path)%list /\
    forall k, k ∈ path :: present_ancestors (_cache_data s) path -> k ∉ rest.
Proof.
  intros Hrel Hfuel Hin Hstale. split; [|split].
  - rewrite (get_cached fuel path needed s e Hrel Hfuel Hin).
    destruct (timestamp e >=? needed) eqn:E; [lia | reflexivity].
  - intros t Ht. rewrite (get_cached fuel path t s e Hrel Hfuel Hin).
    destruct (timestamp e >=? t) eqn:E; [reflexivity | lia].
  - eexists. split; [reflexivity|].
    intros k Hk Hrest. apply list_elem_of_filter in Hrest as [Hn _]. now apply Hn.
Qed.

Lemma stale_lookup_is_an_access_witness :
  relative "a/b/c.txt" /\ (String.length "a/b/c.txt" <= 20)%nat /\
  LRU.data (_cache_data nested_then_z) !! "a/b/c.txt"
  = Some (Entry 5 "cache/a/b/c.txt" 10) /\
  timestamp (Entry 5 "cache/a/b/c.txt" 10) < 9 /\
  get 20 "a/b/c.txt" 9 nested_then_z
  = (Ret None, with_cache (touched "a/b/c.txt" (_cache_data nested_then_z)) nested_then_z) /\
  LRU.order (touched "a/b/c.txt" (_cache_data nested_then_z))
  = ["z.txt"; "a/b/c.txt"; "a/b/"; "a/"].
Proof.
  assert (H1 : relative "a/b/c.txt") by reflexivity.
  assert (H2 : (String.length "a/b/c.txt" <= 20)%nat) by (simpl; lia).
  assert (H3 : LRU.data (_cache_data nested_then_z) !! "a/b/c.txt"
               = Some (Entry 5 "cache/a/b/c.txt" 10)) by (vm_compute; reflexivity).
  assert (H4 : timestamp (Entry 5 "cache/a/b/c.txt" 10) < 9) by (simpl; lia).
  repeat (split; [assumption|]). split.
  - apply (stale_lookup_is_an_access 20 "a/b/c.txt" 9 nested_then_z _ H1 H2 H3 H4).
  - vm_compute. reflexivity.
Defined.

(** C10 as it is stated fails for a key that starts with "/". The insertion
    of /a/b/c.txt does not return, and leaves the entry in the cache; a
    lookup of that key for a later timestamp does not report absent: it
    does not return either, whatever the fuel. *)
Lemma stale_lookup_of_rooted_key_never_returns :
  (forall fuel u, (put_file fuel "/a/b/c.txt" 5 (zeros 10) (fresh 100)).1 <> Ret u) /\
  LRU.data (_cache_data interrupted) !! "/a/b/c.txt" = Some (Entry 5 "/a/b/c.txt" 10) /\
  timestamp (Entry 5 "/a/b/c.txt" 10) < 9 /\
  forall fuel r, (get fuel "/a/b/c.txt" 9 interrupted).1 <> Ret r.
Proof.
  split; [|split; [|split]].
  - intros fuel u. now apply put_file_absolute.
  - vm_compute. reflexivity.
  - simpl. lia.
  - intros fuel r. unfold get. unfold bind at 1, gets at 1. cbn [fst snd].
    assert (H : LRU.contains "/a/b/c.txt" (_cache_data interrupted) = true)
      by (vm_compute; reflexivity).
    rewrite H. apply bind_first_never. now apply lru_getitem_absolute.
Qed.

(** C6, as the code has it. For a key that does not start with "/": a
    lookup of a key that has an entry, and an insertion once the base class
    has stored the value (as it does when there is room for it), leave the
    key and then its cached ancestors, nearest first, as the most recently
    used entries. *)
Theorem touch_propagation (fuel : nat) (path : string) :
  relative path -> (String.length path <= fuel)%nat ->
  (forall c e, LRU.data c !! path = Some e ->
     __getitem__ fuel path c = (Ret e, touched path c)) /\
  (forall s v s1, Cache_setitem fuel path v s = (Ret tt, s1) ->
     __setitem__ fuel path v s
     = (Ret tt, with_cache (touched path (_cache_data s1)) s1)) /\
  (forall s v,
     LRU.data (_cache_data s) !! path = None ->
     weight v <= LRU.maxsize (_cache_data s) ->
     LRU.currsize (_cache_data s) + weight v <= LRU.maxsize (_cache_data s) ->
     __setitem__ fuel path v s
     = (Ret tt, with_cache (touched path (stored path v (_cache_data s))) s)) /\
  (forall c, exists rest,
     LRU.order (touched path c) = (rest ++ path :: present_ancestors c path)%list /\
     forall k, k ∈ path :: present_ancestors c path -> k ∉ rest).
Proof.
  intros Hrel Hfuel. repeat split.
  - intros c e Hin. now apply getitem_touches.
  - intros s v s1 Hset. now apply setitem_touches.
  - intros s v Hnew Hfit Hroom. now apply setitem_room.
  - intros c. eexists. split; [reflexivity|].
    intros k Hk Hin. apply list_elem_of_filter in Hin as [Hn _]. now apply Hn.
Qed.

Lemma touch_propagation_witness :
  relative "a/b/c.txt" /\ (String.length "a/b/c.txt" <= 20)%nat /\
  __getitem__ 20 "a/b/c.txt" (_cache_data nested_then_z)
  = (Ret (Entry 5 "cache/a/b/c.txt" 10),
     touched "a/b/c.txt" (_cache_data nested_then_z)) /\
  LRU.order (_cache_data nested_then_z) = ["a/b/c.txt"; "a/b/"; "a/"; "z.txt"] /\
  LRU.order (touched "a/b/c.txt" (_cache_data nested_then_z))
  = ["z.txt"; "a/b/c.txt"; "a/b/"; "a/"].
Proof.
  assert (H1 : relative "a/b/c.txt") by reflexivity.
  assert (H2 : (String.length "a/b/c.txt" <= 20)%nat) by (simpl; lia).
  repeat (split; [assumption|]). split; [|split].
  - apply (proj1 (touch_propagation 20 "a/b/c.txt" H1 H2)).
    vm_compute. reflexivity.
  - vm_compute. reflexivity.
  - vm_compute. reflexivity.
Defined.

(** C6 as it is stated fails twice. A lookup of a path that has no entry
    touches nothing, though ancestors of the path are cached: z.txt stays
    more recent than a/b/ and a/. And with the keys written /a/, /a/b/ and
    /a/b/c.txt the access never returns. *)
Lemma lookup_without_touch :
  (present_ancestors (_cache_data nested_then_z) "a/b/other.txt" = ["a/b/"; "a/"] /\
   get 20 "a/b/other.txt" 0 nested_then_z = (Ret None, nested_then_z) /\
   LRU.order (_cache_data nested_then_z) = ["a/b/c.txt"; "a/b/"; "a/"; "z.txt"]) /\
  ~ (exists fuel r c', __getitem__ fuel "/a/b/c.txt" rooted = (Ret r, c')).
Proof.
  split.
  - repeat split; vm_compute; reflexivity.
  - intros (fuel & r & c' & E).
    unfold __getitem__, LRU.LRUCache_getitem, LRU.Cache_getitem, bind in E.
    change (LRU.data rooted !! "/a/b/c.txt") with (Some (Entry 5 "/a/b/c.txt" 10)) in E.
    unfold LRU.update, modify, ret in E.
    match type of E with
    | context [up_parents fuel ?p ?c] =>
        pose proof (up_parents_absolute fuel p c eq_refl) as H;
        destruct (up_parents fuel p c) as [r1 c1]
    end.
    simpl in H. subst r1. discriminate.
Qed.

End Recency.

Section Defects.

Import S3CacheManager S3CacheManager.CustomLRUCache.

(** C1 on the code. Invalidating a/b/c.txt under the markers a/b/ and a/
    raises and removes no entry, though the file on disk is gone. With
    a/b left empty the cascade stops at [os.unlink] of the directory; with
    a second file in a/b it reaches the marker a/, whose key the base class
    is asked to delete without its "/". *)
Theorem cascade_invalidation_raises :
  (invalidate 20 "a/b/c.txt" nested).1 = Raise OSError /\
  map (fun k => cached k (invalidate 20 "a/b/c.txt" nested).2)
      ["a/b/c.txt"; "a/b/"; "a/"] = [true; true; true] /\
  Disk.isfile "cache/a/b/c.txt" (disk nested) = true /\
  Disk.isfile "cache/a/b/c.txt" (disk (invalidate 20 "a/b/c.txt" nested).2) = false /\
  (invalidate 20 "a/b/c.txt" nested_with_sibling).1 = Raise (KeyError "a") /\
  map (fun k => cached k (invalidate 20 "a/b/c.txt" nested_with_sibling).2)
      ["a/b/c.txt"; "a/b/"; "a/"] = [true; true; true].
Proof. repeat split; vm_compute; reflexivity. Qed.

(** C8 on the code. Invalidating a path without entry does reach the
    marker of its parent, and there the removal raises: the marker a/
    stays. *)
Theorem orphan_invalidation_raises :
  cached "a/y.txt" marker_over_file = false /\
  (invalidate 20 "a/y.txt" marker_over_file).1 = Raise (KeyError "a") /\
  cached "a/" (invalidate 20 "a/y.txt" marker_over_file).2 = true /\
  (invalidate 20 "a/y.txt" marker_alone).1 = Raise OSError /\
  cached "a/" (invalidate 20 "a/y.txt" marker_alone).2 = true.
Proof. repeat split; vm_compute; reflexivity. Qed.

(** C3 on the code. The first copy of d/ registers the markers d/ and d/s/
    with the second reading of the clock; the second copy asks for an entry
    as recent as the third reading. When the clock has advanced the lookup
    fails and the bucket is listed again; only with a clock that stands
    still is the directory copied from the cache. *)
Theorem second_copy_lists_again :
  (S3FSProvider.copy_from no_leading_slash 20 "" (Some "d/") "out"
     (start ticking two_files 100)).1 = Ret tt /\
  map (fun k => timestamp <$> entry_of k (S3FSProvider._cache (after_first_copy ticking)))
      ["d/"; "d/s/"] = [Some 11; Some 11] /\
  (S3FSProvider.copy_from no_leading_slash 20 "" (Some "d/") "out2"
     (after_first_copy ticking)).1 = Ret tt /\
  lists_or_gets (S3FSProvider.copy_from no_leading_slash 20 "" (Some "d/") "out2"
                   (after_first_copy ticking)).2
  = [S3FSProvider.Remote S3.List "d/"] /\
  lists_or_gets (S3FSProvider.copy_from no_leading_slash 20 "" (Some "d/") "out2"
                   (after_first_copy standing)).2
  = [].
Proof. repeat split; vm_compute; reflexivity. Qed.

End Defects.

Section Ordering.

Variable _checkpath : string -> bool.

(** C5, as the code has it. A delete of a file path records the
    invalidation of the cache path first and calls the remote store only
    after it, and not at all when the invalidation raises; the cache is then
    as the invalidation left it. A write goes to the remote store alone: it
    leaves the cache as it is and invalidates nothing. *)
Theorem delete_invalidates_first (fuel : nat) (self filepath : string)
    (w : S3FSProvider.world) :
  _checkpath filepath = true ->
  Path.endswith_slash (self ++ filepath) = false ->
  let fullpath := self ++ filepath in
  let inv := S3CacheManager.invalidate (S fuel) fullpath (S3FSProvider._cache w) in
  let after := (S3FSProvider.delete _checkpath (S fuel) self (Some filepath) w).2 in
  S3FSProvider._cache after = inv.2 /\
  S3FSProvider.log after
  = (S3FSProvider.log w ++ S3FSProvider.Invalidate fullpath ::
       match inv.1 with
       | Ret _ => [S3FSProvider.Remote S3.Delete fullpath]
       | _ => []
       end)%list /\
  forall content,
    S3FSProvider._cache (S3FSProvider.put _checkpath self filepath content w).2
    = S3FSProvider._cache w /\
    List.filter is_invalidate
      (S3FSProvider.log (S3FSProvider.put _checkpath self filepath content w).2)
    = List.filter is_invalidate (S3FSProvider.log w).
Proof.
  intros Hok Hfile fullpath inv after. split; [|split].
  3: { intros content. apply put_keeps_cache. }
  all: subst after inv fullpath.
  all: cbn [S3FSProvider.delete default from_option]; unfold id.
  all: unfold S3FSProvider.checkpath, bind; rewrite Hok;
    unfold ret; rewrite Hfile;
    unfold try_except, bind, S3FSProvider.cachem, zoom, S3FSProvider.s3,
      S3FSProvider.record, modify, bind, zoom;
    cbn [S3FSProvider._cache S3FSProvider._bucket S3FSProvider.clock S3FSProvider.reads
         S3FSProvider.log fst snd].
  all: destruct (S3CacheManager.invalidate (S fuel) (self ++ filepath) (S3FSProvider._cache w))
         as [[[]|e|] c']; cbn [fst snd];
       cbn [S3FSProvider._cache S3FSProvider._bucket S3FSProvider.clock S3FSProvider.reads
            S3FSProvider.log fst snd];
       try (destruct (S3.delete (self ++ filepath) (S3FSProvider._bucket w))
              as [[[]|e'|] b1]; try destruct (is_ClientError e'));
       try destruct (is_ClientError e);
       cbn [S3FSProvider._cache S3FSProvider._bucket S3FSProvider.clock S3FSProvider.reads
            S3FSProvider.log fst snd is_ClientError raise];
       rewrite <- ?app_assoc; reflexivity.
Qed.

End Ordering.

Lemma delete_invalidates_first_witness :
  no_leading_slash "d/f.txt" = true /\
  Path.endswith_slash ("" ++ "d/f.txt") = false /\
  S3FSProvider.log
    (S3FSProvider.delete no_leading_slash 20 "" (Some "d/f.txt") cached_file).2
  = [S3FSProvider.Invalidate "d/f.txt"; S3FSProvider.Remote S3.Delete "d/f.txt"].
Proof.
  assert (H1 : no_leading_slash "d/f.txt" = true) by reflexivity.
  assert (H2 : Path.endswith_slash ("" ++ "d/f.txt") = false) by reflexivity.
  repeat (split; [assumption|]).
  apply (delete_invalidates_first no_leading_slash 19 "" "d/f.txt" cached_file H1 H2).
Defined.

(** C5 as it is stated fails. The delete of a cached file invalidates the
    cache before the remote call: when the store refuses the call the object
    is still in the bucket and its entry has left the cache. And a write
    invalidates nothing: the entry of the path written is still cached. *)
Lemma cache_invalidated_before_remote_delete :
  (cached "d/f.txt" (S3FSProvider._cache cached_file) = true /\
   S3FSProvider.log (S3FSProvider.delete no_leading_slash 20 "" (Some "d/f.txt") cached_file).2
   = [S3FSProvider.Invalidate "d/f.txt"; S3FSProvider.Remote S3.Delete "d/f.txt"]) /\
  (let r := S3FSProvider.delete no_leading_slash 20 "" (Some "d/f.txt")
              (with_bucket (refusing S3.Delete) cached_file) in
   r.1 = Raise NotFoundException /\
   cached "d/f.txt" (S3FSProvider._cache r.2) = false /\
   is_Some (S3.find "d/f.txt" (S3.objects (S3FSProvider._bucket r.2)))) /\
  (let r := S3FSProvider.put no_leading_slash "" "d/f.txt" (zeros 2) cached_file in
   r.1 = Ret tt /\
   S3FSProvider.log r.2
   = [S3FSProvider.Remote S3.Upload "d/f.txt"; S3FSProvider.Remote S3.PutObject "d/"] /\
   cached "d/f.txt" (S3FSProvider._cache r.2) = true).
Proof. repeat split; vm_compute; eauto. Qed.

Section Errors.

Variable _checkpath : string -> bool.


End Errors.


(** C7. Once an insertion into a cache that was made empty has returned,
    whatever calls to the cache manager came before it and come after it,
    and whether those return or raise: the weights of the file entries sum
    to at most the maximal size, as do the weights of all the entries; the
    bookkeeping of the cache is that sum; every entry is the tuple that an
    insertion among the calls gave under its key, whose weight is the byte
    length of the content for a file and 0 for a directory marker; no
    weight is negative and an entry under a key that ends with "/" weighs
    nothing. The insertion that returned has left its tuple in the
    cache. *)
Theorem capacity_bound (fuel : nat) (before : list op) (o : op) (after : list op)
    (max_size : Z) (d : Disk.t) (cache_path : string) :
  let s := run_ops fuel before (empty_cache max_size d cache_path) in
  let c := S3CacheManager._cache_data (run_ops fuel after (run_op fuel o s)) in
  is_insertion o = true -> returns fuel o s = true ->
  sum_file_weights (LRU.data c) <= max_size /\
  sum_weights (LRU.data c) <= max_size /\
  LRU.currsize c = sum_weights (LRU.data c) /\
  LRU.maxsize c = max_size /\
  (forall k e, LRU.data c !! k = Some e ->
     exists o', In o' (before ++ o :: after) /\ inserts cache_path o' = Some (k, e)) /\
  (forall k e, LRU.data c !! k = Some e ->
     0 <= weight e /\ (Path.endswith_slash k = true -> weight e = 0)) /\
  exists e, inserts cache_path o = Some (op_path o, e) /\
            entry_of (op_path o) (run_op fuel o s) = Some e.
Proof.
  intros s c Hins Hret.
  assert (Hc : c = S3CacheManager._cache_data
                     (run_ops fuel (before ++ o :: after)
                        (empty_cache max_size d cache_path))).
  { unfold c, s, run_ops. rewrite fold_left_app. reflexivity. }
  destruct (entries_inserted fuel before max_size d cache_path) as (Hm0 & Hp0 & _).
  fold s in Hm0, Hp0.
  assert (Hmax : 0 <= max_size).
  { rewrite <- Hm0. exact (insertion_returns_fits fuel o s Hins Hret). }
  assert (H : bounded max_size c).
  { rewrite Hc. apply (run_ops_bounded max_size fuel). apply bounded_init, Hmax. }
  destruct H as (Hs & Hcur & Hw & Hle & Hm).
  pose proof (sum_file_weights_le (LRU.data c) (fun k e Hk => proj1 (Hw k e Hk))).
  destruct (entries_inserted fuel (before ++ o :: after) max_size d cache_path)
    as (_ & _ & He).
  rewrite <- Hc in He.
  split; [lia|]. split; [lia|]. split; [exact Hcur|]. split; [exact Hm|].
  split; [exact He|]. split; [exact Hw|].
  destruct o as [| path ts content | path ts |]; try discriminate;
    cbn [returns run_op inserts op_path] in *.
  - eexists. split; [reflexivity|].
    destruct (S3CacheManager.put_file fuel path ts content s) as [[[]|x|] s'] eqn:E;
      try discriminate.
    rewrite <- Hp0. exact (put_file_stores _ _ _ _ _ _ E).
  - eexists. split; [reflexivity|].
    destruct (S3CacheManager.put_folder fuel path ts s) as [[[]|x|] s'] eqn:E;
      try discriminate.
    rewrite <- Hp0. exact (put_folder_stores _ _ _ _ _ E).
Qed.

Lemma capacity_bound_witness :
  let before := [PutFile "a" 1 (zeros 60); PutFolder "d/" 2] in
  let o := PutFile "b" 1 (zeros 60) in
  let after := [Get "b" 0; PutFile "c" 1 (zeros 200)] in
  let s := run_ops 20 before (empty_cache 100 Disk.empty "cache") in
  let c := S3CacheManager._cache_data (run_ops 20 after (run_op 20 o s)) in
  is_insertion o = true /\ returns 20 o s = true /\
  sum_file_weights (LRU.data c) <= 100 /\
  entry_of "b" (run_op 20 o s) = Some (Entry 1 "cache/b" 60) /\
  map (fun k => cached k (run_op 20 o s)) ["a"; "d/"; "b"] = [false; true; true].
Proof.
  cbv zeta.
  assert (H1 : is_insertion (PutFile "b" 1 (zeros 60)) = true) by reflexivity.
  assert (H2 : returns 20 (PutFile "b" 1 (zeros 60))
                 (run_ops 20 [PutFile "a" 1 (zeros 60); PutFolder "d/" 2]
                    (empty_cache 100 Disk.empty "cache")) = true)
    by (vm_compute; reflexivity).
  pose proof (capacity_bound 20 [PutFile "a" 1 (zeros 60); PutFolder "d/" 2]
                (PutFile "b" 1 (zeros 60)) [Get "b" 0; PutFile "c" 1 (zeros 200)]
                100 Disk.empty "cache" H1 H2) as H.
  cbv zeta in H.
  split; [exact H1|]. split; [exact H2|]. split; [exact (proj1 H)|].
  split; vm_compute; reflexivity.
Defined.




Section Freshness.

Variable _checkpath : string -> bool.


End Freshness.



(** * Further properties of the cache manager and of the provider *)

Section CacheManager.

Import S3CacheManager S3CacheManager.CustomLRUCache.

(** X1. Starting the cache manager empties the cache directory. For a
    cache path without "." or ".." among its components, and the files
    whose path has none either: when [S3CacheManager.__init__] returns, the
    cache holds no entry, the cache directory exists, no file of the disk
    lies in it or under it, and the files elsewhere are as before. *)
Theorem init_wipes (cache_path : string) (max_size : Z) (d d' : Disk.t)
    (s : S3CacheManager.t) :
  plain cache_path ->
  Disk.norm cache_path <> "/" ->
  S3CacheManager.__init__ cache_path max_size d = (Ret s, d') ->
  s = empty_cache max_size d' cache_path /\
  Disk.isdir cache_path d' = true /\
  (forall p, plain p -> below cache_path p = true -> Disk.files d' !! p = None) /\
  (forall p, plain p -> below cache_path p = false ->
     Disk.files d' !! p = Disk.files d !! p).
Proof.
  intros _ _. unfold S3CacheManager.__init__. intros H.
  apply bind_returns in H. destruct H as [u [d1 [Hw H]]].
  injection H as Hs Hd. subst s d1. split; [reflexivity|].
  revert Hw. unfold Disk.wipe. destruct (Disk.isfile cache_path d); [discriminate|].
  unfold Disk.makedirs. cbn [Disk.files Disk.dirs].
  destruct (String.eqb (Disk.norm cache_path) "") eqn:E; [discriminate|].
  destruct (existsb _ _); [discriminate|].
  intros [= Hd]. subst d'. split; [|split].
  - unfold Disk.isdir. cbn [Disk.dirs]. apply bool_decide_eq_true.
    apply elem_of_union. left. apply elem_of_list_to_set.
    cbn [Disk.chain]. rewrite E. apply list_elem_of_here.
  - intros p _ Hp. cbn [Disk.files]. apply map_lookup_filter_None. right.
    intros content _ Hfalse. unfold below in Hp. cbn [fst] in Hfalse. congruence.
  - intros p _ Hp. cbn [Disk.files]. destruct (Disk.files d !! p) as [content|] eqn:F.
    + apply map_lookup_filter_Some. split; [exact F|]. exact Hp.
    + apply map_lookup_filter_None. now left.
Qed.

Lemma init_wipes_witness :
  let d' := (S3CacheManager.__init__ "cache" 100 stale_disk).2 in
  let s := empty_cache 100 d' "cache" in
  plain "cache" /\
  Disk.norm "cache" <> "/" /\
  S3CacheManager.__init__ "cache" 100 stale_disk = (Ret s, d') /\
  (s = empty_cache 100 d' "cache" /\
   Disk.isdir "cache" d' = true /\
   (forall p, plain p -> below "cache" p = true -> Disk.files d' !! p = None) /\
   (forall p, plain p -> below "cache" p = false ->
      Disk.files d' !! p = Disk.files stale_disk !! p)) /\
  Disk.isfile "cache/old.txt" stale_disk = true /\
  Disk.isfile "cache/old.txt" d' = false /\ Disk.isfile "other.txt" d' = true.
Proof.
  intros d' s.
  assert (H0 : plain "cache") by (repeat constructor; discriminate).
  assert (H1 : Disk.norm "cache" <> "/") by discriminate.
  assert (H2 : S3CacheManager.__init__ "cache" 100 stale_disk = (Ret s, d'))
    by (vm_compute; reflexivity).
  split; [exact H0|]. split; [exact H1|]. split; [exact H2|].
  split; [exact (init_wipes "cache" 100 stale_disk d' s H0 H1 H2)|].
  repeat split; vm_compute; reflexivity.
Defined.

(** X2. Insertion then lookup: once [put_file] or [put_folder] has returned
    for a path with the timestamp [ts], a lookup of the path with a
    timestamp not later than [ts] gives the location of the entry on the
    disk, the cache directory joined with the path. *)
Theorem lookup_after_insert (fuel : nat) (path : string) (ts t : Z)
    (s s' : S3CacheManager.t) :
  (String.length path <= fuel)%nat -> t <= ts ->
  (exists content, put_file fuel path ts content s = (Ret tt, s')) \/
  put_folder fuel path ts s = (Ret tt, s') ->
  (get fuel path t s').1 = Ret (Some (Path.join (_cache_path s) path)).
Proof.
  intros Hfuel Ht Hput.
  assert (Hrel : forall v r, __setitem__ fuel path v r = (Ret tt, s') -> relative path).
  { intros v r H. unfold relative.
    destruct (Path.startswith_slash (strip_slash path)) eqn:E; [|reflexivity].
    exfalso. now apply (setitem_absolute fuel path v r E _ _ H). }
  assert (Hget : forall e, relative path -> entry_of path s' = Some e -> t <= timestamp e ->
            (get fuel path t s').1 = Ret (Some (disk_path e))).
  { intros e Hr He Hte. rewrite (get_cached fuel path t s' e Hr Hfuel He). simpl.
    destruct (timestamp e >=? t) eqn:E; [reflexivity | lia]. }
  destruct Hput as [[content H] | H].
  - pose proof (put_file_stores _ _ _ _ _ _ H) as He.
    apply (Hget _) in He; [exact He | | exact Ht].
    revert H. unfold put_file. unfold bind at 1, gets. cbn [fst snd]. intros H.
    apply bind_returns in H. destruct H as [u1 [s1 [_ H]]].
    apply bind_returns in H. destruct H as [u2 [s2 [_ H]]].
    now apply Hrel in H.
  - pose proof (put_folder_stores _ _ _ _ _ H) as He.
    apply (Hget _) in He; [exact He | | exact Ht].
    revert H. unfold put_folder. unfold bind at 1, gets. cbn [fst snd]. intros H.
    apply bind_returns in H. destruct H as [u1 [s1 [_ H]]].
    now apply Hrel in H.
Qed.

Lemma lookup_after_insert_witness :
  let s' := (put_folder 20 "a/b/" 5 (fresh 100)).2 in
  (String.length "a/b/" <= 20)%nat /\ 3 <= 5 /\
  put_folder 20 "a/b/" 5 (fresh 100) = (Ret tt, s') /\
  (get 20 "a/b/" 3 s').1 = Ret (Some (Path.join (_cache_path (fresh 100)) "a/b/")).
Proof.
  intros s'.
  assert (H1 : (String.length "a/b/" <= 20)%nat) by (simpl; lia).
  assert (H2 : 3 <= 5) by lia.
  assert (H3 : put_folder 20 "a/b/" 5 (fresh 100) = (Ret tt, s')) by (vm_compute; reflexivity).
  repeat (split; [assumption|]).
  exact (lookup_after_insert 20 "a/b/" 5 3 (fresh 100) s' H1 H2 (or_intror H3)).
Defined.

(** X3. A file stored with room to spare can be read back: when the path
    has no entry, the cache has room for the content and the file can be
    written, [put_file] returns without evicting anything, the only change
    to the entries is the new one, a lookup with the same timestamp gives
    the location, and the file there holds the content. *)
Theorem put_file_round_trip (fuel : nat) (path : string) (ts : Z) (content : bytes)
    (s : S3CacheManager.t) (d1 d2 : Disk.t) :
  let c := _cache_data s in
  let location := Path.join (_cache_path s) path in
  relative path -> (String.length path <= fuel)%nat ->
  LRU.data c !! path = None ->
  0 <= LRU.currsize c -> LRU.currsize c + len content <= LRU.maxsize c ->
  Disk.makedirs (Path.split_head location) (disk s) = (Ret tt, d1) ->
  Disk.write location content d1 = (Ret tt, d2) ->
  exists s',
    put_file fuel path ts content s = (Ret tt, s') /\
    LRU.data (_cache_data s') = <[path := Entry ts location (len content)]> (LRU.data c) /\
    LRU.currsize (_cache_data s') = LRU.currsize c + len content /\
    (get fuel path ts s').1 = Ret (Some location) /\
    Disk.read location (disk s') = (Ret content, disk s').
Proof.
  cbv zeta. intros Hrel Hfuel Hnew Hpos Hroom Hmk Hwr.
  eexists. split.
  { exact (put_file_room fuel path ts content s d1 d2 Hrel Hfuel Hnew Hpos Hroom Hmk Hwr). }
  split; [reflexivity|]. split.
  { cbn. now rewrite Hnew. }
  split.
  - erewrite get_cached; [| exact Hrel | exact Hfuel |].
    2: { cbn. apply lookup_insert_eq. }
    cbn. destruct (ts >=? ts) eqn:E; [reflexivity | lia].
  - cbn. eapply read_written. exact Hwr.
Qed.

Lemma put_file_round_trip_witness :
  let s := fresh 100 in
  let c := _cache_data s in
  let location := Path.join (_cache_path s) "a/b.txt" in
  let d1 := (Disk.makedirs (Path.split_head location) (disk s)).2 in
  let d2 := (Disk.write location (zeros 10) d1).2 in
  relative "a/b.txt" /\ (String.length "a/b.txt" <= 20)%nat /\
  LRU.data c !! "a/b.txt" = None /\
  0 <= LRU.currsize c /\ LRU.currsize c + len (zeros 10) <= LRU.maxsize c /\
  Disk.makedirs (Path.split_head location) (disk s) = (Ret tt, d1) /\
  Disk.write location (zeros 10) d1 = (Ret tt, d2) /\
  exists s',
    put_file 20 "a/b.txt" 5 (zeros 10) s = (Ret tt, s') /\
    LRU.data (_cache_data s')
    = <["a/b.txt" := Entry 5 location (len (zeros 10))]> (LRU.data c) /\
    LRU.currsize (_cache_data s') = LRU.currsize c + len (zeros 10) /\
    (get 20 "a/b.txt" 5 s').1 = Ret (Some location) /\
    Disk.read location (disk s') = (Ret (zeros 10), disk s').
Proof.
  intros s c location d1 d2.
  assert (H1 : relative "a/b.txt") by reflexivity.
  assert (H2 : (String.length "a/b.txt" <= 20)%nat) by (simpl; lia).
  assert (H3 : LRU.data c !! "a/b.txt" = None) by reflexivity.
  assert (H4 : 0 <= LRU.currsize c) by (vm_compute; discriminate).
  assert (H5 : LRU.currsize c + len (zeros 10) <= LRU.maxsize c) by (vm_compute; discriminate).
  assert (H6 : Disk.makedirs (Path.split_head location) (disk s) = (Ret tt, d1))
    by (vm_compute; reflexivity).
  assert (H7 : Disk.write location (zeros 10) d1 = (Ret tt, d2)) by (vm_compute; reflexivity).
  repeat (split; [assumption|]).
  exact (put_file_round_trip 20 "a/b.txt" 5 (zeros 10) s d1 d2 H1 H2 H3 H4 H5 H6 H7).
Defined.



End CacheManager.

Section CacheManager2.

Import S3CacheManager S3CacheManager.CustomLRUCache.

(** X5. Eviction takes the least recently used file. When the cache is
    too full for a new file, the least recently used entry is a file
    without cached parent marker, and removing it leaves room, [put_file]
    returns: that entry is gone and its file is deleted from the disk, the
    new entry is stored, and no other entry changes. *)
Theorem put_file_evicts_lru (fuel : nat) (path : string) (ts : Z) (content : bytes)
    (s : S3CacheManager.t) (k : string) (rest : list string) (e : entry) (sz : Z)
    (d1 d2 d3 : Disk.t) :
  let c := _cache_data s in
  let location := Path.join (_cache_path s) path in
  relative path -> (String.length path <= S (S fuel))%nat ->
  LRU.data c !! path = None ->
  LRU.order c = k :: rest ->
  relative k -> (String.length k <= S fuel)%nat -> Path.endswith_slash k = false ->
  LRU.data c !! k = Some e -> LRU.sizes c !! k = Some sz ->
  parent_uncached k c ->
  len content <= LRU.maxsize c ->
  LRU.maxsize c < LRU.currsize c + len content ->
  LRU.currsize c - sz + len content <= LRU.maxsize c ->
  Disk.makedirs (Path.split_head location) (disk s) = (Ret tt, d1) ->
  Disk.write location content d1 = (Ret tt, d2) ->
  Disk.unlink (disk_path e) d2 = (Ret tt, d3) ->
  exists s',
    put_file (S (S fuel)) path ts content s = (Ret tt, s') /\
    entry_of k s' = None /\
    entry_of path s' = Some (Entry ts location (len content)) /\
    (forall key, key <> k -> key <> path -> entry_of key s' = entry_of key s) /\
    LRU.currsize (_cache_data s') = LRU.currsize c - sz + len content /\
    disk s' = d3 /\ Disk.isfile (disk_path e) (disk s') = false.
Proof.
  cbv zeta. intros Hrel Hlen Hnew Ho Hrelk Hlenk Hfile He Hsz Hpar Hfit Hfull Hroom
    Hmk Hwr Hun.
  set (location := Path.join (_cache_path s) path) in *.
  set (v := Entry ts location (len content)).
  assert (Hne : path <> k) by (intros ->; congruence).
  pose proof (Cache_setitem_evicts_one fuel path v (on_disk d2 s) k rest e sz d3
                Ho Hrelk Hlenk Hfile He Hsz Hpar Hun (or_introl Hnew) Hfit Hfull Hroom) as Hc.
  rewrite (put_file_written _ path ts content s d1 d2 Hmk Hwr).
  fold location. fold v. rewrite (setitem_touches _ _ _ _ _ Hrel Hlen Hc).
  eexists. split; [reflexivity|]. unfold entry_of. cbn.
  split; [rewrite lookup_insert_ne by exact Hne; apply lookup_delete_eq|].
  split; [apply lookup_insert_eq|].
  split.
  { intros key H1 H2. rewrite lookup_insert_ne by congruence.
    now rewrite lookup_delete_ne by congruence. }
  split.
  { rewrite lookup_delete_ne by congruence. rewrite Hnew. reflexivity. }
  split; [reflexivity|].
  revert Hun. unfold Disk.unlink.
  destruct (Disk.isfile (disk_path e) d2 && negb (Path.endswith_slash (disk_path e)))%bool;
    [|discriminate].
  intros [= <-]. unfold Disk.isfile. cbn. apply bool_decide_eq_false.
  rewrite lookup_delete_eq. now intros [x Hx].
Qed.

Lemma put_file_evicts_lru_witness :
  let s := one_file in
  let c := _cache_data s in
  let location := Path.join (_cache_path s) "b" in
  let e := Entry 1 "cache/a" 60 in
  let d1 := (Disk.makedirs (Path.split_head location) (disk s)).2 in
  let d2 := (Disk.write location (zeros 60) d1).2 in
  let d3 := (Disk.unlink (disk_path e) d2).2 in
  relative "b" /\ (String.length "b" <= 20)%nat /\
  LRU.data c !! "b" = None /\
  LRU.order c = ["a"] /\
  relative "a" /\ (String.length "a" <= 19)%nat /\ Path.endswith_slash "a" = false /\
  LRU.data c !! "a" = Some e /\ LRU.sizes c !! "a" = Some 60 /\
  parent_uncached "a" c /\
  len (zeros 60) <= LRU.maxsize c /\
  LRU.maxsize c < LRU.currsize c + len (zeros 60) /\
  LRU.currsize c - 60 + len (zeros 60) <= LRU.maxsize c /\
  Disk.makedirs (Path.split_head location) (disk s) = (Ret tt, d1) /\
  Disk.write location (zeros 60) d1 = (Ret tt, d2) /\
  Disk.unlink (disk_path e) d2 = (Ret tt, d3) /\
  exists s',
    put_file 20 "b" 2 (zeros 60) s = (Ret tt, s') /\
    entry_of "a" s' = None /\
    entry_of "b" s' = Some (Entry 2 location (len (zeros 60))) /\
    (forall key, key <> "a" -> key <> "b" -> entry_of key s' = entry_of key s) /\
    LRU.currsize (_cache_data s') = LRU.currsize c - 60 + len (zeros 60) /\
    disk s' = d3 /\ Disk.isfile (disk_path e) (disk s') = false.
Proof.
  intros s c location e d1 d2 d3.
  assert (H1 : relative "b") by reflexivity.
  assert (H2 : (String.length "b" <= 20)%nat) by (simpl; lia).
  assert (H3 : LRU.data c !! "b" = None) by (vm_compute; reflexivity).
  assert (H4 : LRU.order c = ["a"]) by (vm_compute; reflexivity).
  assert (H5 : relative "a") by reflexivity.
  assert (H6 : (String.length "a" <= 19)%nat) by (simpl; lia).
  assert (H7 : Path.endswith_slash "a" = false) by reflexivity.
  assert (H8 : LRU.data c !! "a" = Some e) by (vm_compute; reflexivity).
  assert (H9 : LRU.sizes c !! "a" = Some 60) by (vm_compute; reflexivity).
  assert (H10 : parent_uncached "a" c) by (left; reflexivity).
  assert (H11 : len (zeros 60) <= LRU.maxsize c) by (vm_compute; discriminate).
  assert (H12 : LRU.maxsize c < LRU.currsize c + len (zeros 60)) by (vm_compute; reflexivity).
  assert (H13 : LRU.currsize c - 60 + len (zeros 60) <= LRU.maxsize c)
    by (vm_compute; discriminate).
  assert (H14 : Disk.makedirs (Path.split_head location) (disk s) = (Ret tt, d1))
    by (vm_compute; reflexivity).
  assert (H15 : Disk.write location (zeros 60) d1 = (Ret tt, d2)) by (vm_compute; reflexivity).
  assert (H16 : Disk.unlink (disk_path e) d2 = (Ret tt, d3)) by (vm_compute; reflexivity).
  repeat (split; [assumption|]).
  exact (put_file_evicts_lru 18 "b" 2 (zeros 60) s "a" [] e 60 d1 d2 d3
           H1 H2 H3 H4 H5 H6 H7 H8 H9 H10 H11 H12 H13 H14 H15 H16).
Defined.

(** X6. A cached file replaced by a larger version can evict itself. When
    the entry of the path is the least recently used one, the new content
    is larger than the old and does not fit beside it, [put_file] writes
    the new file, the eviction then deletes that very file, and the new
    entry is stored all the same: a lookup gives a location where no file
    is, and reading it fails. *)
Theorem refresh_evicts_itself (fuel : nat) (path : string) (ts : Z) (content : bytes)
    (s : S3CacheManager.t) (rest : list string) (e : entry) (sz : Z) (d1 d2 : Disk.t) :
  let c := _cache_data s in
  let location := Path.join (_cache_path s) path in
  relative path -> (String.length path <= S fuel)%nat -> Path.endswith_slash path = false ->
  LRU.order c = path :: rest ->
  LRU.data c !! path = Some e -> LRU.sizes c !! path = Some sz -> disk_path e = location ->
  parent_uncached path c ->
  sz < len content -> len content <= LRU.maxsize c ->
  LRU.maxsize c < LRU.currsize c + len content ->
  LRU.currsize c - sz + len content <= LRU.maxsize c ->
  Disk.makedirs (Path.split_head location) (disk s) = (Ret tt, d1) ->
  Disk.write location content d1 = (Ret tt, d2) ->
  exists s',
    put_file (S (S fuel)) path ts content s = (Ret tt, s') /\
    entry_of path s' = Some (Entry ts location (len content)) /\
    (get (S (S fuel)) path ts s').1 = Ret (Some location) /\
    Disk.isfile location (disk s') = false /\
    (Disk.read location (disk s')).1 = Raise OSError.
Proof.
  cbv zeta. intros Hrel Hlen Hfile Ho He Hsz Hloc Hpar Hgrow Hfit Hfull Hroom Hmk Hwr.
  set (location := Path.join (_cache_path s) path) in *.
  set (v := Entry ts location (len content)).
  pose proof (unlink_written _ _ _ _ Hwr) as Hun. rewrite <- Hloc in Hun at 1.
  assert (Hlen' : (String.length path <= S (S fuel))%nat) by lia.
  pose proof (Cache_setitem_evicts_one fuel path v (on_disk d2 s) path rest e sz _
                Ho Hrel Hlen Hfile He Hsz Hpar Hun (or_intror (conj eq_refl Hgrow))
                Hfit Hfull Hroom) as Hc.
  rewrite (put_file_written _ path ts content s d1 d2 Hmk Hwr).
  fold location. fold v. rewrite (setitem_touches _ _ _ _ _ Hrel Hlen' Hc).
  match goal with |- exists s', (Ret tt, ?st) = _ /\ _ => set (s' := st) end.
  exists s'. split; [reflexivity|].
  assert (Hent : entry_of path s' = Some v).
  { unfold entry_of. cbn. apply lookup_insert_eq. }
  assert (Hfiles : Disk.files (disk s') !! Disk.norm location = None).
  { cbn. apply lookup_delete_eq. }
  clearbody s'. split; [exact Hent|]. split.
  { rewrite (get_cached _ _ _ _ v Hrel Hlen' Hent). cbn.
    destruct (Z.geb_spec ts ts); [reflexivity | lia]. }
  split.
  - unfold Disk.isfile. apply bool_decide_eq_false. rewrite Hfiles. now intros [x Hx].
  - unfold Disk.read. rewrite Hfiles. reflexivity.
Qed.

Lemma refresh_evicts_itself_witness :
  let s := one_file in
  let c := _cache_data s in
  let location := Path.join (_cache_path s) "a" in
  let e := Entry 1 "cache/a" 60 in
  let d1 := (Disk.makedirs (Path.split_head location) (disk s)).2 in
  let d2 := (Disk.write location (zeros 70) d1).2 in
  relative "a" /\ (String.length "a" <= 19)%nat /\ Path.endswith_slash "a" = false /\
  LRU.order c = ["a"] /\
  LRU.data c !! "a" = Some e /\ LRU.sizes c !! "a" = Some 60 /\ disk_path e = location /\
  parent_uncached "a" c /\
  60 < len (zeros 70) /\ len (zeros 70) <= LRU.maxsize c /\
  LRU.maxsize c < LRU.currsize c + len (zeros 70) /\
  LRU.currsize c - 60 + len (zeros 70) <= LRU.maxsize c /\
  Disk.makedirs (Path.split_head location) (disk s) = (Ret tt, d1) /\
  Disk.write location (zeros 70) d1 = (Ret tt, d2) /\
  exists s',
    put_file 20 "a" 2 (zeros 70) s = (Ret tt, s') /\
    entry_of "a" s' = Some (Entry 2 location (len (zeros 70))) /\
    (get 20 "a" 2 s').1 = Ret (Some location) /\
    Disk.isfile location (disk s') = false /\
    (Disk.read location (disk s')).1 = Raise OSError.
Proof.
  intros s c location e d1 d2.
  assert (H1 : relative "a") by reflexivity.
  assert (H2 : (String.length "a" <= 19)%nat) by (simpl; lia).
  assert (H3 : Path.endswith_slash "a" = false) by reflexivity.
  assert (H4 : LRU.order c = ["a"]) by (vm_compute; reflexivity).
  assert (H5 : LRU.data c !! "a" = Some e) by (vm_compute; reflexivity).
  assert (H6 : LRU.sizes c !! "a" = Some 60) by (vm_compute; reflexivity).
  assert (H7 : disk_path e = location) by reflexivity.
  assert (H8 : parent_uncached "a" c) by (left; reflexivity).
  assert (H9 : 60 < len (zeros 70)) by (vm_compute; reflexivity).
  assert (H10 : len (zeros 70) <= LRU.maxsize c) by (vm_compute; discriminate).
  assert (H11 : LRU.maxsize c < LRU.currsize c + len (zeros 70)) by (vm_compute; reflexivity).
  assert (H12 : LRU.currsize c - 60 + len (zeros 70) <= LRU.maxsize c)
    by (vm_compute; discriminate).
  assert (H13 : Disk.makedirs (Path.split_head location) (disk s) = (Ret tt, d1))
    by (vm_compute; reflexivity).
  assert (H14 : Disk.write location (zeros 70) d1 = (Ret tt, d2)) by (vm_compute; reflexivity).
  repeat (split; [assumption|]).
  exact (refresh_evicts_itself 18 "a" 2 (zeros 70) s [] e 60 d1 d2
           H1 H2 H3 H4 H5 H6 H7 H8 H9 H10 H11 H12 H13 H14).
Defined.

(** X7. Invalidating a cached file whose directory has no marker in the
    cache removes it: [invalidate] returns, the entry is gone, its file is
    deleted from the disk, the size of the cache decreases by the size of
    the entry and no other entry changes. *)
Theorem invalidate_removes_file (fuel : nat) (path : string) (s : S3CacheManager.t)
    (e : entry) (size : Z) (d' : Disk.t) :
  relative path -> (String.length path <= S fuel)%nat ->
  Path.endswith_slash path = false ->
  LRU.data (_cache_data s) !! path = Some e ->
  LRU.sizes (_cache_data s) !! path = Some size ->
  parent_uncached path (_cache_data s) ->
  Disk.unlink (disk_path e) (disk s) = (Ret tt, d') ->
  exists s',
    invalidate (S fuel) path s = (Ret tt, s') /\
    entry_of path s' = None /\
    (forall key, key <> path -> entry_of key s' = entry_of key s) /\
    LRU.currsize (_cache_data s') = LRU.currsize (_cache_data s) - size /\
    disk s' = d' /\ Disk.isfile (disk_path e) (disk s') = false.
Proof.
  intros Hrel Hfuel Hfile He Hsz Hpar Hun.
  exists (mk (removed path size (_cache_data s)) d' (_cache_path s)).
  split.
  - cbn [invalidate]. unfold bind at 1, gets at 1. cbn [fst snd].
    rewrite (contains_true _ _ _ He).
    now apply (delitem_file fuel path s e size d').
  - unfold entry_of. cbn. split; [apply lookup_delete_eq|].
    split; [intros key Hne; now apply lookup_delete_ne|].
    split; [reflexivity|]. split; [reflexivity|].
    revert Hun. unfold Disk.unlink.
    destruct (Disk.isfile (disk_path e) (disk s) && negb (Path.endswith_slash (disk_path e)))%bool;
      [|discriminate].
    intros [= <-]. unfold Disk.isfile. cbn. apply bool_decide_eq_false.
    rewrite lookup_delete_eq. now intros [x Hx].
Qed.

Lemma invalidate_removes_file_witness :
  let s := one_nested_file in
  let e := Entry 1 "cache/a/b.txt" 60 in
  let d' := (Disk.unlink (disk_path e) (disk s)).2 in
  relative "a/b.txt" /\ (String.length "a/b.txt" <= 20)%nat /\
  Path.endswith_slash "a/b.txt" = false /\
  LRU.data (_cache_data s) !! "a/b.txt" = Some e /\
  LRU.sizes (_cache_data s) !! "a/b.txt" = Some 60 /\
  parent_uncached "a/b.txt" (_cache_data s) /\
  Disk.unlink (disk_path e) (disk s) = (Ret tt, d') /\
  exists s',
    invalidate 20 "a/b.txt" s = (Ret tt, s') /\
    entry_of "a/b.txt" s' = None /\
    (forall key, key <> "a/b.txt" -> entry_of key s' = entry_of key s) /\
    LRU.currsize (_cache_data s') = LRU.currsize (_cache_data s) - 60 /\
    disk s' = d' /\ Disk.isfile (disk_path e) (disk s') = false.
Proof.
  intros s e d'.
  assert (H1 : relative "a/b.txt") by reflexivity.
  assert (H2 : (String.length "a/b.txt" <= 20)%nat) by (simpl; lia).
  assert (H3 : Path.endswith_slash "a/b.txt" = false) by reflexivity.
  assert (H4 : LRU.data (_cache_data s) !! "a/b.txt" = Some e) by (vm_compute; reflexivity).
  assert (H5 : LRU.sizes (_cache_data s) !! "a/b.txt" = Some 60) by (vm_compute; reflexivity).
  assert (H6 : parent_uncached "a/b.txt" (_cache_data s)) by (right; vm_compute; reflexivity).
  assert (H7 : Disk.unlink (disk_path e) (disk s) = (Ret tt, d')) by (vm_compute; reflexivity).
  repeat (split; [assumption|]).
  exact (invalidate_removes_file 19 "a/b.txt" s e 60 d' H1 H2 H3 H4 H5 H6 H7).
Defined.

(** X8. Invalidating a path does nothing when neither the path nor any of
    its ancestor directories has an entry: [invalidate] returns and the
    cache manager is unchanged. *)
Theorem invalidate_nothing_cached (fuel : nat) (path : string) (s : S3CacheManager.t) :
  relative path -> (String.length path <= fuel)%nat ->
  nothing_cached path s ->
  invalidate (S fuel) path s = (Ret tt, s).
Proof.
  intros Hrel Hfuel Hall. rewrite invalidate_uncached.
  2: { apply Hall. apply list_elem_of_here. }
  apply invalidate_walk; [exact Hrel | |].
  - pose proof (strip_slash_length path). lia.
  - intros key Hk. apply Hall. apply list_elem_of_further. unfold ancestors.
    rewrite (parents_more_fuel _ fuel); [exact Hk | exact Hrel | lia |].
    pose proof (strip_slash_length path). lia.
Qed.

Lemma invalidate_nothing_cached_witness :
  relative "x/y.txt" /\ (String.length "x/y.txt" <= 19)%nat /\
  nothing_cached "x/y.txt" one_nested_file /\
  invalidate 20 "x/y.txt" one_nested_file = (Ret tt, one_nested_file).
Proof.
  assert (H1 : relative "x/y.txt") by reflexivity.
  assert (H2 : (String.length "x/y.txt" <= 19)%nat) by (simpl; lia).
  assert (H3 : nothing_cached "x/y.txt" one_nested_file).
  { intros key Hk. vm_compute in Hk.
    repeat (apply elem_of_cons in Hk; destruct Hk as [->|Hk]; [vm_compute; reflexivity|]).
    inversion Hk. }
  repeat (split; [assumption|]).
  exact (invalidate_nothing_cached 19 "x/y.txt" one_nested_file H1 H2 H3).
Defined.

End CacheManager2.

Section Provider.

Variable _checkpath : string -> bool.

(** X9. The prefix a provider keeps is normalized: it is empty or ends
    with "/", it is never "/" alone, and normalizing it again changes
    nothing. *)
Theorem prefix_is_normal (prefix : string) :
  let p := S3FSProvider.__init__ prefix in
  (p = "" \/ Path.endswith_slash p = true) /\ p <> "/" /\ S3FSProvider.__init__ p = p.
Proof.
  cbv zeta. unfold S3FSProvider.__init__.
  destruct (Path.endswith_slash prefix) eqn:E.
  - destruct (String.eqb prefix "/") eqn:E1.
    + split; [now left|]. split; [discriminate|]. reflexivity.
    + split; [now right|]. split; [now apply String.eqb_neq|].
      rewrite E, E1. reflexivity.
  - destruct (String.eqb (prefix ++ "/") "/") eqn:E1.
    + split; [now left|]. split; [discriminate|]. reflexivity.
    + split; [right; apply endswith_app_slash|]. split; [now apply String.eqb_neq|].
      rewrite endswith_app_slash, E1. reflexivity.
Qed.

(** X10. [exists] makes one metadata request and changes nothing else,
    and it never lets a ClientError out. For a key that is not empty: when
    the store serves the request, the result tells whether the object is
    there; when the store answers with an error, the result is False for
    the code "404" and True for any other code, whether or not the object
    is there; when no response arrives, the BotoCoreError of the client
    library escapes. For the empty key, that of a provider without prefix
    asked about itself, the ParamValidationError of the client library
    escapes. *)
Theorem exists_swallows_error_responses (refusal_code self : string) (path : option string)
    (w : S3FSProvider.world) :
  let key := match path with None => self | Some path => self ++ path end in
  let b := S3FSProvider._bucket w in
  let r := S3FSProvider.exists_ refusal_code self path w in
  r.2 = logged (S3FSProvider.Remote S3.Head key) w /\
  r.1 <> Raise ClientError /\
  (key <> "" -> S3.answers b S3.Head key = S3.served ->
   r.1 = Ret (bool_decide (is_Some (S3.find key (S3.objects b))))) /\
  (key <> "" -> S3.answers b S3.Head key = S3.error_response ->
   r.1 = Ret (negb (String.eqb refusal_code "404"))) /\
  (key <> "" -> S3.answers b S3.Head key = S3.no_response -> r.1 = Raise BotoCoreError) /\
  (key = "" -> r.1 = Raise ParamValidationError).
Proof.
  cbv zeta. rewrite exists_run. cbn [fst snd].
  split; [reflexivity|]. split.
  { destruct (String.eqb _ ""); [discriminate|].
    destruct (S3.answers _ _ _); discriminate. }
  split; [|split; [|split]].
  1-3: intros Hne Ha; apply String.eqb_neq in Hne; now rewrite Hne, Ha.
  intros ->. reflexivity.
Qed.

(** X11. [ensure_exists] creates the folder object once. For a prefix that
    is not empty and a store that serves both requests, it returns, the key
    of the prefix then has an object, an object that was there already is
    left as it was, no other key changes, and a second call leaves the
    bucket as it is. For a provider without prefix the key is empty, and
    [ensure_exists] raises the ParamValidationError of the client
    library. *)
Theorem ensure_exists_once (refusal_code self : string) (w : S3FSProvider.world) :
  let b := S3FSProvider._bucket w in
  let r := S3FSProvider.ensure_exists refusal_code self w in
  (self <> "" ->
   S3.refused b S3.Head self = false -> S3.refused b S3.PutObject self = false ->
   r.1 = Ret tt /\
   S3.find self (objects_of r.2)
   = Some (match S3.find self (S3.objects b) with
           | Some o => o
           | None => S3.Object (time_of w) []
           end) /\
   (forall key, key <> self -> S3.find key (objects_of r.2) = S3.find key (S3.objects b)) /\
   S3FSProvider._bucket (S3FSProvider.ensure_exists refusal_code self r.2).2
   = S3FSProvider._bucket r.2) /\
  (self = "" -> r.1 = Raise ParamValidationError /\ S3FSProvider._bucket r.2 = b).
Proof.
  cbv zeta. unfold objects_of, time_of. split.
  2: { intros ->. unfold S3FSProvider.ensure_exists, bind. rewrite exists_run.
       split; reflexivity. }
  intros Hne Hh Hp. apply String.eqb_neq in Hne.
  assert (Hserved : forall b, S3.refused b S3.Head self = false ->
            S3.answers b S3.Head self = S3.served).
  { intros b. unfold S3.refused. now destruct (S3.answers b S3.Head self). }
  assert (Hstep : forall w', S3.refused (S3FSProvider._bucket w') S3.Head self = false ->
            forall o, S3.find self (S3.objects (S3FSProvider._bucket w')) = Some o ->
            S3FSProvider.ensure_exists refusal_code self w'
            = (Ret tt, logged (S3FSProvider.Remote S3.Head self) w')).
  { intros w' Hh' o Ho. unfold S3FSProvider.ensure_exists, bind.
    rewrite exists_run, Hne, (Hserved _ Hh'), Ho. reflexivity. }
  destruct (S3.find self (S3.objects (S3FSProvider._bucket w))) as [o|] eqn:F.
  - rewrite (Hstep w Hh o F). simpl. repeat split; try exact F.
    rewrite (Hstep (logged (S3FSProvider.Remote S3.Head self) w) Hh o F). reflexivity.
  - assert (E : S3FSProvider.ensure_exists refusal_code self w
             = (Ret tt, with_bucket
                  (S3.mk (S3.store self (S3.Object (S3FSProvider.clock w (S3FSProvider.reads w)) [])
                            (S3.objects (S3FSProvider._bucket w)))
                         (S3.answers (S3FSProvider._bucket w)))
                  (logged (S3FSProvider.Remote S3.PutObject self)
                     (logged (S3FSProvider.Remote S3.Head self) w)))).
    { unfold S3FSProvider.ensure_exists. unfold bind at 1.
      rewrite exists_run, Hne, (Hserved _ Hh), F. simpl.
      unfold bind, S3FSProvider.server_time, gets. rewrite s3_run.
      unfold S3.put_object. simpl.
      rewrite change_run; [reflexivity | right; now apply String.eqb_neq | exact Hp]. }
    rewrite E. simpl. split; [reflexivity|]. split; [apply find_store_eq|].
    split; [intros key Hk; now apply find_store_ne|].
    erewrite Hstep; [reflexivity | exact Hh | apply find_store_eq].
Qed.

Lemma ensure_exists_once_witness :
  let b := S3FSProvider._bucket blank in
  let r := S3FSProvider.ensure_exists "403" "d/" blank in
  "d/" <> "" /\
  S3.refused b S3.Head "d/" = false /\ S3.refused b S3.PutObject "d/" = false /\
  r.1 = Ret tt /\
  S3.find "d/" (objects_of r.2)
  = Some (match S3.find "d/" (S3.objects b) with
          | Some o => o
          | None => S3.Object (time_of blank) []
          end) /\
  (forall key, key <> "d/" -> S3.find key (objects_of r.2) = S3.find key (S3.objects b)) /\
  S3FSProvider._bucket (S3FSProvider.ensure_exists "403" "d/" r.2).2
  = S3FSProvider._bucket r.2.
Proof.
  intros b r.
  assert (H0 : "d/" <> "") by discriminate.
  assert (H1 : S3.refused b S3.Head "d/" = false) by reflexivity.
  assert (H2 : S3.refused b S3.PutObject "d/" = false) by reflexivity.
  repeat (split; [assumption|]).
  exact (proj1 (ensure_exists_once "403" "d/" blank) H0 H1 H2).
Defined.

(** X12. A [put] that returns has stored the content under the full key,
    stamped with the store's time, and an empty object with the same time
    under the key of every folder above it, up to the root of the bucket
    and so also above the provider's own prefix. No other key changes and
    the cache is not touched. *)
Theorem put_stores (self filepath : string) (content : bytes) (w w' : S3FSProvider.world) :
  S3FSProvider.put _checkpath self filepath content w = (Ret tt, w') ->
  let fullpath := self ++ filepath in
  S3.find fullpath (objects_of w') = Some (S3.Object (time_of w) content) /\
  (forall k, In k (folder_keys fullpath) ->
     S3.find k (objects_of w') = Some (S3.Object (time_of w) [])) /\
  (forall k, k <> fullpath -> ~ In k (folder_keys fullpath) ->
     S3.find k (objects_of w') = S3.find k (objects_of w)) /\
  S3FSProvider._cache w' = S3FSProvider._cache w.
Proof.
  intros H. cbv zeta. apply put_returns in H. destruct H as [_ [E [Hc [Ho _]]]].
  unfold objects_of. rewrite Ho.
  split; [|split; [|split]].
  - now apply find_uploaded.
  - intros k Hk. apply find_with_folders_in. now apply in_rev in Hk.
  - intros k Hne Hk. rewrite find_with_folders_out.
    + now apply find_store_ne.
    + intros Hin. apply Hk. now apply in_rev.
  - exact Hc.
Qed.

End Provider.

Lemma put_stores_witness :
  let w' := (S3FSProvider.put no_leading_slash "p/" "d/g.txt" (zeros 5) blank).2 in
  let fullpath := "p/" ++ "d/g.txt" in
  S3FSProvider.put no_leading_slash "p/" "d/g.txt" (zeros 5) blank = (Ret tt, w') /\
  (S3.find fullpath (objects_of w') = Some (S3.Object (time_of blank) (zeros 5)) /\
   (forall k, In k (folder_keys fullpath) ->
      S3.find k (objects_of w') = Some (S3.Object (time_of blank) [])) /\
   (forall k, k <> fullpath -> ~ In k (folder_keys fullpath) ->
      S3.find k (objects_of w') = S3.find k (objects_of blank)) /\
   S3FSProvider._cache w' = S3FSProvider._cache blank) /\
  folder_keys fullpath = ["p/"; "p/d/"] /\
  map fst (objects_of w') = ["p/d/g.txt"; "p/d/"; "p/"].
Proof.
  intros w' fullpath.
  assert (H1 : S3FSProvider.put no_leading_slash "p/" "d/g.txt" (zeros 5) blank = (Ret tt, w'))
    by (vm_compute; reflexivity).
  split; [exact H1|].
  split; [exact (put_stores no_leading_slash "p/" "d/g.txt" (zeros 5) blank w' H1)|].
  split; vm_compute; reflexivity.
Defined.

Section Provider2.

Variable _checkpath : string -> bool.

(** X13. After a [put] that returned, when the store answers the metadata
    request, [get_last_modification_time] of the same path gives the
    store's time at the [put] and [exists] answers True. *)
Theorem put_then_metadata (refusal_code self filepath : string) (content : bytes)
    (w w' : S3FSProvider.world) :
  S3FSProvider.put _checkpath self filepath content w = (Ret tt, w') ->
  S3.refused (S3FSProvider._bucket w) S3.Head (self ++ filepath) = false ->
  (S3FSProvider.get_last_modification_time _checkpath self filepath w').1 = Ret (time_of w) /\
  (S3FSProvider.exists_ refusal_code self (Some filepath) w').1 = Ret true.
Proof.
  intros Hp Hh. pose proof (put_keeps_answers _ _ _ _ _ _ Hp) as Hr.
  apply put_returns in Hp. destruct Hp as [Hc [E [_ [Ho Hne]]]].
  assert (Hh1 : S3.refused (S3FSProvider._bucket w') S3.Head (self ++ filepath) = false)
    by (unfold S3.refused in *; now rewrite Hr).
  assert (Hfind : S3.find (self ++ filepath) (S3.objects (S3FSProvider._bucket w'))
                  = Some (S3.Object (time_of w) content)).
  { rewrite Ho. now apply find_uploaded. }
  split.
  - unfold S3FSProvider.get_last_modification_time, S3FSProvider.checkpath.
    unfold bind at 1. rewrite Hc. simpl. rewrite E.
    unfold try_except, S3FSProvider.obj_last_modified. unfold bind at 1. unfold bind at 1.
    rewrite s3_run, (load_run _ _ _ Hne Hh1 Hfind). reflexivity.
  - rewrite exists_run. cbn [fst]. apply String.eqb_neq in Hne. rewrite Hne.
    unfold S3.refused in Hh1.
    destruct (S3.answers (S3FSProvider._bucket w') S3.Head (self ++ filepath));
      try discriminate.
    now rewrite Hfind.
Qed.

(** X14. What is written can be read: after a [put] that returned, a read
    of the same path without timestamp returns the content written, when
    the store answers, the cache had no entry for the path and has room
    for the content, and the file can be written in the cache directory. *)
Theorem read_after_write (fuel : nat) (self filepath : string) (content : bytes)
    (w w1 : S3FSProvider.world) (d1 d2 : Disk.t) :
  let fullpath := self ++ filepath in
  let s := S3FSProvider._cache w in
  let c := S3CacheManager._cache_data s in
  let location := Path.join (S3CacheManager._cache_path s) fullpath in
  S3FSProvider.put _checkpath self filepath content w = (Ret tt, w1) ->
  relative fullpath -> (String.length fullpath <= fuel)%nat ->
  S3.refused (S3FSProvider._bucket w) S3.Head fullpath = false ->
  S3.refused (S3FSProvider._bucket w) S3.Get fullpath = false ->
  LRU.data c !! fullpath = None ->
  0 <= LRU.currsize c -> LRU.currsize c + len content <= LRU.maxsize c ->
  Disk.makedirs (Path.split_head location) (S3CacheManager.disk s) = (Ret tt, d1) ->
  Disk.write location content d1 = (Ret tt, d2) ->
  (S3FSProvider.get _checkpath fuel self filepath None w1).1 = Ret content.
Proof.
  cbv zeta. intros Hput Hrel Hlen Hh Hg Hnew Hpos Hroom Hmk Hwr.
  pose proof (put_keeps_answers _ _ _ _ _ _ Hput) as Hr.
  apply put_returns in Hput. destruct Hput as [Hc [Hf [Hcache [Ho Hne]]]].
  assert (Hfind : S3.find (self ++ filepath) (S3.objects (S3FSProvider._bucket w1))
                  = Some (S3.Object (time_of w) content)).
  { rewrite Ho. now apply find_uploaded. }
  destruct (get_fetches _checkpath fuel self filepath w1 (S3.Object (time_of w) content)
              d1 d2 Hc Hf Hrel Hlen) as [w2 [H2 _]];
    unfold S3.refused in *; rewrite ?Hr, ?Hcache; try assumption.
  now rewrite H2.
Qed.

(** X15. A read after a write can return the old content. [put] leaves
    the cache as it is, and a lookup accepts an entry whose timestamp is
    not older than the object's: when the cache holds the path with a
    timestamp that is not older than the store's time at the [put], the
    read that follows returns the cached file and does not fetch the
    object. *)
Theorem read_after_write_stale (fuel : nat) (self filepath : string) (content old : bytes)
    (w w1 : S3FSProvider.world) (e : entry) :
  let fullpath := self ++ filepath in
  let s := S3FSProvider._cache w in
  S3FSProvider.put _checkpath self filepath content w = (Ret tt, w1) ->
  relative fullpath -> (String.length fullpath <= fuel)%nat ->
  S3.refused (S3FSProvider._bucket w) S3.Head fullpath = false ->
  entry_of fullpath s = Some e -> time_of w <= timestamp e ->
  Disk.read (disk_path e) (S3CacheManager.disk s) = (Ret old, S3CacheManager.disk s) ->
  (S3FSProvider.get _checkpath fuel self filepath None w1).1 = Ret old /\
  gets_of (S3FSProvider.get _checkpath fuel self filepath None w1).2 = gets_of w1.
Proof.
  cbv zeta. intros Hput Hrel Hlen Hh He Hts Hread.
  pose proof (put_keeps_answers _ _ _ _ _ _ Hput) as Hr.
  apply put_returns in Hput. destruct Hput as [Hc [Hf [Hcache [Ho Hne]]]].
  assert (Hfind : S3.find (self ++ filepath) (S3.objects (S3FSProvider._bucket w1))
                  = Some (S3.Object (time_of w) content)).
  { rewrite Ho. now apply find_uploaded. }
  destruct (get_cached_copy _checkpath fuel self filepath w1 (S3.Object (time_of w) content)
              e old Hc Hf Hrel Hlen) as [w2 [H2 H3]];
    unfold S3.refused in *; rewrite ?Hr, ?Hcache; try assumption.
  rewrite H2. now split.
Qed.

(** X16. The recursive listing names the objects below the prefix, in
    the order of their keys. When the store serves the listing and every
    key of the bucket that extends the prefix is the prefix followed by a
    clean name, [list] returns and changes nothing but the log of the
    calls; the prefix followed by a name returned is a key of the bucket
    that extends the prefix, every such key is named, and the names come in
    the strict byte order of the keys, so none comes twice. *)
Theorem recursive_listing (self : string) (w : S3FSProvider.world) :
  S3.refused (S3FSProvider._bucket w) S3.List self = false ->
  (forall key, Path.startswith self key = true -> key <> self ->
     is_Some (S3.find key (objects_of w)) ->
     exists name, key = self ++ name /\ clean name) ->
  exists names,
    S3FSProvider.list self true true true w
    = (Ret names, logged (S3FSProvider.Remote S3.List self) w) /\
    let keys := map (fun name => self ++ name) names in
    StronglySorted (fun a b => String.compare a b = Lt) keys /\
    forall key, In key keys <->
      Path.startswith self key = true /\ key <> self /\
      is_Some (S3.find key (objects_of w)).
Proof.
  intros Hr Hkeys. eexists. split; [apply list_recursive_run, Hr|].
  cbv zeta. rewrite selected_all, names_of_clean_keys.
  - split; [apply keys_under_sorted|]. intros key. apply in_keys_under_iff.
  - intros key Hk. apply in_keys_under_iff in Hk. destruct Hk as [H1 [H2 H3]].
    now apply Hkeys.
Qed.

(** X17. The names [list] returns obey the flags: a name that ends with
    "/" is returned only with [folders], another name only with [files].
    The listing that is not recursive holds names that end with "/" only:
    it never returns a file, and with [folders] false it is empty. *)
Theorem listing_respects_flags (self : string) (folders files recursive : bool)
    (w : S3FSProvider.world) (l : list string) :
  (S3FSProvider.list self folders files recursive w).1 = Ret l ->
  Forall (allowed folders files) l /\
  (recursive = false ->
   Forall (fun name => Path.endswith_slash name = true) l /\ (folders = false -> l = [])).
Proof.
  intros H. assert (Hall := list_allowed _ _ _ _ _ _ H). split; [exact Hall|].
  intros ->. assert (Hf := list_folders_only _ _ _ _ _ H). split; [exact Hf|].
  intros ->. destruct l as [|x l]; [reflexivity|].
  inversion Hf as [|? ? Hx _]; subst. inversion Hall as [|? ? Ha _]; subst.
  unfold allowed in Ha. rewrite Hx in Ha. discriminate.
Qed.

(** X18. A delete of a file path that returns has removed the object of
    that key from the bucket and has changed no other object. *)
Theorem delete_removes_object (fuel : nat) (self filepath : string)
    (w w' : S3FSProvider.world) :
  Path.endswith_slash (self ++ filepath) = false ->
  S3FSProvider.delete _checkpath fuel self (Some filepath) w = (Ret tt, w') ->
  S3.find (self ++ filepath) (objects_of w') = None /\
  forall key, key <> self ++ filepath ->
    S3.find key (objects_of w') = S3.find key (objects_of w).
Proof.
  intros Hf H. unfold objects_of. rewrite (delete_file_erases _ _ _ _ _ _ Hf H). split.
  - apply find_erase_eq.
  - intros key Hne. now apply find_erase_ne.
Qed.

(** X19. Deleting a folder deletes its files. With an empty cache and a
    store that answers, when the keys below the folder are the folder
    followed by clean names that pass the path check, the delete returns:
    the key of the folder and the keys of the files below it have no
    object any more, and every other key, the markers of the folders below
    it among them, has the object it had. *)
Theorem delete_folder (fuel : nat) (self filepath : string) (w : S3FSProvider.world) :
  let fullpath := self ++ filepath in
  Path.endswith_slash fullpath = true -> Path.startswith_slash fullpath = false ->
  _checkpath filepath = true ->
  (String.length fullpath <= fuel)%nat ->
  (forall key, In key (keys_under fullpath (objects_of w)) ->
     (String.length key <= fuel)%nat /\
     exists name, key = fullpath ++ name /\ clean name /\ _checkpath name = true) ->
  uncached w -> obliging (S3FSProvider._bucket w) ->
  exists w',
    S3FSProvider.delete _checkpath (S (S fuel)) self (Some filepath) w = (Ret tt, w') /\
    S3FSProvider._cache w' = S3FSProvider._cache w /\
    forall key, S3.find key (objects_of w')
                = if deleted_with fullpath key then None else S3.find key (objects_of w).
Proof.
  cbv zeta. intros He Hs Hc Hlen Hkeys Hun Hob.
  set (fullpath := self ++ filepath) in *.
  set (keys := keys_under fullpath (objects_of w)) in *.
  set (names := List.filter (fun f => negb (Path.endswith_slash f))
                  (map (fun key => S3FSProvider._compute_relpath key fullpath) keys)).
  assert (Hne : fullpath <> "") by (intros E; rewrite E in He; discriminate).
  assert (Hnames : Forall (fun name => _checkpath name = true /\
                              Path.endswith_slash (fullpath ++ name) = false /\
                              (String.length (fullpath ++ name) <= fuel)%nat) names).
  { apply Forall_forall. intros name Hn. apply list_elem_of_In, filter_In in Hn.
    destruct Hn as [Hn Hfile]. apply in_map_iff in Hn. destruct Hn as [key [<- Hk]].
    destruct (Hkeys key Hk) as [Hl [name [-> [Hcl Hch]]]].
    rewrite compute_relpath_clean in * by exact Hcl.
    split; [exact Hch|]. split; [|exact Hl].
    rewrite endswith_app by apply Hcl. now apply negb_true_iff. }
  destruct (for_each_delete _checkpath fuel fullpath names
              (logged (S3FSProvider.Remote S3.List fullpath) w)
              Hnames Hne Hs) as [w1 [H1 [Hc1 [Hr1 Ho1]]]]; [exact Hun | exact Hob |].
  eexists.
  rewrite delete_step. cbn [default from_option]; unfold id. cbv zeta. fold fullpath.
  unfold S3FSProvider.checkpath at 1. unfold bind at 1. rewrite Hc. cbn [ret fst snd].
  rewrite He. unfold bind at 1. unfold bind at 1.
  unfold S3FSProvider.from_subfolder, S3FSProvider.checkpath. unfold bind at 1. rewrite Hc.
  cbn [ret fst snd]. fold fullpath. rewrite (init_of_folder fullpath He Hs).
  unfold bind at 1.
  rewrite (list_recursive_run fullpath false true w (obliging_refused _ _ _ Hob)).
  cbn [fst snd]. rewrite selected_files. fold keys. fold names. rewrite H1. cbn [fst snd].
  unfold try_except. unfold bind at 1. unfold S3FSProvider.record, modify. cbn [fst snd].
  unfold bind at 1. rewrite cachem_run. cbn [S3FSProvider._cache].
  rewrite (invalidate_uncached_all (S fuel) fullpath).
  2: { now apply relative_folder. }
  2: { lia. }
  2: { intros key. rewrite Hc1. apply Hun. }
  cbn [fst snd]. rewrite s3_run. unfold S3.delete. cbn [set_cache S3FSProvider._bucket].
  rewrite change_run; [|now right|].
  2: { unfold S3.refused. rewrite Hr1. cbn [logged S3FSProvider._bucket]. now rewrite Hob. }
  cbn [fst snd].
  split; [reflexivity|]. split; [cbn; exact Hc1|].
  intros key. unfold objects_of at 1. cbn.
  unfold objects_of in Ho1. rewrite Ho1. cbn [logged S3FSProvider._bucket].
  fold (objects_of w). unfold deleted_with.
  destruct (String.eqb_spec key fullpath) as [->|Hkf]; [apply find_erase_eq|].
  rewrite find_erase_ne by exact Hkf. rewrite find_without. cbn [orb].
  assert (Hdel : forall k, In k (map (fun name => fullpath ++ name) names) ->
                   In k keys /\ Path.endswith_slash k = false).
  { intros k Hk. apply in_map_iff in Hk. destruct Hk as [name [<- Hn]].
    apply filter_In in Hn. destruct Hn as [Hn Hfile]. apply in_map_iff in Hn.
    destruct Hn as [k [<- Hk]]. destruct (Hkeys k Hk) as [_ [name [-> [Hcl _]]]].
    rewrite compute_relpath_clean in * by exact Hcl. split; [exact Hk|].
    rewrite endswith_app by apply Hcl. now apply negb_true_iff. }
  destruct (bool_decide (key ∈ map (fun name => fullpath ++ name) names)) eqn:E.
  - apply bool_decide_eq_true, list_elem_of_In in E. destruct (Hdel key E) as [Hk Hf].
    apply keys_under_start in Hk. destruct Hk as [Hst _]. now rewrite Hst, Hf.
  - apply bool_decide_eq_false in E.
    destruct (Path.startswith fullpath key && negb (Path.endswith_slash key))%bool eqn:C;
      [|reflexivity].
    apply andb_true_iff in C. destruct C as [Hst Hf].
    destruct (S3.find key (objects_of w)) as [o|] eqn:F; [|reflexivity].
    exfalso. apply E. apply list_elem_of_In.
    pose proof (in_keys_under fullpath key o _ F Hst Hkf) as Hk. fold keys in Hk.
    destruct (Hkeys key Hk) as [_ [name [Hkey [Hcl _]]]].
    apply in_map_iff. exists name. split; [now symmetry|].
    apply filter_In. split.
    + apply in_map_iff. exists key. split; [|exact Hk].
      rewrite Hkey. now apply compute_relpath_clean.
    + rewrite Hkey in Hf. rewrite endswith_app in Hf by apply Hcl. exact Hf.
Qed.

(** X20. A delete never removes the marker of another folder: whatever
    the delete does and however it ends, a key that ends with "/" and is
    not the path deleted keeps its object. The markers of the folders
    inside a deleted folder stay in the bucket. *)
Theorem delete_keeps_nested_markers (fuel : nat) (self : string) (filepath : option string)
    (w : S3FSProvider.world) (key : string) :
  Path.endswith_slash key = true -> key <> self ++ default "" filepath ->
  S3.find key (objects_of (S3FSProvider.delete _checkpath fuel self filepath w).2)
  = S3.find key (objects_of w).
Proof.
  intros Hkey Hne.
  exact (holds_delete _checkpath fuel key _ Hkey self filepath Hne w eq_refl).
Qed.

End Provider2.

Lemma put_then_metadata_witness :
  S3FSProvider.put no_leading_slash "" "p/d/g.txt" (zeros 5) blank = (Ret tt, one_object) /\
  S3.refused (S3FSProvider._bucket blank) S3.Head ("" ++ "p/d/g.txt") = false /\
  (S3FSProvider.get_last_modification_time no_leading_slash "" "p/d/g.txt" one_object).1
  = Ret (time_of blank) /\
  (S3FSProvider.exists_ "403" "" (Some "p/d/g.txt") one_object).1 = Ret true.
Proof.
  assert (H1 : S3FSProvider.put no_leading_slash "" "p/d/g.txt" (zeros 5) blank
               = (Ret tt, one_object)) by (vm_compute; reflexivity).
  assert (H2 : S3.refused (S3FSProvider._bucket blank) S3.Head ("" ++ "p/d/g.txt") = false)
    by reflexivity.
  repeat (split; [assumption|]).
  exact (put_then_metadata no_leading_slash "403" "" "p/d/g.txt" (zeros 5) blank one_object
           H1 H2).
Defined.

Lemma read_after_write_witness :
  let fullpath := "" ++ "p/d/g.txt" in
  let s := S3FSProvider._cache blank in
  let c := S3CacheManager._cache_data s in
  let location := Path.join (S3CacheManager._cache_path s) fullpath in
  let d1 := (Disk.makedirs (Path.split_head location) (S3CacheManager.disk s)).2 in
  let d2 := (Disk.write location (zeros 5) d1).2 in
  S3FSProvider.put no_leading_slash "" "p/d/g.txt" (zeros 5) blank = (Ret tt, one_object) /\
  relative fullpath /\ (String.length fullpath <= 20)%nat /\
  S3.refused (S3FSProvider._bucket blank) S3.Head fullpath = false /\
  S3.refused (S3FSProvider._bucket blank) S3.Get fullpath = false /\
  LRU.data c !! fullpath = None /\
  0 <= LRU.currsize c /\ LRU.currsize c + len (zeros 5) <= LRU.maxsize c /\
  Disk.makedirs (Path.split_head location) (S3CacheManager.disk s) = (Ret tt, d1) /\
  Disk.write location (zeros 5) d1 = (Ret tt, d2) /\
  (S3FSProvider.get no_leading_slash 20 "" "p/d/g.txt" None one_object).1 = Ret (zeros 5).
Proof.
  intros fullpath s c location d1 d2.
  assert (H1 : S3FSProvider.put no_leading_slash "" "p/d/g.txt" (zeros 5) blank
               = (Ret tt, one_object)) by (vm_compute; reflexivity).
  assert (H2 : relative fullpath) by reflexivity.
  assert (H3 : (String.length fullpath <= 20)%nat) by (simpl; lia).
  assert (H4 : S3.refused (S3FSProvider._bucket blank) S3.Head fullpath = false) by reflexivity.
  assert (H5 : S3.refused (S3FSProvider._bucket blank) S3.Get fullpath = false) by reflexivity.
  assert (H6 : LRU.data c !! fullpath = None) by reflexivity.
  assert (H7 : 0 <= LRU.currsize c) by (vm_compute; discriminate).
  assert (H8 : LRU.currsize c + len (zeros 5) <= LRU.maxsize c) by (vm_compute; discriminate).
  assert (H9 : Disk.makedirs (Path.split_head location) (S3CacheManager.disk s) = (Ret tt, d1))
    by (vm_compute; reflexivity).
  assert (H10 : Disk.write location (zeros 5) d1 = (Ret tt, d2)) by (vm_compute; reflexivity).
  repeat (split; [assumption|]).
  exact (read_after_write no_leading_slash 20 "" "p/d/g.txt" (zeros 5) blank one_object d1 d2
           H1 H2 H3 H4 H5 H6 H7 H8 H9 H10).
Defined.

Lemma read_after_write_stale_witness :
  let fullpath := "" ++ "f.txt" in
  let s := S3FSProvider._cache read_once in
  let e := Entry 10 "cache/f.txt" 3 in
  let w1 := (S3FSProvider.put no_leading_slash "" "f.txt" (zeros 4) read_once).2 in
  S3FSProvider.put no_leading_slash "" "f.txt" (zeros 4) read_once = (Ret tt, w1) /\
  relative fullpath /\ (String.length fullpath <= 20)%nat /\
  S3.refused (S3FSProvider._bucket read_once) S3.Head fullpath = false /\
  entry_of fullpath s = Some e /\ time_of read_once <= timestamp e /\
  Disk.read (disk_path e) (S3CacheManager.disk s) = (Ret (zeros 3), S3CacheManager.disk s) /\
  ((S3FSProvider.get no_leading_slash 20 "" "f.txt" None w1).1 = Ret (zeros 3) /\
   gets_of (S3FSProvider.get no_leading_slash 20 "" "f.txt" None w1).2 = gets_of w1) /\
  S3.find "f.txt" (objects_of w1) = Some (S3.Object 10 (zeros 4)).
Proof.
  intros fullpath s e w1.
  assert (H1 : S3FSProvider.put no_leading_slash "" "f.txt" (zeros 4) read_once = (Ret tt, w1))
    by (vm_compute; reflexivity).
  assert (H2 : relative fullpath) by reflexivity.
  assert (H3 : (String.length fullpath <= 20)%nat) by (simpl; lia).
  assert (H4 : S3.refused (S3FSProvider._bucket read_once) S3.Head fullpath = false)
    by reflexivity.
  assert (H5 : entry_of fullpath s = Some e) by (vm_compute; reflexivity).
  assert (H6 : time_of read_once <= timestamp e) by (vm_compute; discriminate).
  assert (H7 : Disk.read (disk_path e) (S3CacheManager.disk s)
               = (Ret (zeros 3), S3CacheManager.disk s)) by (vm_compute; reflexivity).
  repeat (split; [assumption|]).
  split; [|vm_compute; reflexivity].
  exact (read_after_write_stale no_leading_slash 20 "" "f.txt" (zeros 4) (zeros 3)
           read_once w1 e H1 H2 H3 H4 H5 H6 H7).
Defined.

Lemma one_object_keys : keys_under "p/" (objects_of one_object) = ["p/d/"; "p/d/g.txt"].
Proof. vm_compute. reflexivity. Qed.

Lemma clean_file : clean "d/g.txt".
Proof. split; [discriminate|]. vm_compute. repeat constructor; discriminate. Qed.

Lemma clean_folder : clean "d/".
Proof. split; [discriminate|]. vm_compute. repeat constructor; discriminate. Qed.

Lemma recursive_listing_witness :
  S3.refused (S3FSProvider._bucket one_object) S3.List "p/" = false /\
  (forall key, Path.startswith "p/" key = true -> key <> "p/" ->
     is_Some (S3.find key (objects_of one_object)) ->
     exists name, key = "p/" ++ name /\ clean name) /\
  (exists names,
     S3FSProvider.list "p/" true true true one_object
     = (Ret names, logged (S3FSProvider.Remote S3.List "p/") one_object) /\
     let keys := map (fun name => "p/" ++ name) names in
     StronglySorted (fun a b => String.compare a b = Lt) keys /\
     forall key, In key keys <->
       Path.startswith "p/" key = true /\ key <> "p/" /\
       is_Some (S3.find key (objects_of one_object))) /\
  (S3FSProvider.list "p/" true true true one_object).1 = Ret ["d/"; "d/g.txt"] /\
  map fst (objects_of one_object) = ["p/d/g.txt"; "p/d/"; "p/"].
Proof.
  assert (H2 : S3.refused (S3FSProvider._bucket one_object) S3.List "p/" = false)
    by reflexivity.
  assert (H3 : forall key, Path.startswith "p/" key = true -> key <> "p/" ->
                 is_Some (S3.find key (objects_of one_object)) ->
                 exists name, key = "p/" ++ name /\ clean name).
  { intros key Hs Hne Hf.
    assert (Hk : In key (keys_under "p/" (objects_of one_object)))
      by (apply in_keys_under_iff; now repeat split).
    rewrite one_object_keys in Hk. destruct Hk as [<-|[<-|[]]].
    - exists "d/". split; [reflexivity | exact clean_folder].
    - exists "d/g.txt". split; [reflexivity | exact clean_file]. }
  repeat (split; [assumption|]).
  split; [exact (recursive_listing "p/" one_object H2 H3)|].
  split; vm_compute; reflexivity.
Defined.

Lemma listing_respects_flags_witness :
  let w := start ticking two_files 100 in
  (S3FSProvider.list "d/" true true false w).1 = Ret ["s/"] /\
  Forall (allowed true true) ["s/"] /\
  (false = false ->
   Forall (fun name => Path.endswith_slash name = true) ["s/"] /\
   (true = false -> ["s/"] = [])).
Proof.
  intros w.
  assert (H1 : (S3FSProvider.list "d/" true true false w).1 = Ret ["s/"])
    by (vm_compute; reflexivity).
  split; [exact H1|].
  exact (listing_respects_flags "d/" true true false w ["s/"] H1).
Defined.

Lemma delete_removes_object_witness :
  let w' := (S3FSProvider.delete no_leading_slash 20 "" (Some "p/d/g.txt") one_object).2 in
  Path.endswith_slash ("" ++ "p/d/g.txt") = false /\
  S3FSProvider.delete no_leading_slash 20 "" (Some "p/d/g.txt") one_object = (Ret tt, w') /\
  S3.find ("" ++ "p/d/g.txt") (objects_of w') = None /\
  forall key, key <> "" ++ "p/d/g.txt" ->
    S3.find key (objects_of w') = S3.find key (objects_of one_object).
Proof.
  intros w'.
  assert (H1 : Path.endswith_slash ("" ++ "p/d/g.txt") = false) by reflexivity.
  assert (H2 : S3FSProvider.delete no_leading_slash 20 "" (Some "p/d/g.txt") one_object
               = (Ret tt, w')) by (vm_compute; reflexivity).
  repeat (split; [assumption|]).
  exact (delete_removes_object no_leading_slash 20 "" "p/d/g.txt" one_object w' H1 H2).
Defined.

Lemma one_object_uncached : uncached one_object.
Proof.
  intros key. replace (S3FSProvider._cache one_object) with (fresh 100)
    by (vm_compute; reflexivity).
  unfold cached, LRU.contains. cbn. apply bool_decide_eq_false.
  rewrite lookup_empty. now intros [x Hx].
Qed.

Lemma one_object_obliging : obliging (S3FSProvider._bucket one_object).
Proof.
  intros o key. reflexivity.
Qed.

Lemma delete_folder_witness :
  let fullpath := "" ++ "p/" in
  Path.endswith_slash fullpath = true /\ Path.startswith_slash fullpath = false /\
  no_leading_slash "p/" = true /\
  (String.length fullpath <= 18)%nat /\
  (forall key, In key (keys_under fullpath (objects_of one_object)) ->
     (String.length key <= 18)%nat /\
     exists name, key = fullpath ++ name /\ clean name /\ no_leading_slash name = true) /\
  uncached one_object /\ obliging (S3FSProvider._bucket one_object) /\
  (exists w',
     S3FSProvider.delete no_leading_slash 20 "" (Some "p/") one_object = (Ret tt, w') /\
     S3FSProvider._cache w' = S3FSProvider._cache one_object /\
     forall key, S3.find key (objects_of w')
                 = if deleted_with fullpath key then None
                   else S3.find key (objects_of one_object)) /\
  map fst (objects_of (S3FSProvider.delete no_leading_slash 20 "" (Some "p/") one_object).2)
  = ["p/d/"].
Proof.
  intros fullpath.
  assert (H1 : Path.endswith_slash fullpath = true) by reflexivity.
  assert (H2 : Path.startswith_slash fullpath = false) by reflexivity.
  assert (H3 : no_leading_slash "p/" = true) by reflexivity.
  assert (H4 : (String.length fullpath <= 18)%nat) by (simpl; lia).
  assert (H5 : forall key, In key (keys_under fullpath (objects_of one_object)) ->
                 (String.length key <= 18)%nat /\
                 exists name, key = fullpath ++ name /\ clean name /\
                              no_leading_slash name = true).
  { intros key. change fullpath with "p/". rewrite one_object_keys. intros [<-|[<-|[]]].
    - split; [simpl; lia|]. exists "d/". split; [reflexivity|].
      split; [exact clean_folder | reflexivity].
    - split; [simpl; lia|]. exists "d/g.txt". split; [reflexivity|].
      split; [exact clean_file | reflexivity]. }
  assert (H6 := one_object_uncached).
  assert (H7 := one_object_obliging).
  repeat (split; [assumption|]).
  split; [|vm_compute; reflexivity].
  exact (delete_folder no_leading_slash 18 "" "p/" one_object H1 H2 H3 H4 H5 H6 H7).
Defined.

Lemma delete_keeps_nested_markers_witness :
  Path.endswith_slash "p/d/" = true /\ "p/d/" <> "" ++ default "" (Some "p/") /\
  S3.find "p/d/"
    (objects_of (S3FSProvider.delete no_leading_slash 20 "" (Some "p/") one_object).2)
  = S3.find "p/d/" (objects_of one_object) /\
  S3.find "p/d/" (objects_of one_object) = Some (S3.Object 10 []).
Proof.
  assert (H1 : Path.endswith_slash "p/d/" = true) by reflexivity.
  assert (H2 : "p/d/" <> "" ++ default "" (Some "p/")) by discriminate.
  repeat (split; [assumption|]).
  split; [|vm_compute; reflexivity].
  exact (delete_keeps_nested_markers no_leading_slash 20 "" (Some "p/") one_object "p/d/"
           H1 H2).
Defined.

Section Provider3.

Variable _checkpath : string -> bool.

(** X21. A move of a file leaves nothing at the source: when [move]
    returns for a source that is a file path, the key of the source has no
    object, whatever the destination. A file moved onto itself is lost. *)
Theorem move_removes_source (fuel : nat) (self src dest : string)
    (w w' : S3FSProvider.world) :
  Path.endswith_slash (self ++ src) = false -> self ++ src <> "" ->
  S3FSProvider.move _checkpath fuel self src dest w = (Ret tt, w') ->
  S3.find (self ++ src) (objects_of w') = None.
Proof.
  intros Hf Hne. unfold S3FSProvider.move.
  intros H. apply bind_returns in H. destruct H as [u1 [w1 [_ H]]].
  apply bind_returns in H. destruct H as [u2 [w2 [_ H]]].
  rewrite Hf in H. apply String.eqb_neq in Hne. rewrite Hne in H. simpl in H.
  apply bind_returns in H. destruct H as [content [w3 [_ H]]].
  apply bind_returns in H. destruct H as [u4 [w4 [_ H]]].
  destruct u4. unfold objects_of. rewrite (delete_file_erases _ _ _ _ _ _ Hf H).
  apply find_erase_eq.
Qed.

(** X22. A move of a file to another key carries the content: when the
    read of the source gives [content] and [move] returns, the key of the
    destination holds [content], stamped with the store's time. *)
Theorem move_carries_content (fuel : nat) (self src dest : string) (content : bytes)
    (w w1 w' : S3FSProvider.world) :
  Path.endswith_slash (self ++ src) = false -> self ++ src <> "" ->
  self ++ dest <> self ++ src ->
  S3FSProvider.get _checkpath fuel self src None w = (Ret content, w1) ->
  S3FSProvider.move _checkpath fuel self src dest w = (Ret tt, w') ->
  S3.find (self ++ dest) (objects_of w') = Some (S3.Object (time_of w1) content).
Proof.
  intros Hf Hne Hd Hget Hm.
  unfold S3FSProvider.move in Hm.
  apply bind_returns in Hm. destruct Hm as [u1 [w0 [Hc1 H]]].
  apply bind_returns in H. destruct H as [u2 [w0' [Hc2 H]]].
  unfold S3FSProvider.checkpath in Hc1, Hc2.
  destruct (_checkpath src); [|discriminate]. injection Hc1 as E1. subst w0.
  destruct (_checkpath dest) eqn:Hdest; [|discriminate]. injection Hc2 as E2. subst w0'.
  rewrite Hf in H. apply String.eqb_neq in Hne. rewrite Hne in H. simpl in H.
  apply bind_returns in H. destruct H as [content' [w3 [Hg H]]].
  rewrite Hget in Hg. injection Hg as E3 E4. subst content' w3.
  apply bind_returns in H. destruct H as [u4 [w4 [Hp H]]].
  destruct u4. apply put_returns in Hp. destruct Hp as [_ [Hfd [_ [Ho _]]]].
  match type of H with _ = (Ret ?u, _) => destruct u end.
  unfold objects_of. rewrite (delete_file_erases _ _ _ _ _ _ Hf H).
  rewrite find_erase_ne by exact Hd. rewrite Ho. now apply find_uploaded.
Qed.

End Provider3.

Section CopyTo.

(** X23. [copy_to] of a file uploads it: when the source is a file of the
    local disk and [copy_to] returns, the key made of the prefix and the
    destination holds the content of the file, stamped with the store's
    time, every folder above the key has its marker, and the cache manager
    is unchanged. *)
Theorem copy_to_uploads_file (fuel : nat) (self src_disk dest : string) (content : bytes)
    (w w' : S3FSProvider.world) :
  let d := S3CacheManager.disk (S3FSProvider._cache w) in
  Disk.isdir src_disk d = false ->
  (Disk.read src_disk d).1 = Ret content ->
  S3FSProvider.copy_to fuel self src_disk (Some dest) w = (Ret tt, w') ->
  S3.find (self ++ dest) (objects_of w') = Some (S3.Object (time_of w) content) /\
  (forall k, In k (folder_keys (self ++ dest)) ->
     S3.find k (objects_of w') = Some (S3.Object (time_of w) [])) /\
  S3FSProvider._cache w' = S3FSProvider._cache w.
Proof.
  cbv zeta. intros Hdir Hread. destruct fuel as [|fuel]; [discriminate|].
  cbn [S3FSProvider.copy_to default from_option]; unfold id.
  unfold bind at 1. rewrite local_reads by reflexivity. unfold gets at 1. simpl.
  rewrite Hdir.
  destruct (String.eqb dest "" || Path.endswith_slash dest)%bool eqn:E; [discriminate|].
  apply orb_false_iff in E. destruct E as [E1 E2].
  unfold bind at 1. rewrite local_reads by apply read_reads. rewrite Hread.
  intros H. apply put_file_stores_object in H. destruct H as [Hc [Ho _]].
  unfold objects_of. rewrite Ho.
  assert (Hend : Path.endswith_slash (self ++ dest) = false).
  { rewrite endswith_app; [exact E2|]. now apply String.eqb_neq. }
  split; [|split].
  - now apply find_uploaded.
  - intros k Hk. apply find_with_folders_in. now apply in_rev in Hk.
  - exact Hc.
Qed.

(** X24. [copy_to] of a source that is not a directory checks the
    destination first: an empty destination or one that ends with "/" is
    refused with [NotFoundException] and nothing is done; with another
    destination, a source that is not a file of the disk either raises
    [OSError], which is not turned into [NotFoundException]. *)
Theorem copy_to_rejects (fuel : nat) (self src_disk : string) (dest : option string)
    (w : S3FSProvider.world) :
  let d := S3CacheManager.disk (S3FSProvider._cache w) in
  let target := default "" dest in
  Disk.isdir src_disk d = false ->
  (target = "" \/ Path.endswith_slash target = true ->
   S3FSProvider.copy_to (S fuel) self src_disk dest w = (Raise NotFoundException, w)) /\
  (target <> "" -> Path.endswith_slash target = false ->
   Disk.isfile src_disk d = false ->
   S3FSProvider.copy_to (S fuel) self src_disk dest w = (Raise OSError, w)).
Proof.
  cbv zeta. intros Hdir. split.
  - intros Ht. cbn [S3FSProvider.copy_to].
    unfold bind at 1. rewrite local_reads by reflexivity. unfold gets at 1. simpl.
    rewrite Hdir.
    destruct Ht as [-> | ->]; [reflexivity|]. now rewrite orb_true_r.
  - intros Hne Hs Hfile. cbn [S3FSProvider.copy_to].
    unfold bind at 1. rewrite local_reads by reflexivity. unfold gets at 1. simpl.
    rewrite Hdir. apply String.eqb_neq in Hne. rewrite Hne, Hs. simpl.
    unfold bind at 1. rewrite local_reads by apply read_reads.
    unfold Disk.read. unfold Disk.isfile in Hfile.
    apply bool_decide_eq_false in Hfile.
    destruct (Disk.files _ !! Disk.norm src_disk) eqn:F; [|reflexivity].
    exfalso. apply Hfile. now exists b.
Qed.

(** X25. [copy_to] only adds to the bucket: whatever the source and
    however it ends, the cache manager and the local disk are as before,
    and every key that had an object still has one. *)
Theorem copy_to_only_adds (fuel : nat) (self src_disk : string) (dest : option string)
    (w : S3FSProvider.world) :
  let w' := (S3FSProvider.copy_to fuel self src_disk dest w).2 in
  S3FSProvider._cache w' = S3FSProvider._cache w /\
  forall key, is_Some (S3.find key (objects_of w)) -> is_Some (S3.find key (objects_of w')).
Proof.
  cbv zeta.
  exact (kept_copy_to (S3FSProvider._cache w)
           (fun key => is_Some (S3.find key (S3.objects (S3FSProvider._bucket w))))
           fuel self src_disk dest w (conj eq_refl (fun key H => H))).
Qed.

End CopyTo.

Section Distribute.

Variable _checkpath : string -> bool.

(** X26. Every entry of the archive of a folder streams the last file.
    [distribute] gives one entry for each file listed below the folder,
    under the name listed; the generator of an entry reads the loop
    variable when the archive is read, after the loop has ended: whatever
    its name, each entry then holds the content of the object of the last
    name listed. *)
Theorem archive_streams_last_file (self filepath : string) (w w1 : S3FSProvider.world)
    (mime : string) (zip : S3FSProvider.ZipFile) :
  S3FSProvider.distribute _checkpath self filepath true w
  = (Ret (S3FSProvider.local_zip mime zip), w1) ->
  let names := S3FSProvider.paths_to_write zip in
  (S3FSProvider.list (S3FSProvider.__init__ (self ++ filepath)) false true true w).1
  = Ret names /\
  forall w2 w3 entries,
    S3FSProvider.read_zip zip w2 = (Ret entries, w3) ->
    map fst entries = names /\
    forall entry, In entry entries ->
      exists o, S3.find (self ++ filepath ++ List.last names "") (objects_of w2) = Some o /\
                entry.2 = S3.body o.
Proof.
  unfold S3FSProvider.distribute, S3FSProvider.from_subfolder, S3FSProvider.checkpath.
  unfold bind at 1. destruct (_checkpath filepath); simpl; [|discriminate].
  destruct (Path.endswith_slash (self ++ filepath)); [|discriminate]. simpl.
  unfold bind at 1. simpl. unfold bind at 1.
  destruct (S3FSProvider.list _ false true true w) as [[filelist| |] w'] eqn:E;
    simpl; try discriminate.
  intros [= <- <- <-]. rewrite write_all_last. simpl. split; [reflexivity|].
  intros w2 w3 entries H. unfold S3FSProvider.read_zip in H. simpl in H.
  apply read_entries_same in H. destruct H as [H1 [_ H3]]. simpl in H3.
  split; [exact H1|]. intros entry Hin. rewrite <- append_assoc. apply H3, Hin.
Qed.

End Distribute.

Lemma move_removes_source_witness :
  let w := start ticking two_files 100 in
  let w' := (S3FSProvider.move no_leading_slash 20 "" "d/f.txt" "d/f.txt" w).2 in
  Path.endswith_slash ("" ++ "d/f.txt") = false /\ "" ++ "d/f.txt" <> "" /\
  S3FSProvider.move no_leading_slash 20 "" "d/f.txt" "d/f.txt" w = (Ret tt, w') /\
  S3.find ("" ++ "d/f.txt") (objects_of w') = None /\
  S3.find "d/f.txt" (objects_of w) = Some (S3.Object 3 (zeros 4)).
Proof.
  intros w w'.
  assert (H1 : Path.endswith_slash ("" ++ "d/f.txt") = false) by reflexivity.
  assert (H2 : "" ++ "d/f.txt" <> "") by discriminate.
  assert (H3 : S3FSProvider.move no_leading_slash 20 "" "d/f.txt" "d/f.txt" w = (Ret tt, w'))
    by (vm_compute; reflexivity).
  repeat (split; [assumption|]).
  split; [|reflexivity].
  exact (move_removes_source no_leading_slash 20 "" "d/f.txt" "d/f.txt" w w' H1 H2 H3).
Defined.

Lemma move_carries_content_witness :
  let w := start ticking two_files 100 in
  let w1 := (S3FSProvider.get no_leading_slash 20 "" "d/f.txt" None w).2 in
  let w' := (S3FSProvider.move no_leading_slash 20 "" "d/f.txt" "e/f.txt" w).2 in
  Path.endswith_slash ("" ++ "d/f.txt") = false /\ "" ++ "d/f.txt" <> "" /\
  "" ++ "e/f.txt" <> "" ++ "d/f.txt" /\
  S3FSProvider.get no_leading_slash 20 "" "d/f.txt" None w = (Ret (zeros 4), w1) /\
  S3FSProvider.move no_leading_slash 20 "" "d/f.txt" "e/f.txt" w = (Ret tt, w') /\
  S3.find ("" ++ "e/f.txt") (objects_of w') = Some (S3.Object (time_of w1) (zeros 4)).
Proof.
  intros w w1 w'.
  assert (H1 : Path.endswith_slash ("" ++ "d/f.txt") = false) by reflexivity.
  assert (H2 : "" ++ "d/f.txt" <> "") by discriminate.
  assert (H3 : "" ++ "e/f.txt" <> "" ++ "d/f.txt") by discriminate.
  assert (H4 : S3FSProvider.get no_leading_slash 20 "" "d/f.txt" None w = (Ret (zeros 4), w1))
    by (vm_compute; reflexivity).
  assert (H5 : S3FSProvider.move no_leading_slash 20 "" "d/f.txt" "e/f.txt" w = (Ret tt, w'))
    by (vm_compute; reflexivity).
  repeat (split; [assumption|]).
  exact (move_carries_content no_leading_slash 20 "" "d/f.txt" "e/f.txt" (zeros 4) w w1 w'
           H1 H2 H3 H4 H5).
Defined.

Lemma copy_to_uploads_file_witness :
  let w := with_local_file in
  let d := S3CacheManager.disk (S3FSProvider._cache w) in
  let w' := (S3FSProvider.copy_to 20 "p/" "in/a.txt" (Some "x/a.txt") w).2 in
  Disk.isdir "in/a.txt" d = false /\
  (Disk.read "in/a.txt" d).1 = Ret (zeros 3) /\
  S3FSProvider.copy_to 20 "p/" "in/a.txt" (Some "x/a.txt") w = (Ret tt, w') /\
  S3.find ("p/" ++ "x/a.txt") (objects_of w') = Some (S3.Object (time_of w) (zeros 3)) /\
  (forall k, In k (folder_keys ("p/" ++ "x/a.txt")) ->
     S3.find k (objects_of w') = Some (S3.Object (time_of w) [])) /\
  S3FSProvider._cache w' = S3FSProvider._cache w.
Proof.
  intros w d w'.
  assert (H1 : Disk.isdir "in/a.txt" d = false) by (vm_compute; reflexivity).
  assert (H2 : (Disk.read "in/a.txt" d).1 = Ret (zeros 3)) by (vm_compute; reflexivity).
  assert (H3 : S3FSProvider.copy_to 20 "p/" "in/a.txt" (Some "x/a.txt") w = (Ret tt, w'))
    by (vm_compute; reflexivity).
  repeat (split; [assumption|]).
  exact (copy_to_uploads_file 20 "p/" "in/a.txt" "x/a.txt" (zeros 3) w w' H1 H2 H3).
Defined.

Lemma copy_to_rejects_witness :
  let w := with_local_file in
  let d := S3CacheManager.disk (S3FSProvider._cache w) in
  let target := default "" (Some "x/") in
  Disk.isdir "in/a.txt" d = false /\
  (target = "" \/ Path.endswith_slash target = true ->
   S3FSProvider.copy_to 20 "p/" "in/a.txt" (Some "x/") w = (Raise NotFoundException, w)) /\
  (target <> "" -> Path.endswith_slash target = false ->
   Disk.isfile "in/a.txt" d = false ->
   S3FSProvider.copy_to 20 "p/" "in/a.txt" (Some "x/") w = (Raise OSError, w)).
Proof.
  intros w d target.
  assert (H1 : Disk.isdir "in/a.txt" d = false) by (vm_compute; reflexivity).
  split; [exact H1|].
  exact (copy_to_rejects 19 "p/" "in/a.txt" (Some "x/") w H1).
Defined.

Lemma archive_streams_last_file_witness :
  let w := start ticking two_files 100 in
  let w1 := logged (S3FSProvider.Remote S3.List "d/") w in
  let zip := S3FSProvider.Zip ["f.txt"; "s/g.txt"] (S3FSProvider.Frame "d/" "s/g.txt") in
  let names := S3FSProvider.paths_to_write zip in
  S3FSProvider.distribute no_leading_slash "" "d/" true w
  = (Ret (S3FSProvider.local_zip "application/zip" zip), w1) /\
  ((S3FSProvider.list (S3FSProvider.__init__ ("" ++ "d/")) false true true w).1 = Ret names /\
   forall w2 w3 entries,
     S3FSProvider.read_zip zip w2 = (Ret entries, w3) ->
     map fst entries = names /\
     forall entry, In entry entries ->
       exists o, S3.find ("" ++ "d/" ++ List.last names "") (objects_of w2) = Some o /\
                 entry.2 = S3.body o) /\
  (S3FSProvider.read_zip zip w1).1 = Ret [("f.txt", zeros 5); ("s/g.txt", zeros 5)] /\
  S3.find "d/f.txt" (objects_of w1) = Some (S3.Object 3 (zeros 4)).
Proof.
  intros w w1 zip names.
  assert (H1 : S3FSProvider.distribute no_leading_slash "" "d/" true w
               = (Ret (S3FSProvider.local_zip "application/zip" zip), w1))
    by (vm_compute; reflexivity).
  split; [exact H1|].
  split; [exact (archive_streams_last_file no_leading_slash "" "d/" w w1
                   "application/zip" zip H1)|].
  split; vm_compute; reflexivity.
Defined.

Section Provider3.

Variable _checkpath : string -> bool.

(** X27. A key that starts with "/" is never served. When the key
    [self ++ filepath] starts with "/", the walk of the cache from a path up
    to the root never ends, so [get_fd] returns no file, whatever the
    timestamp, the bucket and the cache: it raises or it does not end. The
    same holds for the [delete] of such a key that is a file path. *)
Theorem absolute_key_never_returns (self filepath : string) :
  Path.startswith_slash (self ++ filepath) = true ->
  (forall fuel t w p,
     (S3FSProvider.get_fd _checkpath fuel self filepath t w).1 <> Ret p) /\
  (Path.endswith_slash (self ++ filepath) = false ->
   forall fuel w u,
     (S3FSProvider.delete _checkpath fuel self (Some filepath) w).1 <> Ret u).
Proof.
  intros Habs. split.
  - intros fuel t w p. unfold S3FSProvider.get_fd. apply bind_last_never. clear w p.
    intros _ w p. destruct (Path.endswith_slash (self ++ filepath)) eqn:E; [discriminate|].
    assert (Hs : Path.startswith_slash
                   (S3CacheManager.CustomLRUCache.strip_slash (self ++ filepath)) = true)
      by (now rewrite strip_slash_file).
    apply try_except_never; [|discriminate]. clear p. intros p.
    apply bind_last_never. clear w p. intros needed w p.
    unfold bind at 1. rewrite cachem_run.
    pose proof (get_absolute fuel _ needed.1 (S3FSProvider._cache w) Hs) as Hget.
    destruct (S3CacheManager.get fuel (self ++ filepath) needed.1 (S3FSProvider._cache w))
      as [[[loc|]| |] s1]; cbn [fst snd] in *; try discriminate.
    { exfalso. now apply (Hget loc). }
    apply bind_last_never. clear p. intros fd w1. apply bind_last_never. intros lm w2.
    apply bind_first_never. intros u. rewrite cachem_run. cbn [fst].
    now apply put_file_absolute.
  - intros E fuel w u. destruct fuel as [|fuel]; [discriminate|].
    assert (Hs : Path.startswith_slash
                   (S3CacheManager.CustomLRUCache.strip_slash (self ++ filepath)) = true)
      by (now rewrite strip_slash_file).
    rewrite delete_step. cbn [default from_option]; unfold id. cbv zeta.
    apply bind_last_never. clear w u. intros _ w u. rewrite E.
    apply bind_last_never. clear w u. intros _ w u.
    apply try_except_never; [|discriminate]. clear u. intros u.
    apply bind_last_never. clear w u. intros _ w u.
    apply bind_first_never. intros v. rewrite cachem_run. cbn [fst].
    now apply invalidate_absolute.
Qed.

(** X28. [copy_from] of a file path opens the destination first, then
    downloads the file. When the destination cannot be opened for writing,
    [copy_from] raises the error of the open, asks the bucket nothing and
    changes nothing. When it can, the bucket holds the object and the store
    serves it, the cache has no entry for the key and has room for the
    content, and the file can be written in the cache directory, then
    [copy_from] returns, the destination holds the content of the object,
    the object was fetched once, and the cache holds its entry. *)
Theorem copy_from_file (fuel : nat) (self src dest_disk : string) (w : S3FSProvider.world) :
  let fullpath := self ++ src in
  let s := S3FSProvider._cache w in
  let c := S3CacheManager._cache_data s in
  let location := Path.join (S3CacheManager._cache_path s) fullpath in
  _checkpath src = true -> fullpath <> "" -> Path.endswith_slash fullpath = false ->
  (forall e, (Disk.open_wb dest_disk (S3CacheManager.disk s)).1 = Raise e ->
     S3FSProvider.copy_from _checkpath fuel self (Some src) dest_disk w = (Raise e, w)) /\
  (forall (o : S3.object) (d0 d1 d2 : Disk.t),
     relative fullpath -> (String.length fullpath <= fuel)%nat ->
     S3.refused (S3FSProvider._bucket w) S3.Head fullpath = false ->
     S3.refused (S3FSProvider._bucket w) S3.Get fullpath = false ->
     S3.find fullpath (objects_of w) = Some o ->
     LRU.data c !! fullpath = None ->
     0 <= LRU.currsize c -> LRU.currsize c + len (S3.body o) <= LRU.maxsize c ->
     Disk.open_wb dest_disk (S3CacheManager.disk s) = (Ret tt, d0) ->
     Disk.makedirs (Path.split_head location) d0 = (Ret tt, d1) ->
     Disk.write location (S3.body o) d1 = (Ret tt, d2) ->
     exists w',
       S3FSProvider.copy_from _checkpath fuel self (Some src) dest_disk w = (Ret tt, w') /\
       (Disk.read dest_disk (S3CacheManager.disk (S3FSProvider._cache w'))).1
       = Ret (S3.body o) /\
       gets_of w' = (gets_of w ++ [S3FSProvider.Remote S3.Get fullpath])%list /\
       entry_of fullpath (S3FSProvider._cache w')
       = Some (Entry (S3.last_modified o) location (len (S3.body o)))).
Proof.
  cbv zeta. unfold objects_of. intros Hc Hne Hf.
  assert (Hunf : S3FSProvider.copy_from _checkpath fuel self (Some src) dest_disk w
            = (do* S3FSProvider.local (Disk.open_wb dest_disk) in
               let* content := S3FSProvider.get _checkpath fuel self src None in
               S3FSProvider.local (Disk.write_fd dest_disk content)) w).
  { unfold S3FSProvider.copy_from. cbn [default from_option]. unfold id.
    unfold bind at 1. unfold S3FSProvider.checkpath. rewrite Hc. cbn [ret fst snd].
    rewrite Hf. destruct (String.eqb_spec (self ++ src) "") as [E|_]; [contradiction|].
    reflexivity. }
  rewrite Hunf. clear Hunf. split.
  - intros e He. unfold bind at 1. unfold S3FSProvider.local.
    rewrite cachem_run, os_run. cbn [fst snd].
    assert (Hd : (Disk.open_wb dest_disk (S3CacheManager.disk (S3FSProvider._cache w))).2
                 = S3CacheManager.disk (S3FSProvider._cache w)).
    { revert He. unfold Disk.open_wb, Disk.write.
      destruct (_ || _)%bool; [reflexivity | discriminate]. }
    rewrite He, Hd. destruct w as [[c d p] b k r l]. reflexivity.
  - intros o d0 d1 d2 Hrel Hlen Hh Hg Ho Hnew Hpos Hroom Hopen Hmk Hwr.
    set (w0 := set_cache (on_disk d0 (S3FSProvider._cache w)) w).
    destruct (get_fetches _checkpath fuel self src w0 o d1 d2 Hc Hf Hrel Hlen Hne Hh Hg Ho
                Hnew Hpos Hroom Hmk Hwr) as [w2 [Hget [Hgets [Hent Hdisk]]]].
    assert (Hfile0 : is_Some (Disk.files d0 !! Disk.norm dest_disk) /\
                     Path.endswith_slash dest_disk = false).
    { revert Hopen. unfold Disk.open_wb, Disk.write.
      destruct (Path.endswith_slash dest_disk); [discriminate|].
      destruct (_ || _)%bool; [discriminate|]. intros [= <-]. split; [|reflexivity].
      cbn. rewrite lookup_insert_eq. now eexists. }
    destruct Hfile0 as [Hfile0 Hend].
    assert (Hfile2 : Disk.isfile dest_disk d2 = true).
    { unfold Disk.isfile. apply bool_decide_eq_true.
      revert Hmk Hwr. unfold Disk.makedirs, Disk.write.
      destruct (String.eqb _ ""); [discriminate|].
      destruct (existsb _ _); [discriminate|]. intros [= <-].
      destruct (_ || _)%bool; [discriminate|]. intros [= <-]. cbn.
      destruct (decide (Disk.norm (Path.join (S3CacheManager._cache_path (S3FSProvider._cache w))
                                     (self ++ src)) = Disk.norm dest_disk)) as [E|E].
      - rewrite E, lookup_insert_eq. now eexists.
      - now rewrite lookup_insert_ne. }
    eexists. unfold bind at 1. unfold S3FSProvider.local at 1.
    rewrite cachem_run, os_run, Hopen. cbn [fst snd]. fold (on_disk d0 (S3FSProvider._cache w)).
    fold w0. unfold bind at 1. rewrite Hget. cbn [fst snd].
    unfold S3FSProvider.local. rewrite cachem_run, os_run. rewrite Hdisk.
    unfold Disk.write_fd. rewrite Hfile2. cbn [fst snd].
    split; [reflexivity|]. split; [|split].
    + cbn. unfold Disk.read. cbn. rewrite lookup_insert_eq, Hend. reflexivity.
    + unfold gets_of in *. cbn. exact Hgets.
    + unfold entry_of in *. cbn. exact Hent.
Qed.

End Provider3.

Lemma absolute_key_never_returns_witness :
  let w := start ticking rooted_bucket 100 in
  let r := S3FSProvider.get_fd no_leading_slash 20 "/data/" "f.txt" None w in
  Path.startswith_slash ("/data/" ++ "f.txt") = true /\
  ((forall fuel t w p,
      (S3FSProvider.get_fd no_leading_slash fuel "/data/" "f.txt" t w).1 <> Ret p) /\
   (Path.endswith_slash ("/data/" ++ "f.txt") = false ->
    forall fuel w u,
      (S3FSProvider.delete no_leading_slash fuel "/data/" (Some "f.txt") w).1 <> Ret u)) /\
  r.1 = OutOfFuel /\
  Disk.isfile "/data/f.txt" (S3CacheManager.disk (S3FSProvider._cache r.2)) = true /\
  (S3FSProvider.delete no_leading_slash 20 "/data/" (Some "f.txt") w).1 = OutOfFuel.
Proof.
  intros w r.
  assert (H1 : Path.startswith_slash ("/data/" ++ "f.txt") = true) by reflexivity.
  split; [exact H1|].
  split; [exact (absolute_key_never_returns no_leading_slash "/data/" "f.txt" H1)|].
  repeat split; vm_compute; reflexivity.
Defined.

Lemma copy_from_file_witness :
  let w := with_out_dir in
  let o := S3.Object (time_of blank) (zeros 5) in
  let fullpath := "" ++ "p/d/g.txt" in
  let s := S3FSProvider._cache w in
  let c := S3CacheManager._cache_data s in
  let location := Path.join (S3CacheManager._cache_path s) fullpath in
  let d0 := (Disk.open_wb "out/g.txt" (S3CacheManager.disk s)).2 in
  let d1 := (Disk.makedirs (Path.split_head location) d0).2 in
  let d2 := (Disk.write location (S3.body o) d1).2 in
  no_leading_slash "p/d/g.txt" = true /\ fullpath <> "" /\
  Path.endswith_slash fullpath = false /\
  relative fullpath /\ (String.length fullpath <= 20)%nat /\
  S3.refused (S3FSProvider._bucket w) S3.Head fullpath = false /\
  S3.refused (S3FSProvider._bucket w) S3.Get fullpath = false /\
  S3.find fullpath (objects_of w) = Some o /\
  LRU.data c !! fullpath = None /\
  0 <= LRU.currsize c /\ LRU.currsize c + len (S3.body o) <= LRU.maxsize c /\
  Disk.open_wb "out/g.txt" (S3CacheManager.disk s) = (Ret tt, d0) /\
  Disk.makedirs (Path.split_head location) d0 = (Ret tt, d1) /\
  Disk.write location (S3.body o) d1 = (Ret tt, d2) /\
  (exists w',
     S3FSProvider.copy_from no_leading_slash 20 "" (Some "p/d/g.txt") "out/g.txt" w
     = (Ret tt, w') /\
     (Disk.read "out/g.txt" (S3CacheManager.disk (S3FSProvider._cache w'))).1
     = Ret (S3.body o) /\
     gets_of w' = (gets_of w ++ [S3FSProvider.Remote S3.Get fullpath])%list /\
     entry_of fullpath (S3FSProvider._cache w')
     = Some (Entry (S3.last_modified o) location (len (S3.body o)))) /\
  (Disk.open_wb "cache/d/copy.txt" (S3CacheManager.disk s)).1 = Raise OSError /\
  S3FSProvider.copy_from no_leading_slash 20 "" (Some "p/d/g.txt") "cache/d/copy.txt" w
  = (Raise OSError, w).
Proof.
  intros w o fullpath s c location d0 d1 d2.
  assert (H1 : no_leading_slash "p/d/g.txt" = true) by reflexivity.
  assert (H2 : fullpath <> "") by discriminate.
  assert (H3 : Path.endswith_slash fullpath = false) by reflexivity.
  assert (H4 : relative fullpath) by reflexivity.
  assert (H5 : (String.length fullpath <= 20)%nat) by (simpl; lia).
  assert (H6 : S3.refused (S3FSProvider._bucket w) S3.Head fullpath = false) by reflexivity.
  assert (H7 : S3.refused (S3FSProvider._bucket w) S3.Get fullpath = false) by reflexivity.
  assert (H8 : S3.find fullpath (objects_of w) = Some o) by (vm_compute; reflexivity).
  assert (H9 : LRU.data c !! fullpath = None) by reflexivity.
  assert (H10 : 0 <= LRU.currsize c) by (vm_compute; discriminate).
  assert (H11 : LRU.currsize c + len (S3.body o) <= LRU.maxsize c)
    by (vm_compute; discriminate).
  assert (H12 : Disk.open_wb "out/g.txt" (S3CacheManager.disk s) = (Ret tt, d0))
    by (vm_compute; reflexivity).
  assert (H13 : Disk.makedirs (Path.split_head location) d0 = (Ret tt, d1))
    by (vm_compute; reflexivity).
  assert (H14 : Disk.write location (S3.body o) d1 = (Ret tt, d2))
    by (vm_compute; reflexivity).
  assert (H15 : (Disk.open_wb "cache/d/copy.txt" (S3CacheManager.disk s)).1 = Raise OSError)
    by (vm_compute; reflexivity).
  repeat (split; [assumption|]).
  split.
  { exact (proj2 (copy_from_file no_leading_slash 20 "" "p/d/g.txt" "out/g.txt" w H1 H2 H3)
             o d0 d1 d2 H4 H5 H6 H7 H8 H9 H10 H11 H12 H13 H14). }
  split; [exact H15|].
  exact (proj1 (copy_from_file no_leading_slash 20 "" "p/d/g.txt" "cache/d/copy.txt" w
                  H1 H2 H3) OSError H15).
Defined.
(** * Checks of the embedding on concrete inputs *)

Example split_head_file : Path.split_head "a/b/c.txt" = "a/b".
Proof. reflexivity. Qed.
Example split_head_top : Path.split_head "a" = "".
Proof. reflexivity. Qed.
Example split_head_root : Path.split_head "/a" = "/".
Proof. reflexivity. Qed.
Example split_head_root_fix : Path.split_head "/" = "/".
Proof. reflexivity. Qed.
Example split_head_dslash : Path.split_head "a//b" = "a".
Proof. reflexivity. Qed.
Example split_head_trailing : Path.split_head "cache/a/b/" = "cache/a/b".
Proof. reflexivity. Qed.
Example join_rel : Path.join "cache" "a/b" = "cache/a/b".
Proof. reflexivity. Qed.
Example join_abs : Path.join "cache" "/a/b" = "/a/b".
Proof. reflexivity. Qed.
Example join_empty : Path.join "cache" "" = "cache/".
Proof. reflexivity. Qed.
Example norm_trailing : Disk.norm "cache/a//b/" = "cache/a/b".
Proof. reflexivity. Qed.
Example norm_root : Disk.norm "//" = "/".
Proof. reflexivity. Qed.
Example chain_ex : Disk.chain 20 "cache/a/b" = ["cache/a/b"; "cache/a"; "cache"].
Proof. reflexivity. Qed.
Example makedirs_ex :
  Disk.isdir "cache/a/" (Disk.makedirs "cache/a/b" Disk.empty).2 = true.
Proof. vm_compute. reflexivity. Qed.
Example init_fresh :
  S3CacheManager.__init__ "cache" 100 Disk.empty
  = (Ret (fresh 100), Disk.mk ∅ {["cache"]}).
Proof. vm_compute. reflexivity. Qed.
Example nested_order :
  LRU.order (S3CacheManager._cache_data nested) = ["a/b/c.txt"; "a/b/"; "a/"].
Proof. vm_compute. reflexivity. Qed.
Example relpath_below : S3FSProvider._compute_relpath "d/s/g.txt" "d/" = "s/g.txt".
Proof. reflexivity. Qed.
Example prefix_root : S3FSProvider.__init__ "/" = "".
Proof. reflexivity. Qed.
